(** * Paginated fetch-and-aggregate scripts of the DMI data collection

    A shallow embedding of the pagination and aggregation loops of
    [src/dmi/scripts/precipitation.py], [wind.py], [sunlight.py],
    [Combined_Heating_Data_2022-2025.py], [dmi_wind_collection.py] and
    [dmi_sunlight_collection.py], with the properties the specification
    states about them and further properties of the same code.

    Conventions of the embedding.
    - A Python [dict] keyed by station id is a [gmap string _]; the
      [defaultdict] access [station_info[k]] is [getitem], followed by the
      insertion of the entry it creates.
    - A field of an observation read with [props.get(k)] is an [option]:
      [None] stands for an absent key as well as for JSON [null].  The
      metadata keys, which are read with [d.get(k, default)], live in a
      [gmap string (option string)], where an absent key and a key whose
      value is [None] differ.
    - Python integers are [Z].  Measurement values and coordinates are JSON
      numbers; the scripts only add, compare and store them, and they are
      taken in [Z] here (exact arithmetic).
    - Strings are compared with [String.ltb], the lexicographic order on
      their bytes, which is the order of Python's [<] on the code points
      of UTF-8 strings.
    - Station ids are strings: a JSON [null] station id is outside the
      model.
    - The HTTP layer is a function from the request (its offset) to a
      [response]; [requests.exceptions.RequestException] is the constructor
      [RequestException].
    - The page size and the ceiling, literals in the scripts, are
      parameters of the loop; each script instantiates them with its
      constants.
    - A loop that the source does not bound by its data takes fuel and
      returns [None] when it runs out; the ceiling makes the fuel of the
      aggregation loops sufficient ([aggregate_terminates]).
    - A record of the heating dataset is a [gmap string V]; what
      [csv.DictWriter] leaves in a file is its header and its rows of
      cells, and the name of the file is kept with it.  The first and the
      last year, constants of the script, are parameters of the list of
      months.
    - [print] calls and the counters that only feed them are left out. *)

From Stdlib Require Import ZArith List Lia Permutation.
From stdpp Require Import gmap strings list fin_maps sorting pretty.

Local Open Scope Z_scope.

(** ** JSON payload of the observation endpoint *)

(** [feature['properties']]: the keys the scripts read. *)
Record properties := Properties {
  prop_stationId : option string;
  prop_from : option string;
  prop_value : option Z
}.

(** One element of [data['features']].  [feat_coordinates] is
    [geometry.get('coordinates')], [None] when the feature has no geometry
    or the geometry has no coordinates. *)
Record feature := Feature {
  feat_properties : option properties;
  feat_coordinates : option (list Z)
}.

(** What [requests.get(...)], [raise_for_status()] and [.json()] give for
    one request: the decoded [features] array, or a transport failure. *)
Inductive response :=
  | RequestException
  | Features (features : list feature).

(** ** Helpers shared by the station scripts *)

(** [coords = geometry['coordinates'] if geometry and
    geometry.get('coordinates') else None]: an empty array is falsy. *)
Definition coords_of (f : feature) : option (list Z) :=
  match feat_coordinates f with
  | Some (c :: cs) => Some (c :: cs)
  | _ => None
  end.

(** [(coords[1], coords[0])]; [None] is the [IndexError] of [coords[1]] on
    a one-element array. *)
Definition lat_lon (coords : list Z) : option (Z * Z) :=
  match coords with
  | lon :: lat :: _ => Some (lat, lon)
  | _ => None
  end.

(** [not d]: a date field is falsy when it is [None] or the empty string. *)
Definition falsy (d : option string) : bool :=
  match d with
  | None => true
  | Some s => bool_decide (s = "")
  end.

(** [if not first or from_date < first: first = from_date] *)
Definition earliest (from_date : string) (first : option string) : option string :=
  match first with
  | Some d => if falsy first || String.ltb from_date d then Some from_date else first
  | None => Some from_date
  end.

(** [if not last or from_date > last: last = from_date] *)
Definition latest (from_date : string) (last : option string) : option string :=
  match last with
  | Some d => if falsy last || String.ltb d from_date then Some from_date else last
  | None => Some from_date
  end.

(** [if m is None or value < m: m = value] *)
Definition lower (value : Z) (m : option Z) : option Z :=
  match m with
  | Some x => if value <? x then Some value else m
  | None => Some value
  end.

(** [if m is None or value > m: m = value] *)
Definition higher (value : Z) (m : option Z) : option Z :=
  match m with
  | Some x => if x <? value then Some value else m
  | None => Some value
  end.

(** ** The pagination loop

    The loop of [get_precipitation_stations_csv] (lines 42-143) and the
    inner loop of [get_wind_stations_csv] (lines 67-172) are the same
    code up to the page size, the ceiling and the body of the [for] over
    the page; [paginate] is that loop, over the three. *)

(** How the [while] loop was left. *)
Inductive exit :=
  | EmptyPage        (* [if not features: break] *)
  | ShortPage        (* [if len(features) < limit: break] *)
  | TransportError   (* [except RequestException: ... break] *)
  | CeilingReached.  (* [offset < max_offset] is false *)

(** The terminal states of the specification's state machine. *)
Inductive termination := DONE | ABORTED.

Definition termination_of (e : exit) : termination :=
  match e with
  | EmptyPage | ShortPage => DONE
  | TransportError | CeilingReached => ABORTED
  end.

Record run (Store : Type) := Run {
  store : Store;            (* the summary mapping when the loop is left *)
  requests : list Z;        (* the offsets requested, in order *)
  left_by : exit
}.
Arguments Run {Store}.
Arguments store {Store}.
Arguments requests {Store}.
Arguments left_by {Store}.

Section Pagination.
Context {Store : Type}.
Variable process_page : list feature -> Store -> Store.
Variables limit max_offset : Z.
Variable get : Z -> response.

(** One unfolding of the [while] per unit of fuel; [None] when the
    fuel runs out before the loop is left. *)
Fixpoint paginate (fuel : nat) (offset : Z) (station_info : Store)
    (issued : list Z) : option (run Store) :=
  match fuel with
  | O => None
  | S fuel =>
    if offset <? max_offset then
      match get offset with
      | RequestException =>
          Some (Run station_info (issued ++ [offset]) TransportError)
      | Features features =>
          match features with
          | [] => Some (Run station_info (issued ++ [offset]) EmptyPage)
          | _ :: _ =>
            let station_info := process_page features station_info in
            if Z.of_nat (length features) <? limit then
              Some (Run station_info (issued ++ [offset]) ShortPage)
            else
              paginate fuel (offset + limit) station_info (issued ++ [offset])
          end
      end
    else Some (Run station_info issued CeilingReached)
  end.

(** [offset = 0] and the mapping the caller passes; the ceiling bounds
    the number of iterations, so this fuel is never used up when
    [limit] is positive (see [aggregate_terminates]). *)
Definition aggregate (station_info : Store) : option (run Store) :=
  paginate (S (Z.to_nat max_offset)) 0 station_info [].
End Pagination.

(** ** precipitation.py *)

Module Precipitation.

(** The per-station dict of [station_info]; the metadata keys, which
    only the later join writes, and the constant
    ['measures_precipitation'] are not carried. *)
Record info := Info {
  stationId : option string;
  latitude : option Z;
  longitude : option Z;
  precipitation_observations : Z;
  first_precipitation_date : option string;
  last_precipitation_date : option string;
  min_precipitation : option Z;
  max_precipitation : option Z;
  total_precipitation_sample : Z
}.

(** The value of the [defaultdict] factory. *)
Definition default_info : info :=
  Info None None None 0 None None None None 0.

Definition getitem (station_info : gmap string info) (station_id : string) : info :=
  default default_info (station_info !! station_id).

(** Lines 82-93: initialise the entry, or backfill its coordinates.
    [None] is an [IndexError] raised before anything was assigned. *)
Definition locate (station_id : string) (coords : option (list Z)) (e : info)
    : option info :=
  match stationId e with
  | None =>
      match coords with
      | None =>
          Some (Info (Some station_id) None None
                  (precipitation_observations e) (first_precipitation_date e)
                  (last_precipitation_date e) (min_precipitation e)
                  (max_precipitation e) (total_precipitation_sample e))
      | Some c =>
          match lat_lon c with
          | Some (lat, lon) =>
              Some (Info (Some station_id) (Some lat) (Some lon)
                      (precipitation_observations e) (first_precipitation_date e)
                      (last_precipitation_date e) (min_precipitation e)
                      (max_precipitation e) (total_precipitation_sample e))
          | None => None
          end
      end
  | Some _ =>
      match coords, latitude e with
      | Some c, None =>
          match lat_lon c with
          | Some (lat, lon) =>
              Some (Info (stationId e) (Some lat) (Some lon)
                      (precipitation_observations e) (first_precipitation_date e)
                      (last_precipitation_date e) (min_precipitation e)
                      (max_precipitation e) (total_precipitation_sample e))
          | None => None
          end
      | _, _ => Some e
      end
  end.

(** Lines 100-109: first and last date. *)
Definition track_dates (from_date : option string) (e : info) : info :=
  match from_date with
  | Some d =>
      if bool_decide (d = "") then e
      else Info (stationId e) (latitude e) (longitude e)
             (precipitation_observations e)
             (earliest d (first_precipitation_date e))
             (latest d (last_precipitation_date e))
             (min_precipitation e) (max_precipitation e)
             (total_precipitation_sample e)
  | None => e
  end.

(** Lines 111-121: sum, minimum and maximum of the non-null values. *)
Definition track_value (precipitation_value : option Z) (e : info) : info :=
  match precipitation_value with
  | Some v =>
      Info (stationId e) (latitude e) (longitude e)
        (precipitation_observations e)
        (first_precipitation_date e) (last_precipitation_date e)
        (lower v (min_precipitation e)) (higher v (max_precipitation e))
        (total_precipitation_sample e + v)
  | None => e
  end.

(** Line 123. *)
Definition count (e : info) : info :=
  Info (stationId e) (latitude e) (longitude e)
    (precipitation_observations e + 1)
    (first_precipitation_date e) (last_precipitation_date e)
    (min_precipitation e) (max_precipitation e)
    (total_precipitation_sample e).

Definition track (props : properties) (e : info) : info :=
  count (track_value (prop_value props) (track_dates (prop_from props) e)).

(** The body of [for feature in features] (lines 62-124). *)
Definition process_feature (station_info : gmap string info) (f : feature)
    : gmap string info :=
  match feat_properties f with
  | None => station_info
  | Some props =>
    match prop_stationId props with
    | None => station_info
    | Some station_id =>
      let e := getitem station_info station_id in
      match locate station_id (coords_of f) e with
      | None => <[station_id := e]> station_info
      | Some e => <[station_id := track props e]> station_info
      end
    end
  end.

Definition process_features (features : list feature)
    (station_info : gmap string info) : gmap string info :=
  fold_left process_feature features station_info.

(** The constants of the script. *)
Definition limit : Z := 300000.
Definition max_offset : Z := 1000000.

(** The collection phase of [get_precipitation_stations_csv]
    (lines 16-143): [station_info] starts empty. *)
Definition get_precipitation_stations_csv (get : Z -> response)
    : option (run (gmap string info)) :=
  aggregate process_features limit max_offset get ∅.

End Precipitation.

(** ** wind.py *)

(** [d.get(k, default)] on a JSON object whose values are nullable
    strings: the default is returned only when the key is absent. *)
Definition dict_get (d : gmap string (option string)) (k : string)
    (default : option string) : option string :=
  match d !! k with
  | Some v => v
  | None => default
  end.

(** What the station endpoint gives: the [properties] object of every
    feature ([∅] when the feature has none), or a transport failure. *)
Inductive station_response :=
  | StationRequestException
  | StationFeatures (features : list (gmap string (option string))).

Module Wind.

(** The keys of [wind_parameters], in the order of the dict. *)
Inductive wind_param :=
  | mean_wind_speed
  | max_wind_speed_3sec
  | max_wind_speed_10min
  | mean_wind_dir
  | mean_wind_dir_min0.

Global Instance wind_param_eq_dec : EqDecision wind_param.
Proof. solve_decision. Defined.

Definition param_id (p : wind_param) : string :=
  match p with
  | mean_wind_speed => "mean_wind_speed"
  | max_wind_speed_3sec => "max_wind_speed_3sec"
  | max_wind_speed_10min => "max_wind_speed_10min"
  | mean_wind_dir => "mean_wind_dir"
  | mean_wind_dir_min0 => "mean_wind_dir_min0"
  end.

Definition wind_parameters : list wind_param :=
  [mean_wind_speed; max_wind_speed_3sec; max_wind_speed_10min;
   mean_wind_dir; mean_wind_dir_min0].

(** ['speed' in param_id] *)
Definition is_speed (p : wind_param) : bool :=
  match String.index 0 "speed" (param_id p) with
  | Some _ => true
  | None => false
  end.

(** The per-station dict.  [meta] holds the keys ['name'], ['country'],
    ['status'], ['validFrom'] and ['validTo'], which the output reads
    with [.get]; the other keys are read by subscript and are fields. *)
Record info := Info {
  stationId : option string;
  latitude : option Z;
  longitude : option Z;
  meta : gmap string (option string);
  wind_parameters_seen : gset string;      (* ['wind_parameters'] *)
  total_wind_observations : Z;
  mean_wind_speed_obs : Z;
  max_wind_speed_3sec_obs : Z;
  max_wind_speed_10min_obs : Z;
  mean_wind_dir_obs : Z;
  mean_wind_dir_min0_obs : Z;
  first_wind_date : option string;
  last_wind_date : option string;
  max_wind_speed_recorded : option Z;
  min_wind_speed_recorded : option Z
}.

Definition default_meta : gmap string (option string) :=
  <["name" := None]> (<["country" := None]> (<["status" := None]>
    (<["validFrom" := None]> (<["validTo" := None]> ∅)))).

(** The value of the [defaultdict] factory (lines 33-53). *)
Definition default_info : info :=
  Info None None None default_meta ∅ 0 0 0 0 0 0 None None None None.

Definition getitem (station_info : gmap string info) (station_id : string) : info :=
  default default_info (station_info !! station_id).

Definition set_place (sid : option string) (lat lon : option Z) (e : info) : info :=
  Info sid lat lon (meta e) (wind_parameters_seen e)
    (total_wind_observations e) (mean_wind_speed_obs e)
    (max_wind_speed_3sec_obs e) (max_wind_speed_10min_obs e)
    (mean_wind_dir_obs e) (mean_wind_dir_min0_obs e)
    (first_wind_date e) (last_wind_date e)
    (max_wind_speed_recorded e) (min_wind_speed_recorded e).

(** Lines 108-119: initialise the entry, or backfill its coordinates.
    [None] is an [IndexError] raised before anything was assigned. *)
Definition locate (station_id : string) (coords : option (list Z)) (e : info)
    : option info :=
  match stationId e with
  | None =>
      match coords with
      | None => Some (set_place (Some station_id) None None e)
      | Some c =>
          match lat_lon c with
          | Some (lat, lon) =>
              Some (set_place (Some station_id) (Some lat) (Some lon) e)
          | None => None
          end
      end
  | Some _ =>
      match coords, latitude e with
      | Some c, None =>
          match lat_lon c with
          | Some (lat, lon) => Some (set_place (stationId e) (Some lat) (Some lon) e)
          | None => None
          end
      | _, _ => Some e
      end
  end.

(** Line 122. *)
Definition add_parameter (p : wind_param) (e : info) : info :=
  Info (stationId e) (latitude e) (longitude e) (meta e)
    ({[param_id p]} ∪ wind_parameters_seen e)
    (total_wind_observations e) (mean_wind_speed_obs e)
    (max_wind_speed_3sec_obs e) (max_wind_speed_10min_obs e)
    (mean_wind_dir_obs e) (mean_wind_dir_min0_obs e)
    (first_wind_date e) (last_wind_date e)
    (max_wind_speed_recorded e) (min_wind_speed_recorded e).

(** Lines 125-134. *)
Definition track_dates (from_date : option string) (e : info) : info :=
  match from_date with
  | Some d =>
      if bool_decide (d = "") then e
      else Info (stationId e) (latitude e) (longitude e) (meta e)
             (wind_parameters_seen e)
             (total_wind_observations e) (mean_wind_speed_obs e)
             (max_wind_speed_3sec_obs e) (max_wind_speed_10min_obs e)
             (mean_wind_dir_obs e) (mean_wind_dir_min0_obs e)
             (earliest d (first_wind_date e)) (latest d (last_wind_date e))
             (max_wind_speed_recorded e) (min_wind_speed_recorded e)
  | None => e
  end.

(** Lines 136-144: extremes, for the speed parameters only. *)
Definition track_speed (p : wind_param) (wind_value : option Z) (e : info) : info :=
  match wind_value with
  | Some v =>
      if is_speed p then
        Info (stationId e) (latitude e) (longitude e) (meta e)
          (wind_parameters_seen e)
          (total_wind_observations e) (mean_wind_speed_obs e)
          (max_wind_speed_3sec_obs e) (max_wind_speed_10min_obs e)
          (mean_wind_dir_obs e) (mean_wind_dir_min0_obs e)
          (first_wind_date e) (last_wind_date e)
          (higher v (max_wind_speed_recorded e))
          (lower v (min_wind_speed_recorded e))
      else e
  | None => e
  end.

(** Lines 146-148: [station_info[station_id][f'{param_id}_obs'] += 1]
    and the total. *)
Definition count (p : wind_param) (e : info) : info :=
  let bump (q : wind_param) (n : Z) := if bool_decide (p = q) then n + 1 else n in
  Info (stationId e) (latitude e) (longitude e) (meta e)
    (wind_parameters_seen e)
    (total_wind_observations e + 1)
    (bump mean_wind_speed (mean_wind_speed_obs e))
    (bump max_wind_speed_3sec (max_wind_speed_3sec_obs e))
    (bump max_wind_speed_10min (max_wind_speed_10min_obs e))
    (bump mean_wind_dir (mean_wind_dir_obs e))
    (bump mean_wind_dir_min0 (mean_wind_dir_min0_obs e))
    (first_wind_date e) (last_wind_date e)
    (max_wind_speed_recorded e) (min_wind_speed_recorded e).

Definition track (p : wind_param) (props : properties) (e : info) : info :=
  count p (track_speed p (prop_value props)
    (track_dates (prop_from props) (add_parameter p e))).

(** The body of [for feature in features] (lines 87-154). *)
Definition process_feature (p : wind_param) (station_info : gmap string info)
    (f : feature) : gmap string info :=
  match feat_properties f with
  | None => station_info
  | Some props =>
    match prop_stationId props with
    | None => station_info
    | Some station_id =>
      let e := getitem station_info station_id in
      match locate station_id (coords_of f) e with
      | None => <[station_id := e]> station_info
      | Some e => <[station_id := track p props e]> station_info
      end
    end
  end.

Definition process_features (p : wind_param) (features : list feature)
    (station_info : gmap string info) : gmap string info :=
  fold_left (process_feature p) features station_info.

Definition limit : Z := 300000.
Definition max_offset : Z := 1000000.

(** One pass of [for param_id, ... in wind_parameters.items()]: the
    inner [while] for that parameter, on the mapping built so far. *)
Definition parameter_pass (get : wind_param -> Z -> response) (p : wind_param)
    (station_info : gmap string info) : option (run (gmap string info)) :=
  aggregate (process_features p) limit max_offset (get p) station_info.

(** The collection phase of [get_wind_stations_csv] (lines 58-174):
    the mapping after the passes, and how each pass went. *)
Fixpoint passes (get : wind_param -> Z -> response) (ps : list wind_param)
    (station_info : gmap string info) (log : list (wind_param * list Z * exit))
    : option (gmap string info * list (wind_param * list Z * exit)) :=
  match ps with
  | [] => Some (station_info, log)
  | p :: ps =>
      match parameter_pass get p station_info with
      | Some r => passes get ps (store r) (log ++ [(p, requests r, left_by r)])
      | None => None
      end
  end.

Definition collect (get : wind_param -> Z -> response)
    : option (gmap string info * list (wind_param * list Z * exit)) :=
  passes get wind_parameters ∅ [].

Definition set_meta (m : gmap string (option string)) (e : info) : info :=
  Info (stationId e) (latitude e) (longitude e) m
    (wind_parameters_seen e)
    (total_wind_observations e) (mean_wind_speed_obs e)
    (max_wind_speed_3sec_obs e) (max_wind_speed_10min_obs e)
    (mean_wind_dir_obs e) (mean_wind_dir_min0_obs e)
    (first_wind_date e) (last_wind_date e)
    (max_wind_speed_recorded e) (min_wind_speed_recorded e).

(** Lines 202-206: the five assignments of the join. *)
Definition details (props : gmap string (option string))
    (m : gmap string (option string)) : gmap string (option string) :=
  <["validTo" := dict_get props "validTo" None]>
    (<["validFrom" := dict_get props "validFrom" None]>
      (<["status" := dict_get props "status" (Some "Unknown")]>
        (<["country" := dict_get props "country" (Some "Unknown")]>
          (<["name" := dict_get props "name" (Some "Unknown")]> m)))).

(** The body of the [for] over the station features (lines 195-207). *)
Definition join_station (station_info : gmap string info)
    (props : gmap string (option string)) : gmap string info :=
  if bool_decide (props = ∅) then station_info
  else
    match dict_get props "stationId" None with
    | Some station_id =>
        match station_info !! station_id with
        | Some e => <[station_id := set_meta (details props (meta e)) e]> station_info
        | None => station_info
        end
    | None => station_info
    end.

(** Lines 188-212: a failure of the station request is only warned
    about. *)
Definition join (stations : station_response) (station_info : gmap string info)
    : gmap string info :=
  match stations with
  | StationRequestException => station_info
  | StationFeatures features => fold_left join_station features station_info
  end.

(** One element of [stations_list] (lines 223-249).
    ['wind_parameters_measured'] is carried as the set it renders. *)
Record row := Row {
  station_id : option string;
  name : option string;
  country : option string;
  row_latitude : option Z;
  row_longitude : option Z;
  status : option string;
  valid_from : option string;
  valid_to : option string;
  wind_parameters_measured : gset string;
  parameter_count : Z;
  measures_mean_wind_speed : bool;
  measures_max_wind_speed_3sec : bool;
  measures_max_wind_speed_10min : bool;
  measures_mean_wind_dir : bool;
  measures_mean_wind_dir_min0 : bool;
  row_total_wind_observations : Z;
  mean_wind_speed_observations : Z;
  max_wind_speed_3sec_observations : Z;
  max_wind_speed_10min_observations : Z;
  mean_wind_dir_observations : Z;
  mean_wind_dir_min0_observations : Z;
  row_first_wind_date : option string;
  row_last_wind_date : option string;
  max_wind_speed_recorded_ms : option Z;
  min_wind_speed_recorded_ms : option Z
}.

Definition station_row (e : info) : row :=
  Row (stationId e)
    (dict_get (meta e) "name" (Some "Unknown"))
    (dict_get (meta e) "country" (Some "Unknown"))
    (latitude e) (longitude e)
    (dict_get (meta e) "status" (Some "Unknown"))
    (dict_get (meta e) "validFrom" None)
    (dict_get (meta e) "validTo" None)
    (wind_parameters_seen e)
    (Z.of_nat (size (wind_parameters_seen e)))
    (bool_decide ("mean_wind_speed" ∈ wind_parameters_seen e))
    (bool_decide ("max_wind_speed_3sec" ∈ wind_parameters_seen e))
    (bool_decide ("max_wind_speed_10min" ∈ wind_parameters_seen e))
    (bool_decide ("mean_wind_dir" ∈ wind_parameters_seen e))
    (bool_decide ("mean_wind_dir_min0" ∈ wind_parameters_seen e))
    (total_wind_observations e)
    (mean_wind_speed_obs e) (max_wind_speed_3sec_obs e)
    (max_wind_speed_10min_obs e) (mean_wind_dir_obs e)
    (mean_wind_dir_min0_obs e)
    (first_wind_date e) (last_wind_date e)
    (max_wind_speed_recorded e) (min_wind_speed_recorded e).

(** [stations_list], keyed by station: the rows before the DataFrame
    sorts them. *)
Definition stations_list (station_info : gmap string info) : gmap string row :=
  station_row <$> station_info.

(** [get_wind_stations_csv] up to the rows it hands to pandas. *)
Definition get_wind_stations_csv (get : wind_param -> Z -> response)
    (stations : station_response) : option (gmap string row) :=
  match collect get with
  | Some (station_info, _) => Some (stations_list (join stations station_info))
  | None => None
  end.

End Wind.

(** ** Combined_Heating_Data_2022-2025.py *)

Module Heating.

(** One request of [fetch_month_data]; [except Exception] catches any
    failure of it. *)
Inductive response (R : Type) :=
  | Failure
  | Records (records : list R).
Arguments Failure {R}.
Arguments Records {R}.

Definition limit : Z := 20000.

Section Loop.
Context {R : Type}.
Variable limit : Z.
Variable get : Z -> response R.

(** The [while True] of [fetch_month_data] (lines 34-67): there is
    no ceiling, so the fuel can run out ([None]). *)
Fixpoint fetch_loop (fuel : nat) (offset : Z) (all_records : list R)
    (issued : list Z) : option (run (list R)) :=
  match fuel with
  | O => None
  | S fuel =>
    match get offset with
    | Failure => Some (Run all_records (issued ++ [offset]) TransportError)
    | Records records =>
        match records with
        | [] => Some (Run all_records (issued ++ [offset]) EmptyPage)
        | _ :: _ =>
          let all_records := all_records ++ records in
          if Z.of_nat (length records) <? limit then
            Some (Run all_records (issued ++ [offset]) ShortPage)
          else fetch_loop fuel (offset + limit) all_records (issued ++ [offset])
        end
    end
  end.
End Loop.

(** [fetch_month_data(year, month)]; [get] is the request for that
    month at an offset. *)
Definition fetch_month_data {R} (get : Z -> response R) (fuel : nat)
    : option (run (list R)) :=
  fetch_loop limit get fuel 0 [] [].

End Heating.

(** ** sunlight.py *)

(** A [for] loop whose body can raise an exception nothing catches:
    [None] is the exception leaving the loop. *)
Fixpoint for_each {S A : Type} (body : S -> A -> option S) (l : list A) (s : S)
    : option S :=
  match l with
  | [] => Some s
  | a :: l =>
      match body s a with
      | Some s => for_each body l s
      | None => None
      end
  end.

Module Sunlight.

(** The per-station dict; the factory gives it the key ['name'] only,
    the join adds the other metadata keys to [meta]. *)
Record info := Info {
  stationId : option string;
  meta : gmap string (option string);
  latitude : option Z;
  longitude : option Z;
  measures_sunshine : bool;
  measures_radiation : bool;
  sunshine_observations : Z;
  radiation_observations : Z;
  first_sunshine_date : option string;
  last_sunshine_date : option string;
  first_radiation_date : option string;
  last_radiation_date : option string
}.

Definition default_info : info :=
  Info None (<["name" := None]> ∅) None None false false 0 0 None None None None.

Definition getitem (station_info : gmap string info) (station_id : string) : info :=
  default default_info (station_info !! station_id).

(** [props = feature['properties']],
    [coords = feature['geometry']['coordinates']],
    [station_id = props['stationId']]: a missing key raises. *)
Definition read (f : feature) : option (properties * list Z * string) :=
  match feat_properties f, feat_coordinates f with
  | Some props, Some coords =>
      match prop_stationId props with
      | Some station_id => Some (props, coords, station_id)
      | None => None
      end
  | _, _ => None
  end.

Definition sunshine_dates (from_date : option string) (e : info) : info :=
  match from_date with
  | Some d =>
      if bool_decide (d = "") then e
      else Info (stationId e) (meta e) (latitude e) (longitude e)
             (measures_sunshine e) (measures_radiation e)
             (sunshine_observations e) (radiation_observations e)
             (earliest d (first_sunshine_date e)) (latest d (last_sunshine_date e))
             (first_radiation_date e) (last_radiation_date e)
  | None => e
  end.

Definition radiation_dates (from_date : option string) (e : info) : info :=
  match from_date with
  | Some d =>
      if bool_decide (d = "") then e
      else Info (stationId e) (meta e) (latitude e) (longitude e)
             (measures_sunshine e) (measures_radiation e)
             (sunshine_observations e) (radiation_observations e)
             (first_sunshine_date e) (last_sunshine_date e)
             (earliest d (first_radiation_date e)) (latest d (last_radiation_date e))
  | None => e
  end.

(** Lines 46-69. *)
Definition sunshine_feature (station_info : gmap string info) (f : feature)
    : option (gmap string info) :=
  match read f with
  | Some (props, coords, station_id) =>
      match lat_lon coords with
      | Some (lat, lon) =>
          let e := getitem station_info station_id in
          let e := Info (Some station_id) (meta e) (Some lat) (Some lon)
                     true (measures_radiation e)
                     (sunshine_observations e) (radiation_observations e)
                     (first_sunshine_date e) (last_sunshine_date e)
                     (first_radiation_date e) (last_radiation_date e) in
          let e := sunshine_dates (prop_from props) e in
          Some (<[station_id :=
                   Info (stationId e) (meta e) (latitude e) (longitude e)
                     (measures_sunshine e) (measures_radiation e)
                     (sunshine_observations e + 1) (radiation_observations e)
                     (first_sunshine_date e) (last_sunshine_date e)
                     (first_radiation_date e) (last_radiation_date e)]> station_info)
      | None => None
      end
  | None => None
  end.

(** Lines 92-117. *)
Definition radiation_feature (station_info : gmap string info) (f : feature)
    : option (gmap string info) :=
  match read f with
  | Some (props, coords, station_id) =>
      let located :=
        match station_info !! station_id with
        | Some e => Some e
        | None =>
            match lat_lon coords with
            | Some (lat, lon) =>
                let e := default_info in
                Some (Info (Some station_id) (meta e) (Some lat) (Some lon)
                        (measures_sunshine e) (measures_radiation e)
                        (sunshine_observations e) (radiation_observations e)
                        (first_sunshine_date e) (last_sunshine_date e)
                        (first_radiation_date e) (last_radiation_date e))
            | None => None
            end
        end in
      match located with
      | Some e =>
          let e := radiation_dates (prop_from props)
                     (Info (stationId e) (meta e) (latitude e) (longitude e)
                        (measures_sunshine e) true
                        (sunshine_observations e) (radiation_observations e)
                        (first_sunshine_date e) (last_sunshine_date e)
                        (first_radiation_date e) (last_radiation_date e)) in
          Some (<[station_id :=
                   Info (stationId e) (meta e) (latitude e) (longitude e)
                     (measures_sunshine e) (measures_radiation e)
                     (sunshine_observations e) (radiation_observations e + 1)
                     (first_sunshine_date e) (last_sunshine_date e)
                     (first_radiation_date e) (last_radiation_date e)]> station_info)
      | None => None
      end
  | None => None
  end.

(** Lines 140-149: [props['stationId']] raises when the key is
    missing. *)
Definition join_station (station_info : gmap string info)
    (props : gmap string (option string)) : option (gmap string info) :=
  match props !! "stationId" with
  | Some sid =>
      match sid with
      | Some station_id =>
          match station_info !! station_id with
          | Some e =>
              Some (<[station_id :=
                       Info (stationId e) (Wind.details props (meta e))
                         (latitude e) (longitude e)
                         (measures_sunshine e) (measures_radiation e)
                         (sunshine_observations e) (radiation_observations e)
                         (first_sunshine_date e) (last_sunshine_date e)
                         (first_radiation_date e) (last_radiation_date e)]> station_info)
          | None => Some station_info
          end
      | None => Some station_info
      end
  | None => None
  end.

(** The metadata columns of a row of [stations_list] (lines 163-170);
    the other columns copy fields of the entry. *)
Record row := Row {
  station_id : option string;
  name : option string;
  country : option string;
  status : option string;
  valid_from : option string;
  valid_to : option string;
  summary : info
}.

Definition station_row (e : info) : row :=
  Row (stationId e)
    (dict_get (meta e) "name" (Some "Unknown"))
    (dict_get (meta e) "country" (Some "Unknown"))
    (dict_get (meta e) "status" (Some "Unknown"))
    (dict_get (meta e) "validFrom" None)
    (dict_get (meta e) "validTo" None)
    e.

(** How a call of [get_sunlight_stations_csv] ends. *)
Inductive result :=
  | Uncaught                               (* an exception leaves the function *)
  | ReturnedFalse                          (* [return False] *)
  | Exported (rows : gmap string row).     (* the CSV is written, [return True] *)

(** [get_sunlight_stations_csv]: one request per parameter, no
    pagination, then the join and the rows. *)
Definition get_sunlight_stations_csv (sunshine radiation : response)
    (stations : station_response) : result :=
  match sunshine with
  | RequestException => ReturnedFalse
  | Features sunshine_features =>
    match for_each sunshine_feature sunshine_features ∅ with
    | None => Uncaught
    | Some station_info =>
      match radiation with
      | RequestException => ReturnedFalse
      | Features radiation_features =>
        match for_each radiation_feature radiation_features station_info with
        | None => Uncaught
        | Some station_info =>
          match stations with
          | StationRequestException => Exported (station_row <$> station_info)
          | StationFeatures features =>
              match for_each join_station features station_info with
              | Some station_info => Exported (station_row <$> station_info)
              | None => Uncaught
              end
          end
        end
      end
    end
  end.

End Sunlight.

(** ** dmi_wind_collection.py and dmi_sunlight_collection.py

    The two yearly collection scripts are the same code up to the station
    table, the parameter requested and the name of the value column. *)

Module Collection.

(** What [requests.get] gives [fetch_station_month]. *)
Inductive api_response :=
  | Ok200 (features : list feature)
  | ApiError (status_code : Z)
  | NetworkError.

(** [fetch_station_month(station_id, year, month)]: the features, or
    [[]] on a status other than 200 and on an exception. *)
Definition fetch_station_month (get : string -> Z -> Z -> api_response)
    (station_id : string) (year month : Z) : list feature :=
  match get station_id year month with
  | Ok200 features => features
  | ApiError _ => []
  | NetworkError => []
  end.

(** One dict appended to [all_data]; [measurement] is the column
    ["mean_wind_speed"], respectively ["bright_sunshine"]. *)
Record record := Record_ {
  timeObserved : option string;
  stationId : string;
  stationName : string;
  measurement : option Z
}.

(** The body of [for feature in features];
    [feature["properties"]] raises when the key is missing. *)
Definition add_feature (station_id station_name : string)
    (all_data : list record) (f : feature) : option (list record) :=
  match feat_properties f with
  | Some props =>
      let value := prop_value props in
      match value with
      | Some _ =>
          Some (all_data ++ [Record_ (prop_from props) station_id station_name value])
      | None => Some all_data
      end
  | None => None
  end.

Section Collect.
Variable get : string -> Z -> Z -> api_response.
Variable year : Z.

(** The body of [for month in range(1, 13)]. *)
Definition collect_month (station_id station_name : string)
    (all_data : list record) (month : Z) : option (list record) :=
  for_each (add_feature station_id station_name)
    (fetch_station_month get station_id year month) all_data.

(** The body of [for station_id, station_name in STATIONS.items()]. *)
Definition collect_station (all_data : list record) (station : string * string)
    : option (list record) :=
  for_each (collect_month (fst station) (snd station)) (seqZ 1 12) all_data.

Definition collect (stations : list (string * string)) : option (list record) :=
  for_each collect_station stations [].
End Collect.
Definition WIND_STATIONS : list (string * string) :=
  [("06154", "Brandelev");
   ("06068", "Isenvad");
   ("06082", "Borris");
   ("06180", "Københavns Lufthavn");
   ("06110", "Flyvestation Skrydstrup");
   ("06120", "Odense Lufthavn");
   ("06072", "Ødum");
   ("06031", "Tylstrup");
   ("06060", "Flyvestation Karup");
   ("06181", "Jægersborg");
   ("06193", "Hammer Odde Fyr");
   ("06188", "Sjælsmark");
   ("06096", "Rømø/Juvre");
   ("06108", "Kolding Lufthavn");
   ("06069", "Foulum");
   ("06147", "Vindebæk Kyst");
   ("06074", "Århus Syd");
   ("06124", "Sydfyns Flyveplads");
   ("06093", "Vester Vedsted");
   ("06079", "Anholt Havn");
   ("06058", "Hvide Sande");
   ("06056", "Mejrup");
   ("06116", "Store Jyndevad");
   ("06118", "Sønderborg Lufthavn");
   ("06081", "Blåvandshuk Fyr");
   ("06138", "Langø");
   ("06169", "Gniben");
   ("06080", "Esbjerg Lufthavn");
   ("06159", "Røsnæs Fyr");
   ("06032", "Stenhøj");
   ("06136", "Tystofte");
   ("06168", "Nakkehoved Fyr");
   ("06119", "Kegnæs Fyr");
   ("06104", "Billund Lufthavn");
   ("06041", "Skagen Fyr");
   ("06151", "Omø Fyr");
   ("06174", "Tessebølle");
   ("06123", "Assens/Torø");
   ("06013", "Klaksvik Heliport");
   ("06135", "Flakkebjerg");
   ("06141", "Abed");
   ("06065", "Års Syd");
   ("06197", "Nexø Vest");
   ("06073", "Sletterhage Fyr");
   ("06049", "Hald Vest");
   ("06052", "Thyborøn");
   ("06149", "Gedser");
   ("06126", "Årslev");
   ("06170", "Roskilde Lufthavn");
   ("06132", "Tranebjerg Øst");
   ("06156", "Holbæk");
   ("06109", "Askov");
   ("06070", "Århus Lufthavn");
   ("06030", "Flyvestation Ålborg");
   ("06102", "Horsens/Bygholm");
   ("06019", "Silstrup");
   ("06190", "Bornholms Lufthavn")]%string.

Definition SUNSHINE_STATIONS : list (string * string) :=
  [("06019", "Silstrup");
   ("06031", "Tylstrup");
   ("06041", "Skagen Fyr");
   ("06056", "Mejrup");
   ("06058", "Hvide Sande");
   ("06065", "Års Syd");
   ("06068", "Isenvad");
   ("06069", "Foulum");
   ("06072", "Ødum");
   ("06079", "Anholt Havn");
   ("06082", "Borris");
   ("06096", "Rømø/Juvre");
   ("06102", "Horsens/Bygholm");
   ("06109", "Askov");
   ("06116", "Store Jyndevad");
   ("06123", "Assens/Torø");
   ("06126", "Årslev");
   ("06132", "Tranebjerg Øst");
   ("06135", "Flakkebjerg");
   ("06136", "Tystofte");
   ("06141", "Abed");
   ("06149", "Gedser");
   ("06156", "Holbæk");
   ("06174", "Tessebølle");
   ("06187", "Københavns Toldbod");
   ("06188", "Sjælsmark");
   ("06193", "Hammer Odde Fyr");
   ("06197", "Nexø Vest")]%string.

(** [collect_wind_data(year)] *)
Definition collect_wind_data (get : string -> Z -> Z -> api_response) (year : Z)
    : option (list record) :=
  collect get year WIND_STATIONS.

(** [collect_sunshine_data(year)] *)
Definition collect_sunshine_data (get : string -> Z -> Z -> api_response) (year : Z)
    : option (list record) :=
  collect get year SUNSHINE_STATIONS.

End Collection.

(** ** Combined_Heating_Data_2022-2025.py, month by month

    The requests of [fetch_month_data] are made for the bounds of a
    month; [fetch_all_years_combined] calls it for every month of the
    years of the script and saves what it gets with [save_to_csv]. *)

Module Combined.

Definition START_YEAR : Z := 2022.
Definition END_YEAR : Z := 2025.
Definition DESKTOP_PATH : string := "/Users/asn-mac/Desktop".

(** [f"{n:02d}"] *)
Definition two_digits (n : Z) : string :=
  if decide (0 <= n < 10) then "0" +:+ pretty n else pretty n.

(** [f"{year}-{month:02d}-01T00:00"] *)
Definition first_of_month (year month : Z) : string :=
  pretty year +:+ "-" +:+ two_digits month +:+ "-01T00:00".

(** Lines 18-26 of [fetch_month_data]: [(start, end)]. *)
Definition month_bounds (year month : Z) : string * string :=
  let '(next_month, next_year) :=
    if month =? 12 then (1, year + 1) else (month + 1, year) in
  (first_of_month year month, first_of_month next_year next_month).

(** The [(year, month)] pairs of the two [for] loops of
    [fetch_all_years_combined] (lines 82-88), in order. *)
Definition months (start_year end_year : Z) : list (Z * Z) :=
  year ← seqZ start_year (end_year + 1 - start_year);
  let start_month := if year =? 2022 then 9 else 1 in
  (fun month => (year, month)) <$> seqZ start_month (13 - start_month).

(** How a call that may not return ends. *)
Inductive ending (A : Type) :=
  | Returned (a : A)
  | Raised                    (* an exception leaves the function *)
  | Unfinished.               (* the fuel of a [while True] ran out *)
Arguments Returned {A}.
Arguments Raised {A}.
Arguments Unfinished {A}.

Section Records.
Context {V : Type}.

(** One element of [data["records"]]: a JSON object. *)
Definition record : Type := gmap string V.

(** What [save_to_csv] leaves in the file: the header line and the
    rows, a cell being [None] where the writer puts its [restval], the
    empty string. *)
Record csv := Csv {
  header : list string;
  rows : list (list (option V))
}.

(** [writer.writerow(rec)] of a [csv.DictWriter] with the default
    [extrasaction='raise']: a key of [rec] that is not a field name
    raises [ValueError] ([None]); a field [rec] lacks is written as
    [restval]. *)
Definition writerow (fieldnames : list string) (rec : record)
    : option (list (option V)) :=
  if decide (dom rec ⊆ list_to_set fieldnames)
  then Some ((fun k => rec !! k) <$> fieldnames)
  else None.

(** How a call of [save_to_csv] ends. *)
Inductive saved :=
  | NoData                    (* [if not records: ... return] *)
  | Written (file : csv)      (* every record was written *)
  | Broken (file : csv).      (* [writerow] raised after the rows of [file] *)

(** The [for rec in records] of [save_to_csv] (lines 125-126). *)
Fixpoint writerows (fieldnames : list string) (records : list record)
    (written : list (list (option V))) : saved :=
  match records with
  | [] => Written (Csv fieldnames written)
  | rec :: records =>
      match writerow fieldnames rec with
      | Some row => writerows fieldnames records (written ++ [row])
      | None => Broken (Csv fieldnames written)
      end
  end.

(** [save_to_csv(records, filename)] (lines 114-128), up to the name
    of the file. *)
Definition save_to_csv (records : list record) : saved :=
  match records with
  | [] => NoData
  | first :: _ =>
      let keys := merge_sort String.le (elements (dom first)) in
      writerows keys records []
  end.

(** The state of [fetch_all_years_combined], with the files its calls
    of [save_to_csv] wrote, by name. *)
Record progress := Progress {
  all_combined_records : list record;
  total_months_processed : Z;
  successful_months : Z;
  files : list (string * csv)
}.

Section Years.
(** The requests of a month, by its bounds and the offset. *)
Variable get : string -> string -> Z -> Heating.response record.
Variable fuel : nat.

(** [fetch_month_data(year, month)] with its bounds. *)
Definition fetch_month_data (year month : Z) : option (run (list record)) :=
  let '(start, end_) := month_bounds year month in
  Heating.fetch_month_data (get start end_) fuel.

(** [f"{DESKTOP_PATH}/heating_consumption_{year}_{month:02d}.csv"] *)
Definition month_filename (year month : Z) : string :=
  DESKTOP_PATH +:+ "/heating_consumption_" +:+ pretty year +:+ "_"
    +:+ two_digits month +:+ ".csv".

(** The body of the inner [for] (lines 89-102). *)
Definition month_step (s : progress) (year month : Z) : ending progress :=
  match fetch_month_data year month with
  | None => Unfinished
  | Some r =>
      let month_records := store r in
      match month_records with
      | [] =>
          Returned (Progress (all_combined_records s) (total_months_processed s + 1)
                      (successful_months s) (files s))
      | _ :: _ =>
          match save_to_csv month_records with
          | Broken _ => Raised
          | Written file =>
              Returned (Progress (all_combined_records s ++ month_records)
                          (total_months_processed s + 1) (successful_months s + 1)
                          (files s ++ [(month_filename year month, file)]))
          | NoData =>
              Returned (Progress (all_combined_records s ++ month_records)
                          (total_months_processed s + 1) (successful_months s + 1)
                          (files s))
          end
      end
  end.

Fixpoint for_months (l : list (Z * Z)) (s : progress) : ending progress :=
  match l with
  | [] => Returned s
  | (year, month) :: l =>
      match month_step s year month with
      | Returned s => for_months l s
      | Raised => Raised
      | Unfinished => Unfinished
      end
  end.

(** [fetch_all_years_combined()] (lines 74-111). *)
Definition fetch_all_years_combined : ending progress :=
  for_months (months START_YEAR END_YEAR) (Progress [] 0 0 []).

End Years.
End Records.

End Combined.

(** * Vocabulary of the statements *)

(** The upstream serves [pages], one per request, at the offsets
    [offset], [offset + limit], ...; [ok] wraps a page in the response
    of the endpoint. *)
Fixpoint served {A Resp : Type} (ok : list A -> Resp) (get : Z -> Resp)
    (limit offset : Z) (pages : list (list A)) : Prop :=
  match pages with
  | [] => True
  | p :: pages => get offset = ok p /\ served ok get limit (offset + limit) pages
  end.

(** The offsets [0], [limit], ..., [(n - 1) * limit]. *)
Definition offsets (limit : Z) (n : nat) : list Z :=
  (fun i : nat => Z.of_nat i * limit) <$> seq 0 n.

(** A page with exactly [limit] records. *)
Definition full {A : Type} (limit : Z) (page : list A) : Prop :=
  Z.of_nat (length page) = limit.

(** [ceil (a / b)] for a positive [b]. *)
Definition ceil_div (a b : Z) : Z := (a + b - 1) / b.

(** The scenario of the specification: an observation that carries a
    station and a value only, two pages of them, and an upstream that
    serves the two pages for a page size of 2. *)
Definition observation (station : string) (value : Z) : feature :=
  Feature (Some (Properties (Some station) None (Some value))) None.

Definition page_1 : list feature :=
  [observation "stationA" 5; observation "stationB" 2].

Definition page_2 : list feature := [observation "stationA" 9].

Definition two_pages (offset : Z) : response :=
  if offset =? 0 then Features page_1
  else if offset =? 2 then Features page_2
  else Features [].

(** An upstream that holds 1,200,001 observations of one station: four
    pages of 300,000 and a page of one. *)
Definition full_page : list feature :=
  repeat (observation "06154" 0) (Z.to_nat 300000).

Definition five_pages (offset : Z) : response :=
  if offset <? 1200000 then Features full_page
  else Features [observation "06154" 0].

(** An upstream of [fetch_month_data] that never runs short: every
    request is answered with 20,000 records. *)
Definition endless (offset : Z) : Heating.response (list (string * string)) :=
  Heating.Records (repeat [("HourDK", "2022-09-01T00:00:00")] (Z.to_nat 20000)).

(** A sunshine observation of station 06019 with its geometry. *)
Definition sunshine_06019 : feature :=
  Feature (Some (Properties (Some "06019") (Some "2020-06-01T00:00:00Z") (Some 7)))
          (Some [8; 57]).

(** A feature whose geometry, when it has one, has both coordinates:
    the only features on which [coords[1]] can raise are those with a
    one-element array. *)
Definition well_formed (f : feature) : bool :=
  match feat_coordinates f with
  | Some [_] => false
  | _ => true
  end.

(** The feature that carries an observation of a station: its date, its
    value and its position [(latitude, longitude)], each optional. *)
Definition reading (station : string) (from_date : option string)
    (value : option Z) (position : option (Z * Z)) : feature :=
  Feature (Some (Properties (Some station) from_date value))
          ((fun c => [snd c; fst c]) <$> position).

(** The value a feature carries: [None] for a null (or absent) value. *)
Definition value_of (f : feature) : option Z :=
  match feat_properties f with
  | Some props => prop_value props
  | None => None
  end.

(** Every feature a yearly collection receives, in the order of its
    loops: station by station, month by month. *)
Definition fetched (get : string -> Z -> Z -> Collection.api_response) (year : Z)
    (stations : list (string * string)) : list feature :=
  concat ((fun station =>
             concat ((fun month =>
                        Collection.fetch_station_month get (fst station) year month)
                     <$> seqZ 1 12))
          <$> stations).

(** An upstream of the yearly collections that holds two observations,
    one of them without a value, for station 06154 in January, and fails
    for every other request. *)
Definition january_06154 (station_id : string) (year month : Z)
    : Collection.api_response :=
  if bool_decide (station_id = "06154") && (month =? 1) then
    Collection.Ok200
      [reading "06154" (Some "2020-01-01T00:00:00Z") (Some 4) None;
       reading "06154" (Some "2020-01-01T01:00:00Z") None None]
  else Collection.NetworkError.

(** An upstream of wind.py that holds one observation, of station 06154
    for the mean wind speed, and nothing else. *)
Definition one_wind_observation (p : Wind.wind_param) (offset : Z) : response :=
  match p with
  | Wind.mean_wind_speed =>
      if offset =? 0 then
        Features [reading "06154" (Some "2020-01-01T00:00:00Z") (Some 6) (Some (55, 12))]
      else Features []
  | _ => Features []
  end.

(** The details of another station, as the station endpoint gives them. *)
Definition details_06019 : gmap string (option string) :=
  <["stationId" := Some "06019"]> (<["name" := Some "Silstrup"]>
    (<["country" := Some "DNK"]> (<["status" := Some "Active"]> ∅))).

(** The details of station 06154. *)
Definition details_06154 : gmap string (option string) :=
  <["stationId" := Some "06154"]> (<["name" := Some "Brandelev"]>
    (<["country" := Some "DNK"]> (<["status" := Some "Active"]>
      (<["validFrom" := Some "2001-01-01T00:00:00Z"]> (<["validTo" := None]> ∅))))).

(** ** What a feature says about a station *)

(** The station of a feature; [None] when the loops skip the feature at
    once (no properties, or no station id). *)
Definition station_of (f : feature) : option string :=
  match feat_properties f with
  | Some props => prop_stationId props
  | None => None
  end.

(** The date of a feature: its ['from'] field when it is truthy. *)
Definition date_of (f : feature) : option string :=
  match feat_properties f with
  | Some props =>
      match prop_from props with
      | Some d => if bool_decide (d = "") then None else Some d
      | None => None
      end
  | None => None
  end.

(** The position [(latitude, longitude)] of a feature that carries a
    geometry with both coordinates. *)
Definition position_of (f : feature) : option (Z * Z) :=
  match coords_of f with
  | Some c => lat_lon c
  | None => None
  end.

(** The features of a station, in order. *)
Definition of_station (station_id : string) (fs : list feature) : list feature :=
  filter (fun f => station_of f = Some station_id) fs.

(** The dates of the features of a station, in order. *)
Definition dates_of (station_id : string) (fs : list feature) : list string :=
  omap date_of (of_station station_id fs).

(** The position of the first feature of a station that carries one. *)
Definition first_position (station_id : string) (fs : list feature) : option (Z * Z) :=
  head (omap position_of (of_station station_id fs)).

(** ** The skeleton the station scripts share

    [fold_one] is the body of the [for] over a page with the script's
    factory value, its lines that place the station and the rest of its
    body left open; [Precipitation.process_feature] and
    [Wind.process_feature] are instances of it
    ([precipitation_is_fold_one], [wind_is_fold_one]). *)
Section Skeleton.
Context {info A : Type}.
Variable default_info : info.
Variable locate : string -> option (list Z) -> info -> option info.
Variable track : A -> properties -> info -> info.
Variable feature_of : A -> feature.

Definition fold_one (st : gmap string info) (a : A) : gmap string info :=
  match feat_properties (feature_of a) with
  | None => st
  | Some props =>
    match prop_stationId props with
    | None => st
    | Some station_id =>
      let e := default default_info (st !! station_id) in
      match locate station_id (coords_of (feature_of a)) e with
      | None => <[station_id := e]> st
      | Some e => <[station_id := track a props e]> st
      end
    end
  end.
End Skeleton.

(** The part of an entry the placing lines read and write. *)
Record place := Place {
  place_station : option string;
  place_latitude : option Z;
  place_longitude : option Z
}.

(** The placing lines of the two scripts, on that part alone. *)
Definition locate_place (station_id : string) (coords : option (list Z)) (pl : place)
    : option place :=
  match place_station pl with
  | None =>
      match coords with
      | None => Some (Place (Some station_id) None None)
      | Some c =>
          match lat_lon c with
          | Some (lat, lon) => Some (Place (Some station_id) (Some lat) (Some lon))
          | None => None
          end
      end
  | Some _ =>
      match coords, place_latitude pl with
      | Some c, None =>
          match lat_lon c with
          | Some (lat, lon) => Some (Place (place_station pl) (Some lat) (Some lon))
          | None => None
          end
      | _, _ => Some pl
      end
  end.

(** What a feature of the station does to the place of its entry: a
    feature on which the placing lines raise leaves it as it is. *)
Definition place_step (station_id : string) (pl : place) (f : feature) : place :=
  default pl (locate_place station_id (coords_of f) pl).

(** The date lines of the scripts, on the pair (first date, last date). *)
Definition seen (from_date : option string) (dates : option string * option string)
    : option string * option string :=
  match from_date with
  | Some d =>
      if bool_decide (d = "") then dates
      else (earliest d (fst dates), latest d (snd dates))
  | None => dates
  end.

Definition precipitation_place (e : Precipitation.info) : place :=
  Place (Precipitation.stationId e) (Precipitation.latitude e) (Precipitation.longitude e).

Definition precipitation_dates (e : Precipitation.info) : option string * option string :=
  (Precipitation.first_precipitation_date e, Precipitation.last_precipitation_date e).

Definition wind_place (e : Wind.info) : place :=
  Place (Wind.stationId e) (Wind.latitude e) (Wind.longitude e).

Definition wind_dates (e : Wind.info) : option string * option string :=
  (Wind.first_wind_date e, Wind.last_wind_date e).

(** The passes of wind.py over a list of features tagged with the
    parameter they were requested for. *)
Definition wind_fold (tagged : list (Wind.wind_param * feature))
    (st : gmap string Wind.info) : gmap string Wind.info :=
  fold_left (fun st pf => Wind.process_feature (fst pf) st (snd pf)) tagged st.

(** The places the scripts can reach: an entry without a station id has
    no coordinates, and the coordinates are set together. *)
Definition coherent (pl : place) : Prop :=
  (place_station pl = None -> place_latitude pl = None) /\
  (place_latitude pl = None -> place_longitude pl = None).

(** ** Vocabulary of the merge policy of wind.py *)

(** An entry without its coordinates, and without its station id as
    well. *)
Definition forget_position (e : Wind.info) : Wind.info :=
  Wind.set_place (Wind.stationId e) None None e.

Definition wind_rest (e : Wind.info) : Wind.info :=
  Wind.set_place None None None e.

(** What a tagged feature does to the rest of the entry of its station. *)
Definition wind_act (r : Wind.info) (pf : Wind.wind_param * feature) : Wind.info :=
  match feat_properties (snd pf) with
  | Some props => Wind.track (fst pf) props r
  | None => r
  end.

(** Observation sources: pages, each with the parameter it was requested
    for, processed in the order of the list. *)
Definition wind_sources (sources : list (Wind.wind_param * list feature))
    (st : gmap string Wind.info) : gmap string Wind.info :=
  fold_left (fun st s => Wind.process_features (fst s) (snd s) st) sources st.

Definition tagged_features (sources : list (Wind.wind_param * list feature))
    : list (Wind.wind_param * feature) :=
  concat ((fun s : Wind.wind_param * list feature =>
             (fun f : feature => (fst s, f)) <$> snd s) <$> sources).

(** [new] widens [old]: counters and parameter flags only grow, the
    minimum and the first date only go down, the maximum and the last
    date only go up. *)
Definition below (old new : option Z) : Prop :=
  forall m, old = Some m -> exists m', new = Some m' /\ m' <= m.

Definition above (old new : option Z) : Prop :=
  forall m, old = Some m -> exists m', new = Some m' /\ m <= m'.

Definition not_after (old new : option string) : Prop :=
  forall d, old = Some d -> d <> "" ->
    exists d', new = Some d' /\ d' <> "" /\ String.le d' d.

Definition not_before (old new : option string) : Prop :=
  forall d, old = Some d -> d <> "" ->
    exists d', new = Some d' /\ d' <> "" /\ String.le d d'.

Definition widens (old new : Wind.info) : Prop :=
  Wind.total_wind_observations old <= Wind.total_wind_observations new /\
  Wind.mean_wind_speed_obs old <= Wind.mean_wind_speed_obs new /\
  Wind.max_wind_speed_3sec_obs old <= Wind.max_wind_speed_3sec_obs new /\
  Wind.max_wind_speed_10min_obs old <= Wind.max_wind_speed_10min_obs new /\
  Wind.mean_wind_dir_obs old <= Wind.mean_wind_dir_obs new /\
  Wind.mean_wind_dir_min0_obs old <= Wind.mean_wind_dir_min0_obs new /\
  Wind.wind_parameters_seen old ⊆ Wind.wind_parameters_seen new /\
  below (Wind.min_wind_speed_recorded old) (Wind.min_wind_speed_recorded new) /\
  above (Wind.max_wind_speed_recorded old) (Wind.max_wind_speed_recorded new) /\
  not_after (Wind.first_wind_date old) (Wind.first_wind_date new) /\
  not_before (Wind.last_wind_date old) (Wind.last_wind_date new).

(** Two pages of one station that disagree on where it is. *)
Definition speed_page : Wind.wind_param * list feature :=
  (Wind.mean_wind_speed,
   [reading "06154" (Some "2020-01-01T00:00:00Z") (Some 5) (Some (55, 12))]).

Definition direction_page : Wind.wind_param * list feature :=
  (Wind.mean_wind_dir,
   [reading "06154" (Some "2021-01-01T00:00:00Z") (Some 180) (Some (56, 13))]).

(** The features of a station that the loop folds, in order: those on
    which the placing lines do not raise, [pl] being the place of the
    entry when the list starts. *)
Fixpoint folded (station_id : string) (pl : place) (fs : list feature) : list feature :=
  match fs with
  | [] => []
  | f :: fs =>
      if decide (station_of f = Some station_id) then
        match locate_place station_id (coords_of f) pl with
        | Some pl' => f :: folded station_id pl' fs
        | None => folded station_id pl fs
        end
      else folded station_id pl fs
  end.

(** The dates of the features of a station that a run from the empty
    mapping folds. *)
Definition folded_dates (station_id : string) (fs : list feature) : list string :=
  omap date_of (folded station_id (Place None None None) fs).

(** A feature whose geometry has one coordinate only. *)
Definition one_coordinate : feature :=
  Feature (Some (Properties (Some "06154") (Some "2020-01-02T00:00:00Z") (Some 3)))
          (Some [12]).

(** ** Vocabulary of the runs, for any upstream *)

(** The non-empty pages an upstream serves at a list of offsets. *)
Definition pages_read (get : Z -> response) (offs : list Z) : list (list feature) :=
  omap (fun o => match get o with
                 | Features (f :: fs) => Some (f :: fs)
                 | _ => None
                 end) offs.

(** The answer at [offset] makes the loop go on: a page that is not
    empty and has at least [limit] records. *)
Definition goes_on (limit : Z) (get : Z -> response) (offset : Z) : Prop :=
  exists page, get offset = Features page /\ page <> [] /\
               limit <= Z.of_nat (length page).

(** The answer at [offset] makes the loop stop with the exit [e]. *)
Definition stops_with (limit : Z) (get : Z -> response) (offset : Z) (e : exit) : Prop :=
  match e with
  | TransportError => get offset = RequestException
  | EmptyPage => get offset = Features []
  | ShortPage =>
      exists page, get offset = Features page /\ page <> [] /\
                   Z.of_nat (length page) < limit
  | CeilingReached => False
  end.

(** The same for the requests of [fetch_month_data]. *)
Definition records_read {R : Type} (get : Z -> Heating.response R) (offs : list Z)
    : list (list R) :=
  omap (fun o => match get o with
                 | Heating.Records (x :: xs) => Some (x :: xs)
                 | _ => None
                 end) offs.

Definition fetch_goes_on {R : Type} (limit : Z) (get : Z -> Heating.response R)
    (offset : Z) : Prop :=
  exists page, get offset = Heating.Records page /\ page <> [] /\
               limit <= Z.of_nat (length page).

(** A month answered with one page of two records. *)
Definition short_month : Z -> Heating.response Z :=
  fun offset => if offset =? 0 then Heating.Records [11; 12] else Heating.Records [].


(** ** Vocabulary of the statistics *)


(** [folded] on a list whose elements carry more than the feature: the
    elements of a station that the loop folds, in order. *)
Fixpoint folded_by {A : Type} (feature_of : A -> feature) (station_id : string)
    (pl : place) (l : list A) : list A :=
  match l with
  | [] => []
  | a :: l =>
      if decide (station_of (feature_of a) = Some station_id) then
        match locate_place station_id (coords_of (feature_of a)) pl with
        | Some pl' => a :: folded_by feature_of station_id pl' l
        | None => folded_by feature_of station_id pl l
        end
      else folded_by feature_of station_id pl l
  end.

(** The four statistics of an entry of precipitation.py: observations,
    sum, minimum and maximum; and what a folded feature does to them. *)
Definition precipitation_statistics (e : Precipitation.info)
    : Z * Z * option Z * option Z :=
  (Precipitation.precipitation_observations e,
   Precipitation.total_precipitation_sample e,
   Precipitation.min_precipitation e,
   Precipitation.max_precipitation e).

Definition note_value (s : Z * Z * option Z * option Z) (f : feature)
    : Z * Z * option Z * option Z :=
  let '(n, t, lo, hi) := s in
  match value_of f with
  | Some v => (n + 1, t + v, lower v lo, higher v hi)
  | None => (n + 1, t, lo, hi)
  end.


(** ** Vocabulary of the wind summary *)

(** The observation counter of a parameter, [f'{param_id}_obs']. *)
Definition wind_counter (p : Wind.wind_param) (e : Wind.info) : Z :=
  match p with
  | Wind.mean_wind_speed => Wind.mean_wind_speed_obs e
  | Wind.max_wind_speed_3sec => Wind.max_wind_speed_3sec_obs e
  | Wind.max_wind_speed_10min => Wind.max_wind_speed_10min_obs e
  | Wind.mean_wind_dir => Wind.mean_wind_dir_obs e
  | Wind.mean_wind_dir_min0 => Wind.mean_wind_dir_min0_obs e
  end.

(** The value of a tagged feature that enters the speed extremes: a
    non-null value requested for a speed parameter. *)
Definition speed_of (pf : Wind.wind_param * feature) : option Z :=
  if Wind.is_speed (fst pf) then value_of (snd pf) else None.

(** The sources a log of passes stands for: for each pass, its
    parameter and the records of the non-empty pages served at the
    offsets it requested. *)
Definition sources_of (get : Wind.wind_param -> Z -> response)
    (log : list (Wind.wind_param * list Z * exit))
    : list (Wind.wind_param * list feature) :=
  (fun entry : Wind.wind_param * list Z * exit =>
     (fst (fst entry), concat (pages_read (get (fst (fst entry))) (snd (fst entry)))))
  <$> log.

(** The counter column of a row for a parameter, and its flag. *)
Definition row_counter (p : Wind.wind_param) (r : Wind.row) : Z :=
  match p with
  | Wind.mean_wind_speed => Wind.mean_wind_speed_observations r
  | Wind.max_wind_speed_3sec => Wind.max_wind_speed_3sec_observations r
  | Wind.max_wind_speed_10min => Wind.max_wind_speed_10min_observations r
  | Wind.mean_wind_dir => Wind.mean_wind_dir_observations r
  | Wind.mean_wind_dir_min0 => Wind.mean_wind_dir_min0_observations r
  end.

Definition row_flag (p : Wind.wind_param) (r : Wind.row) : bool :=
  match p with
  | Wind.mean_wind_speed => Wind.measures_mean_wind_speed r
  | Wind.max_wind_speed_3sec => Wind.measures_max_wind_speed_3sec r
  | Wind.max_wind_speed_10min => Wind.measures_max_wind_speed_10min r
  | Wind.mean_wind_dir => Wind.measures_mean_wind_dir r
  | Wind.mean_wind_dir_min0 => Wind.measures_mean_wind_dir_min0 r
  end.


(** ** Vocabulary of sunlight.py *)


(** The position [(latitude, longitude)] of an entry that has both. *)
Definition sunlight_position (e : Sunlight.info) : option (Z * Z) :=
  match Sunlight.latitude e, Sunlight.longitude e with
  | Some lat, Some lon => Some (lat, lon)
  | _, _ => None
  end.

(** An entry without the metadata the join writes. *)
Definition sunlight_without_meta (e : Sunlight.info) : Sunlight.info :=
  Sunlight.Info (Sunlight.stationId e) ∅ (Sunlight.latitude e) (Sunlight.longitude e)
    (Sunlight.measures_sunshine e) (Sunlight.measures_radiation e)
    (Sunlight.sunshine_observations e) (Sunlight.radiation_observations e)
    (Sunlight.first_sunshine_date e) (Sunlight.last_sunshine_date e)
    (Sunlight.first_radiation_date e) (Sunlight.last_radiation_date e).



(** ** Vocabulary of the yearly collections *)

(** The record a feature gives for a station of the table: none when
    its value is null. *)
Definition record_of (station_id station_name : string) (f : feature)
    : option Collection.record :=
  match feat_properties f with
  | Some props =>
      match prop_value props with
      | Some v =>
          Some (Collection.Record_ (prop_from props) station_id station_name (Some v))
      | None => None
      end
  | None => None
  end.

(** The records of everything a yearly collection receives, station by
    station in the order of the table, month by month. *)
Definition records_of (get : string -> Z -> Z -> Collection.api_response) (year : Z)
    (stations : list (string * string)) : list Collection.record :=
  concat ((fun station : string * string =>
             omap (record_of (fst station) (snd station))
               (concat ((fun month =>
                           Collection.fetch_station_month get (fst station) year month)
                        <$> seqZ 1 12)))
          <$> stations).


(** ** Vocabulary of the months *)

(** The month after a month [(year, month)]. *)
Definition month_after (ym : Z * Z) : Z * Z :=
  if snd ym =? 12 then (fst ym + 1, 1) else (fst ym, snd ym + 1).

(** Every element of the list is followed by the month after it. *)
Fixpoint consecutive (l : list (Z * Z)) : Prop :=
  match l with
  | a :: (b :: _) as l => b = month_after a /\ consecutive l
  | _ => True
  end.

(** The months of one year of [fetch_all_years_combined]. *)
Definition months_of_year (year : Z) : list (Z * Z) :=
  (fun month => (year, month)) <$>
    seqZ (if year =? 2022 then 9 else 1) (13 - (if year =? 2022 then 9 else 1)).


(** ** Vocabulary of the files *)

(** The cells of a record under the columns of a header. *)
Definition cells {V : Type} (fieldnames : list string) (rec : @Combined.record V)
    : list (option V) :=
  (fun k => rec !! k) <$> fieldnames.

(** The records a month gives [fetch_all_years_combined]; none when
    the call for the month does not return. *)
Definition month_records {V : Type}
    (get : string -> string -> Z -> Heating.response (@Combined.record V))
    (fuel : nat) (ym : Z * Z) : list (@Combined.record V) :=
  default [] (store <$> Combined.fetch_month_data get fuel (fst ym) (snd ym)).

(** The file of a month, by name, when the month has records and they
    can all be written. *)
Definition month_file {V : Type}
    (get : string -> string -> Z -> Heating.response (@Combined.record V))
    (fuel : nat) (ym : Z * Z) : option (string * @Combined.csv V) :=
  match Combined.save_to_csv (month_records get fuel ym) with
  | Combined.Written file => Some (Combined.month_filename (fst ym) (snd ym), file)
  | _ => None
  end.

(** A heating record with one field, and a month served as one short
    page of it. *)
Definition hour_record : @Combined.record string :=
  <["HourDK" := "2022-09-01T00:00:00"]> ∅.

Definition one_hour_a_month (start end_ : string) (offset : Z)
    : Heating.response (@Combined.record string) :=
  Heating.Records [hour_record].


(** The two pairs of dates of an entry of sunlight.py, and what a
    feature does to a pair. *)
Definition sunshine_dates_of (e : Sunlight.info) : option string * option string :=
  (Sunlight.first_sunshine_date e, Sunlight.last_sunshine_date e).

Definition radiation_dates_of (e : Sunlight.info) : option string * option string :=
  (Sunlight.first_radiation_date e, Sunlight.last_radiation_date e).

Definition note_date (dates : option string * option string) (f : feature)
    : option string * option string :=
  match date_of f with
  | Some d => (earliest d (fst dates), latest d (snd dates))
  | None => dates
  end.


(** * Properties *)

Lemma served_app {A Resp : Type} (ok : list A -> Resp) get limit pages pages' :
  forall offset,
    served ok get limit offset (pages ++ pages') <->
    served ok get limit offset pages /\
    served ok get limit (offset + Z.of_nat (length pages) * limit) pages'.
Proof.
  induction pages as [|p pages IH]; intros offset.
  - simpl. rewrite Z.add_0_r. tauto.
  - change (served ok get limit offset ((p :: pages) ++ pages'))
      with (get offset = ok p /\ served ok get limit (offset + limit) (pages ++ pages')).
    change (served ok get limit offset (p :: pages))
      with (get offset = ok p /\ served ok get limit (offset + limit) pages).
    rewrite IH.
    replace (offset + limit + Z.of_nat (length pages) * limit)
      with (offset + Z.of_nat (length (p :: pages)) * limit)
      by (simpl length; lia).
    tauto.
Qed.

(** ** The pagination loop *)

Section PaginationFacts.
Context {Store : Type}.
Variable process_page : list feature -> Store -> Store.
Variables limit max_offset : Z.
Variable get : Z -> response.
Hypothesis limit_pos : 0 < limit.

Local Abbreviation paginate := (paginate process_page limit max_offset get).

Lemma paginate_more_fuel n m offset st issued r :
  paginate n offset st issued = Some r -> (n <= m)%nat ->
  paginate m offset st issued = Some r.
Proof.
  revert m offset st issued.
  induction n as [|n IH]; intros m offset st issued H Hle; [discriminate|].
  destruct m as [|m]; [lia|].
  simpl in *.
  destruct (offset <? max_offset); [|exact H].
  destruct (get offset) as [|features]; [exact H|].
  destruct features as [|f features]; [exact H|].
  destruct (Z.of_nat (length (f :: features)) <? limit); [exact H|].
  apply IH; [exact H|lia].
Qed.

(** One iteration on a full page. *)
Lemma paginate_full_page n offset st issued page :
  offset < max_offset -> get offset = Features page -> full limit page ->
  paginate (S n) offset st issued =
  paginate n (offset + limit) (process_page page st) (issued ++ [offset]).
Proof.
  intros Hlt Hget Hfull. unfold full in Hfull. simpl.
  apply Z.ltb_lt in Hlt. rewrite Hlt, Hget.
  destruct page as [|f page]; [simpl in Hfull; lia|].
  assert ((Z.of_nat (length (f :: page)) <? limit) = false) as ->
    by (apply Z.ltb_ge; lia).
  reflexivity.
Qed.

(** The loop over a run of full pages below the ceiling. *)
Lemma paginate_full_pages pages : forall n offset st issued,
  Forall (full limit) pages ->
  served Features get limit offset pages ->
  offset + (Z.of_nat (length pages) - 1) * limit < max_offset ->
  paginate (length pages + n) offset st issued =
  paginate n (offset + Z.of_nat (length pages) * limit)
    (fold_left (fun s p => process_page p s) pages st)
    (issued ++ ((fun i : nat => offset + Z.of_nat i * limit) <$> seq 0 (length pages))).
Proof.
  induction pages as [|p pages IH]; intros n offset st issued Hfull Hserved Hlt.
  - simpl. rewrite app_nil_r. f_equal. lia.
  - apply Forall_cons in Hfull as [Hp Hfull]. destruct Hserved as [Hget Hserved].
    change (length (p :: pages) + n)%nat with (S (length pages + n)).
    rewrite (paginate_full_page _ _ _ _ p); [|simpl length in Hlt; lia|exact Hget|exact Hp].
    rewrite IH; [|exact Hfull|exact Hserved|simpl length in Hlt; lia].
    simpl fold_left. f_equal.
    + simpl length. lia.
    + simpl length. rewrite <- app_assoc. f_equal. simpl. f_equal.
      * lia.
      * rewrite <- seq_shift, <- list_fmap_compose. apply list_fmap_ext.
        intros _ i _. simpl. lia.
Qed.

(** With a positive page size the ceiling bounds the iterations: the
    loop is left before [n + 1] units of fuel are used whenever
    [n * limit] covers the distance to the ceiling. *)
Lemma paginate_terminates n : forall offset st issued,
  max_offset - offset <= Z.of_nat n * limit ->
  exists r, paginate (S n) offset st issued = Some r.
Proof.
  induction n as [|n IH]; intros offset st issued Hn.
  - simpl. destruct (offset <? max_offset) eqn:Hlt; [apply Z.ltb_lt in Hlt; lia|].
    eauto.
  - remember (S n) as m. simpl.
    destruct (offset <? max_offset) eqn:Hlt; [|eauto].
    destruct (get offset) as [|features]; [eauto|].
    destruct features as [|f features]; [eauto|].
    destruct (Z.of_nat (length (f :: features)) <? limit); [eauto|].
    subst m. apply IH. lia.
Qed.

(** Every request is at a multiple of [limit] above the starting
    offset and below the ceiling. *)
Lemma paginate_requests n : forall offset st issued r,
  paginate n offset st issued = Some r ->
  exists k : nat,
    requests r = issued ++ ((fun i : nat => offset + Z.of_nat i * limit) <$> seq 0 k) /\
    (k = 0%nat \/ offset + (Z.of_nat k - 1) * limit < max_offset).
Proof.
  induction n as [|n IH]; intros offset st issued r H; [discriminate|].
  simpl in H.
  destruct (offset <? max_offset) eqn:Hlt.
  - apply Z.ltb_lt in Hlt.
    assert (forall e s, Some (Run s (issued ++ [offset]) e) = Some r ->
      exists k : nat,
        requests r = issued ++ ((fun i : nat => offset + Z.of_nat i * limit) <$> seq 0 k) /\
        (k = 0%nat \/ offset + (Z.of_nat k - 1) * limit < max_offset)) as Hone.
    { intros e s [= <-]. exists 1%nat. simpl. split; [do 3 f_equal; lia|right; lia]. }
    destruct (get offset) as [|features]; [eauto|].
    destruct features as [|f features]; [eauto|].
    destruct (Z.of_nat (length (f :: features)) <? limit); [eauto|].
    apply IH in H as (k & Hk & Hb). exists (S k). split.
    + rewrite Hk, <- app_assoc. f_equal. simpl. f_equal; [lia|].
      rewrite <- seq_shift, <- list_fmap_compose. apply list_fmap_ext.
      intros _ i _. simpl. lia.
    + right. destruct Hb as [->|Hb]; lia.
  - injection H as <-. exists 0%nat. simpl. rewrite app_nil_r. auto.
Qed.

Lemma aggregate_terminates st :
  exists r, aggregate process_page limit max_offset get st = Some r.
Proof. apply paginate_terminates. nia. Qed.

End PaginationFacts.

(** ** The loop of [fetch_month_data] *)

Section HeatingFacts.
Context {R : Type}.
Variable limit : Z.
Variable get : Z -> Heating.response R.
Hypothesis limit_pos : 0 < limit.

Local Abbreviation fetch_loop := (Heating.fetch_loop limit get).

Lemma fetch_loop_full_page n offset all_records issued page :
  get offset = Heating.Records page -> full limit page ->
  fetch_loop (S n) offset all_records issued =
  fetch_loop n (offset + limit) (all_records ++ page) (issued ++ [offset]).
Proof.
  intros Hget Hfull. unfold full in Hfull. simpl. rewrite Hget.
  destruct page as [|x page]; [simpl in Hfull; lia|].
  assert ((Z.of_nat (length (x :: page)) <? limit) = false) as ->
    by (apply Z.ltb_ge; lia).
  reflexivity.
Qed.

Lemma fetch_loop_full_pages pages : forall n offset all_records issued,
  Forall (full limit) pages ->
  served Heating.Records get limit offset pages ->
  fetch_loop (length pages + n) offset all_records issued =
  fetch_loop n (offset + Z.of_nat (length pages) * limit)
    (all_records ++ concat pages)
    (issued ++ ((fun i : nat => offset + Z.of_nat i * limit) <$> seq 0 (length pages))).
Proof.
  induction pages as [|p pages IH]; intros n offset all_records issued Hfull Hserved.
  - simpl. rewrite !app_nil_r. f_equal. lia.
  - apply Forall_cons in Hfull as [Hp Hfull]. destruct Hserved as [Hget Hserved].
    change (length (p :: pages) + n)%nat with (S (length pages + n)).
    rewrite (fetch_loop_full_page _ _ _ _ p); [|exact Hget|exact Hp].
    rewrite IH; [|exact Hfull|exact Hserved].
    simpl concat. rewrite <- !app_assoc. f_equal.
    + simpl length. lia.
    + f_equal. simpl length. simpl. f_equal.
      * lia.
      * rewrite <- seq_shift, <- list_fmap_compose. apply list_fmap_ext.
        intros _ i _. simpl. lia.
Qed.

(** The last, short or empty, page. *)
Lemma fetch_loop_last_page n offset all_records issued page :
  get offset = Heating.Records page -> Z.of_nat (length page) < limit ->
  exists e, termination_of e = DONE /\
    fetch_loop (S n) offset all_records issued =
    Some (Run (all_records ++ page) (issued ++ [offset]) e).
Proof.
  intros Hget Hshort. simpl. rewrite Hget.
  destruct page as [|x page].
  - exists EmptyPage. rewrite app_nil_r. auto.
  - apply Z.ltb_lt in Hshort. rewrite Hshort. exists ShortPage. auto.
Qed.

(** Without a ceiling, a source of full pages keeps the loop going
    whatever the fuel. *)
Lemma fetch_loop_never_leaves n : forall offset all_records issued,
  (forall o, exists page, get o = Heating.Records page /\ full limit page) ->
  fetch_loop n offset all_records issued = None.
Proof.
  induction n as [|n IH]; intros offset all_records issued Hall; [reflexivity|].
  destruct (Hall offset) as (page & Hget & Hfull).
  rewrite (fetch_loop_full_page _ _ _ _ page Hget Hfull). apply IH, Hall.
Qed.

End HeatingFacts.

(** ** Complete runs of the aggregator *)

Section Runs.
Context {Store : Type}.
Variable process_page : list feature -> Store -> Store.
Variables limit max_offset : Z.
Variable get : Z -> response.
Hypothesis limit_pos : 0 < limit.

Local Abbreviation run_from := (aggregate process_page limit max_offset get).
Local Abbreviation fold_pages :=
  (fun pages st => fold_left (fun s p => process_page p s) pages st).

Lemma offsets_from_zero n :
  (fun i : nat => 0 + Z.of_nat i * limit) <$> seq 0 n = offsets limit n.
Proof. unfold offsets. apply list_fmap_ext. intros _ i _. lia. Qed.

Lemma offsets_snoc n :
  offsets limit (S n) = offsets limit n ++ [Z.of_nat n * limit].
Proof. unfold offsets. rewrite seq_S, fmap_app. reflexivity. Qed.

(** Full pages, and the offset after them still below the ceiling:
    what remains of the run is the iteration at that offset. *)
Lemma aggregate_after_full_pages pages st r :
  Forall (full limit) pages ->
  served Features get limit 0 pages ->
  Z.of_nat (length pages) * limit < max_offset ->
  paginate process_page limit max_offset get 1
    (Z.of_nat (length pages) * limit) (fold_pages pages st)
    (offsets limit (length pages)) = Some r ->
  run_from st = Some r.
Proof.
  intros Hfull Hserved Hlt Hr. unfold aggregate.
  apply paginate_more_fuel with (n := (length pages + 1)%nat); [|nia].
  rewrite paginate_full_pages; [|exact limit_pos|exact Hfull|exact Hserved|lia].
  rewrite offsets_from_zero. exact Hr.
Qed.

(** Full pages up to the ceiling: the loop is left by its guard. *)
Lemma aggregate_to_the_ceiling pages st :
  Forall (full limit) pages ->
  served Features get limit 0 pages ->
  (Z.of_nat (length pages) - 1) * limit < max_offset ->
  max_offset <= Z.of_nat (length pages) * limit ->
  run_from st =
  Some (Run (fold_pages pages st) (offsets limit (length pages)) CeilingReached).
Proof.
  intros Hfull Hserved Hlt Hge. unfold aggregate.
  apply paginate_more_fuel with (n := (length pages + 1)%nat).
  - rewrite paginate_full_pages; [|exact limit_pos|exact Hfull|exact Hserved|lia].
    rewrite offsets_from_zero. simpl.
    assert ((0 + Z.of_nat (length pages) * limit <? max_offset) = false) as ->
      by (apply Z.ltb_ge; lia).
    reflexivity.
  - destruct pages; simpl length in *; nia.
Qed.

(** Full pages, then a short or empty one. *)
Lemma aggregate_to_the_last_page fulls last st :
  Forall (full limit) fulls ->
  Z.of_nat (length last) < limit ->
  served Features get limit 0 (fulls ++ [last]) ->
  Z.of_nat (length fulls) * limit < max_offset ->
  exists e, termination_of e = DONE /\
    run_from st =
    Some (Run (fold_pages (fulls ++ match last with [] => [] | _ => [last] end) st)
            (offsets limit (S (length fulls))) e).
Proof.
  intros Hfull Hshort Hserved Hlt.
  apply served_app in Hserved as [Hs [Hget _]]. rewrite Z.add_0_l in Hget.
  pose proof Hlt as Hlt'. apply Z.ltb_lt in Hlt'.
  destruct last as [|f last].
  - exists EmptyPage. split; [reflexivity|]. rewrite app_nil_r.
    apply (aggregate_after_full_pages fulls st _ Hfull Hs Hlt).
    rewrite offsets_snoc. simpl paginate. rewrite Hlt', Hget. reflexivity.
  - exists ShortPage. split; [reflexivity|].
    apply (aggregate_after_full_pages fulls st _ Hfull Hs Hlt).
    rewrite offsets_snoc. simpl paginate. rewrite Hlt', Hget.
    apply Z.ltb_lt in Hshort. rewrite Hshort, fold_left_app. reflexivity.
Qed.


End Runs.

(** ** The page loop of precipitation.py *)

Lemma precipitation_pages pages : forall st,
  fold_left (fun s p => Precipitation.process_features p s) pages st =
  Precipitation.process_features (concat pages) st.
Proof.
  induction pages as [|p pages IH]; intros st; [reflexivity|].
  simpl. rewrite IH. unfold Precipitation.process_features.
  rewrite fold_left_app. reflexivity.
Qed.

Lemma offsets_length limit n : length (offsets limit n) = n.
Proof. unfold offsets. rewrite length_fmap. apply length_seq. Qed.

Lemma full_page_is_full : full 300000 full_page.
Proof.
  unfold full, full_page. rewrite repeat_length. apply Z2Nat.id. lia.
Qed.

Lemma five_pages_served :
  served Features five_pages 300000 0 (replicate 4 full_page ++ [[observation "06154" 0]]).
Proof. repeat split. Qed.

Lemma wind_pages p pages : forall st,
  fold_left (fun s page => Wind.process_features p page s) pages st =
  Wind.process_features p (concat pages) st.
Proof.
  induction pages as [|page pages IH]; intros st; [reflexivity|].
  simpl. rewrite IH. unfold Wind.process_features.
  rewrite fold_left_app. reflexivity.
Qed.

Lemma pages_with_last {A : Type} (fulls : list (list A)) (last : list A) :
  concat (fulls ++ match last with [] => [] | _ => [last] end) =
  concat (fulls ++ [last]).
Proof.
  rewrite !concat_app. f_equal. destruct last; reflexivity.
Qed.

(** The loop of precipitation.py on pages that end below the ceiling. *)
Lemma precipitation_short_page limit max_offset get fulls last :
  0 < limit ->
  Forall (full limit) fulls ->
  Z.of_nat (length last) < limit ->
  served Features get limit 0 (fulls ++ [last]) ->
  Z.of_nat (length fulls) * limit < max_offset ->
  exists r,
    aggregate Precipitation.process_features limit max_offset get ∅ = Some r /\
    store r = Precipitation.process_features (concat (fulls ++ [last])) ∅ /\
    requests r = offsets limit (S (length fulls)) /\
    termination_of (left_by r) = DONE.
Proof.
  intros Hpos Hfull Hshort Hserved Hlt.
  destruct (aggregate_to_the_last_page Precipitation.process_features limit
              max_offset get Hpos fulls last ∅ Hfull Hshort Hserved Hlt)
    as (e & He & Hrun).
  eexists. split; [exact Hrun|]. simpl.
  rewrite precipitation_pages, pages_with_last. auto.
Qed.

(** The loop of [fetch_month_data] on pages that end with a short one. *)
Lemma heating_short_page {R : Type} limit (get : Z -> Heating.response R)
    fulls last fuel :
  0 < limit ->
  Forall (full limit) fulls ->
  Z.of_nat (length last) < limit ->
  served Heating.Records get limit 0 (fulls ++ [last]) ->
  (length fulls < fuel)%nat ->
  exists r,
    Heating.fetch_loop limit get fuel 0 [] [] = Some r /\
    store r = concat (fulls ++ [last]) /\
    requests r = offsets limit (S (length fulls)) /\
    termination_of (left_by r) = DONE.
Proof.
  intros Hpos Hfull Hshort Hserved Hfuel.
  apply served_app in Hserved as [Hs [Hget _]]. rewrite Z.add_0_l in Hget.
  replace fuel with (length fulls + S (fuel - S (length fulls)))%nat by lia.
  rewrite (fetch_loop_full_pages limit get Hpos fulls _ 0 [] [] Hfull Hs).
  destruct (fetch_loop_last_page limit get (fuel - S (length fulls))
              (0 + Z.of_nat (length fulls) * limit) ([] ++ concat fulls)
              ([] ++ ((fun i : nat => 0 + Z.of_nat i * limit) <$> seq 0 (length fulls)))
              last Hget Hshort) as (e & He & Hrun).
  eexists. split; [exact Hrun|]. simpl.
  rewrite concat_app. simpl. rewrite app_nil_r.
  rewrite offsets_from_zero, offsets_snoc. auto.
Qed.

(** The scenario of the specification, for a page size of 2. *)
Lemma precipitation_two_pages max_offset :
  2 < max_offset ->
  aggregate Precipitation.process_features 2 max_offset two_pages ∅ =
  Some (Run
    {[ "stationA" := Precipitation.Info (Some "stationA") None None 2 None None
                       (Some 5) (Some 9) 14;
       "stationB" := Precipitation.Info (Some "stationB") None None 1 None None
                       (Some 2) (Some 2) 2 ]}
    [0; 2] ShortPage).
Proof.
  intros Hlt. unfold aggregate.
  apply paginate_more_fuel with (n := 2%nat); [|lia].
  assert ((0 <? max_offset) = true) as H0 by (apply Z.ltb_lt; lia).
  assert ((2 <? max_offset) = true) as H2 by (apply Z.ltb_lt; lia).
  cbn [paginate]. rewrite H0. change (two_pages 0) with (Features page_1).
  cbn [page_1 length].
  change (Z.of_nat 2 <? 2) with false. change (0 + 2) with 2. cbn iota.
  rewrite H2. change (two_pages 2) with (Features page_2).
  cbn [page_2 length].
  change (Z.of_nat 1 <? 2) with true. cbn iota.
  vm_compute. reflexivity.
Qed.

(** C1, as the code has it.  For pages of sizes [limit, ..., limit, k]
    with [k < limit] ([n] pages) whose last offset [(n - 1) * limit] is
    below [max_offset], the aggregation loop issues exactly the [n]
    requests at offsets [0], [limit], ..., [(n - 1) * limit], folds every
    page and ends in DONE; [fetch_month_data], which has no ceiling, does
    so for every [n]; and with a page size of 2, page 1 =
    [(stationA, 5), (stationB, 2)] and page 2 = [(stationA, 9)] give two
    requests and the summaries stationA: count 2, min 5, max 9, sum 14 and
    stationB: count 1, min 2, max 2, sum 2. *)
Theorem pages_below_the_ceiling_end_in_done :
  (forall limit max_offset get fulls last,
     0 < limit ->
     Forall (full limit) fulls ->
     Z.of_nat (length last) < limit ->
     served Features get limit 0 (fulls ++ [last]) ->
     Z.of_nat (length fulls) * limit < max_offset ->
     exists r,
       aggregate Precipitation.process_features limit max_offset get ∅ = Some r /\
       store r = Precipitation.process_features (concat (fulls ++ [last])) ∅ /\
       requests r = offsets limit (S (length fulls)) /\
       length (requests r) = S (length fulls) /\
       termination_of (left_by r) = DONE) /\
  (forall (R : Type) (get : Z -> Heating.response R) fulls last fuel,
     Forall (full Heating.limit) fulls ->
     Z.of_nat (length last) < Heating.limit ->
     served Heating.Records get Heating.limit 0 (fulls ++ [last]) ->
     (length fulls < fuel)%nat ->
     exists r,
       Heating.fetch_month_data get fuel = Some r /\
       store r = concat (fulls ++ [last]) /\
       requests r = offsets Heating.limit (S (length fulls)) /\
       length (requests r) = S (length fulls) /\
       termination_of (left_by r) = DONE) /\
  (forall max_offset,
     2 < max_offset ->
     aggregate Precipitation.process_features 2 max_offset two_pages ∅ =
     Some (Run
       {[ "stationA" := Precipitation.Info (Some "stationA") None None 2 None None
                          (Some 5) (Some 9) 14;
          "stationB" := Precipitation.Info (Some "stationB") None None 1 None None
                          (Some 2) (Some 2) 2 ]}
       [0; 2] ShortPage)).
Proof.
  split; [|split].
  - intros limit max_offset get fulls last Hpos Hfull Hshort Hserved Hlt.
    destruct (precipitation_short_page limit max_offset get fulls last
                Hpos Hfull Hshort Hserved Hlt) as (r & Hrun & Hstore & Hreq & Hdone).
    exists r. rewrite Hreq at 2. rewrite offsets_length. auto.
  - intros R get fulls last fuel Hfull Hshort Hserved Hfuel.
    destruct (heating_short_page Heating.limit get fulls last fuel
                eq_refl Hfull Hshort Hserved Hfuel) as (r & Hrun & Hstore & Hreq & Hdone).
    exists r. rewrite Hreq at 2. rewrite offsets_length. auto.
  - exact precipitation_two_pages.
Qed.

Lemma pages_below_the_ceiling_end_in_done_witness :
  exists r,
    aggregate Precipitation.process_features 2 10 two_pages ∅ = Some r /\
    store r = Precipitation.process_features (concat ([page_1] ++ [page_2])) ∅ /\
    requests r = offsets 2 2 /\
    length (requests r) = 2%nat /\
    termination_of (left_by r) = DONE.
Proof.
  apply (proj1 pages_below_the_ceiling_end_in_done 2 10 two_pages [page_1] page_2).
  - lia.
  - repeat constructor.
  - simpl. lia.
  - repeat split.
  - simpl. lia.
Defined.

(** C1 fails on the script as it stands: with its page size of 300,000
    and its ceiling of 1,000,000, five pages (four full ones and a short
    one) get four requests, not five, and the loop is left by its guard,
    not by the short page. *)
Lemma fifth_page_is_never_requested :
  Forall (full Precipitation.limit) (replicate 4 full_page) /\
  Z.of_nat (length [observation "06154" 0]) < Precipitation.limit /\
  served Features five_pages Precipitation.limit 0
    (replicate 4 full_page ++ [[observation "06154" 0]]) /\
  exists r,
    Precipitation.get_precipitation_stations_csv five_pages = Some r /\
    requests r = [0; 300000; 600000; 900000] /\
    termination_of (left_by r) = ABORTED.
Proof.
  assert (Forall (full Precipitation.limit) (replicate 4 full_page)) as Hfull
    by (cbn [replicate];
        repeat (apply List.Forall_cons; [exact full_page_is_full|]);
        apply List.Forall_nil).
  split; [exact Hfull|]. split; [reflexivity|]. split; [exact five_pages_served|].
  eexists. split.
  - unfold Precipitation.get_precipitation_stations_csv.
    apply aggregate_to_the_ceiling.
    + reflexivity.
    + exact Hfull.
    + repeat split.
    + reflexivity.
    + discriminate.
  - split; reflexivity.
Qed.

(** ** The ceiling *)

Lemma served_by_function {A Resp : Type} (ok : list A -> Resp) get limit
    (page : Z -> list A) :
  (forall o, get o = ok (page o)) ->
  forall k offset,
    served ok get limit offset
      (page <$> ((fun i : nat => offset + Z.of_nat i * limit) <$> seq 0 k)).
Proof.
  intros Hget k. induction k as [|k IH]; intros offset; [exact I|].
  change (seq 0 (S k)) with (0%nat :: seq 1 k). rewrite !fmap_cons.
  cbn [served]. split.
  - replace (offset + Z.of_nat 0 * limit) with offset by lia. apply Hget.
  - assert ((fun i : nat => offset + Z.of_nat i * limit) <$> seq 1 k =
            (fun i : nat => offset + limit + Z.of_nat i * limit) <$> seq 0 k) as ->.
    { rewrite <- seq_shift, <- list_fmap_compose. apply list_fmap_ext.
      intros _ i _. simpl. lia. }
    apply IH.
Qed.

Lemma ceil_div_bounds a b :
  0 < b -> 0 < a ->
  0 < ceil_div a b /\ (ceil_div a b - 1) * b < a <= ceil_div a b * b.
Proof.
  intros Hb Ha. unfold ceil_div.
  pose proof (Z.mul_div_le (a + b - 1) b Hb).
  pose proof (Z.mul_succ_div_gt (a + b - 1) b Hb).
  assert (1 <= (a + b - 1) / b) by (apply Z.div_le_lower_bound; lia).
  nia.
Qed.

Lemma ceil_div_upper a b k :
  0 < b -> (k - 1) * b < a -> k <= ceil_div a b.
Proof.
  intros Hb Hk. unfold ceil_div. apply Z.div_le_lower_bound; lia.
Qed.

Section Ceiling.
Context {Store : Type}.
Variable process_page : list feature -> Store -> Store.
Variables limit max_offset : Z.
Variable get : Z -> response.
Hypothesis limit_pos : 0 < limit.

(** Whatever the upstream answers, the loop is left, after at most
    [ceil (max_offset / limit)] requests, all below the ceiling. *)
Lemma aggregate_is_bounded st :
  exists r,
    aggregate process_page limit max_offset get st = Some r /\
    Z.of_nat (length (requests r)) <= Z.max 0 (ceil_div max_offset limit) /\
    Forall (fun o => o < max_offset) (requests r).
Proof.
  destruct (aggregate_terminates process_page limit max_offset get limit_pos st)
    as [r Hr].
  exists r. split; [exact Hr|].
  apply paginate_requests in Hr as (k & Hreq & Hk). simpl in Hreq.
  rewrite Hreq, length_fmap, length_seq. split.
  - destruct Hk as [->|Hk]; [simpl; lia|].
    etransitivity; [|apply Z.le_max_r]. apply ceil_div_upper; lia.
  - apply Forall_fmap, Forall_forall. intros i Hi.
    apply elem_of_seq in Hi. simpl. destruct Hk as [->|Hk]; [lia|nia].
Qed.

(** An upstream that only ever serves full pages is read up to the
    ceiling; the loop is then left by its guard with every page
    folded. *)
Lemma aggregate_of_full_pages (page : Z -> list feature) st :
  (forall o, get o = Features (page o) /\ full limit (page o)) ->
  let n := Z.to_nat (ceil_div max_offset limit) in
  aggregate process_page limit max_offset get st =
  Some (Run (fold_left (fun s p => process_page p s) (page <$> offsets limit n) st)
          (offsets limit n) CeilingReached).
Proof.
  intros Hall n.
  destruct (Z.lt_ge_cases 0 max_offset) as [Hmax|Hmax].
  - destruct (ceil_div_bounds max_offset limit limit_pos Hmax) as (Hq & Hlo & Hhi).
    assert (Z.of_nat n = ceil_div max_offset limit) as Hn by (unfold n; lia).
    pose proof (aggregate_to_the_ceiling process_page limit max_offset get
                  limit_pos (page <$> offsets limit n) st) as Hrun.
    rewrite length_fmap, offsets_length in Hrun. apply Hrun.
    + apply Forall_fmap, Forall_forall. intros o _. apply Hall.
    + rewrite <- (offsets_from_zero limit n).
      apply served_by_function. intros o. apply Hall.
    + lia.
    + lia.
  - assert (n = 0%nat) as ->.
    { unfold n, ceil_div.
      assert ((max_offset + limit - 1) / limit < 1)
        by (apply Z.div_lt_upper_bound; lia).
      lia. }
    unfold aggregate. simpl.
    assert ((0 <? max_offset) = false) as -> by (apply Z.ltb_ge; lia).
    reflexivity.
Qed.

End Ceiling.

(** C2, as the code has it.  The aggregation loops of precipitation.py
    and wind.py terminate for every page-fetch function: at most
    [ceil (max_offset / limit)] requests are issued, all below
    [max_offset]; and when every page has exactly [limit] records the loop
    is left at the ceiling (ABORTED) with the mapping folded from every
    page read.  [fetch_month_data] has no ceiling: on an upstream whose
    pages are all full it never leaves its loop. *)
Theorem ceiling_bounds_the_aggregator :
  (forall (Store : Type) (process_page : list feature -> Store -> Store)
          limit max_offset get st,
     0 < limit ->
     exists r,
       aggregate process_page limit max_offset get st = Some r /\
       Z.of_nat (length (requests r)) <= Z.max 0 (ceil_div max_offset limit) /\
       Forall (fun o => o < max_offset) (requests r)) /\
  (forall (Store : Type) (process_page : list feature -> Store -> Store)
          limit max_offset get (page : Z -> list feature) st,
     0 < limit ->
     (forall o, get o = Features (page o) /\ full limit (page o)) ->
     exists r,
       aggregate process_page limit max_offset get st = Some r /\
       requests r = offsets limit (Z.to_nat (ceil_div max_offset limit)) /\
       store r = fold_left (fun s p => process_page p s) (page <$> requests r) st /\
       left_by r = CeilingReached /\
       termination_of (left_by r) = ABORTED) /\
  (forall (R : Type) (get : Z -> Heating.response R) fuel,
     (forall o, exists page, get o = Heating.Records page /\ full Heating.limit page) ->
     Heating.fetch_month_data get fuel = None).
Proof.
  split; [|split].
  - intros Store process_page limit max_offset get st Hpos.
    apply aggregate_is_bounded. exact Hpos.
  - intros Store process_page limit max_offset get page st Hpos Hall.
    eexists. split.
    + apply (aggregate_of_full_pages process_page limit max_offset get Hpos page st Hall).
    + simpl. auto.
  - intros R get fuel Hall. unfold Heating.fetch_month_data.
    apply fetch_loop_never_leaves; [reflexivity|exact Hall].
Qed.

Lemma ceiling_bounds_the_aggregator_witness :
  exists r,
    aggregate Precipitation.process_features Precipitation.limit
      Precipitation.max_offset five_pages ∅ = Some r /\
    Z.of_nat (length (requests r)) <=
      Z.max 0 (ceil_div Precipitation.max_offset Precipitation.limit) /\
    Forall (fun o => o < Precipitation.max_offset) (requests r).
Proof.
  apply (proj1 ceiling_bounds_the_aggregator). reflexivity.
Defined.

(** C2 fails on [fetch_month_data]: its loop is [while True], and on an
    upstream that answers every request with 20,000 records no amount of
    fuel lets it return. *)
Lemma fetch_month_data_has_no_ceiling :
  (forall o, exists page, endless o = Heating.Records page /\ full Heating.limit page) /\
  ~ exists fuel r, Heating.fetch_month_data endless fuel = Some r.
Proof.
  assert (forall o, exists page,
             endless o = Heating.Records page /\ full Heating.limit page) as Hall.
  { intros o. eexists. split; [reflexivity|].
    unfold full. rewrite repeat_length. apply Z2Nat.id. discriminate. }
  split; [exact Hall|].
  intros (fuel & r & Hrun). unfold Heating.fetch_month_data in Hrun.
  rewrite fetch_loop_never_leaves in Hrun; [discriminate|reflexivity|exact Hall].
Qed.

(** ** Transport failures *)




(** ** The fold of precipitation.py over one feature *)

(** [locate] touches the station id and the coordinates only. *)
Lemma precipitation_locate_keeps sid coords e e' :
  Precipitation.locate sid coords e = Some e' ->
  Precipitation.precipitation_observations e' = Precipitation.precipitation_observations e /\
  Precipitation.first_precipitation_date e' = Precipitation.first_precipitation_date e /\
  Precipitation.last_precipitation_date e' = Precipitation.last_precipitation_date e /\
  Precipitation.min_precipitation e' = Precipitation.min_precipitation e /\
  Precipitation.max_precipitation e' = Precipitation.max_precipitation e /\
  Precipitation.total_precipitation_sample e' = Precipitation.total_precipitation_sample e.
Proof.
  unfold Precipitation.locate. intros H.
  repeat case_match; simplify_eq; simpl; repeat split; reflexivity.
Qed.

(** On a well-formed feature [locate] does not raise. *)
Lemma precipitation_locate_well_formed sid f e :
  well_formed f = true ->
  exists e', Precipitation.locate sid (coords_of f) e = Some e'.
Proof.
  unfold well_formed, coords_of, Precipitation.locate. intros Hwf.
  destruct (feat_coordinates f) as [[|lon [|lat cs]]|]; try discriminate;
    simpl; repeat case_match; eauto.
Qed.

(** A well-formed feature of a station is folded into the entry of that
    station. *)
Lemma precipitation_process_well_formed st f props sid :
  feat_properties f = Some props -> prop_stationId props = Some sid ->
  well_formed f = true ->
  exists e',
    Precipitation.locate sid (coords_of f) (Precipitation.getitem st sid) = Some e' /\
    Precipitation.process_feature st f = <[sid := Precipitation.track props e']> st.
Proof.
  intros Hp Hs Hwf.
  destruct (precipitation_locate_well_formed sid f (Precipitation.getitem st sid) Hwf)
    as [e' He'].
  exists e'. split; [exact He'|].
  unfold Precipitation.process_feature. rewrite Hp, Hs. cbn zeta. rewrite He'.
  reflexivity.
Qed.

Lemma reading_well_formed sid from_date value position :
  well_formed (reading sid from_date value position) = true.
Proof. destruct position; reflexivity. Qed.

Lemma precipitation_getitem_insert st sid e :
  Precipitation.getitem (<[sid := e]> st) sid = e.
Proof. unfold Precipitation.getitem. rewrite lookup_insert_eq. reflexivity. Qed.

Lemma precipitation_getitem_insert_ne st sid sid' e :
  sid <> sid' ->
  Precipitation.getitem (<[sid := e]> st) sid' = Precipitation.getitem st sid'.
Proof. intros Hne. unfold Precipitation.getitem. rewrite lookup_insert_ne; auto. Qed.

(** The statistics after one observation with a value. *)
Lemma precipitation_value_folded st f props sid v :
  feat_properties f = Some props -> prop_stationId props = Some sid ->
  prop_value props = Some v -> well_formed f = true ->
  let e := Precipitation.getitem st sid in
  let e' := Precipitation.getitem (Precipitation.process_feature st f) sid in
  Precipitation.precipitation_observations e' = Precipitation.precipitation_observations e + 1 /\
  Precipitation.min_precipitation e' = lower v (Precipitation.min_precipitation e) /\
  Precipitation.max_precipitation e' = higher v (Precipitation.max_precipitation e) /\
  Precipitation.total_precipitation_sample e' = Precipitation.total_precipitation_sample e + v.
Proof.
  intros Hp Hs Hv Hwf e e'. subst e e'.
  destruct (precipitation_process_well_formed st f props sid Hp Hs Hwf)
    as (e' & Hloc & ->).
  rewrite precipitation_getitem_insert.
  apply precipitation_locate_keeps in Hloc as (Hc & _ & _ & Hmin & Hmax & Htot).
  unfold Precipitation.track, Precipitation.track_dates. rewrite Hv.
  destruct (prop_from props) as [d|]; [destruct (bool_decide (d = ""))|];
    simpl; rewrite ?Hc, ?Hmin, ?Hmax, ?Htot; repeat split; reflexivity.
Qed.

Lemma lower_is_min v w : lower w (lower v None) = Some (Z.min v w).
Proof.
  simpl. destruct (Z.ltb_spec w v); f_equal; lia.
Qed.

Lemma higher_is_max v w : higher w (higher v None) = Some (Z.max v w).
Proof.
  simpl. destruct (Z.ltb_spec v w); f_equal; lia.
Qed.

(** Two observations of a station the mapping does not hold yet. *)
Lemma precipitation_two_values st sid from1 from2 pos1 pos2 v w :
  st !! sid = None ->
  let e := Precipitation.getitem
             (Precipitation.process_features
                [reading sid from1 (Some v) pos1; reading sid from2 (Some w) pos2] st)
             sid in
  Precipitation.min_precipitation e = Some (Z.min v w) /\
  Precipitation.max_precipitation e = Some (Z.max v w) /\
  Precipitation.total_precipitation_sample e = v + w /\
  Precipitation.precipitation_observations e = 2.
Proof.
  intros Hfresh e. subst e. cbn [Precipitation.process_features fold_left].
  destruct (precipitation_value_folded
              (Precipitation.process_feature st (reading sid from1 (Some v) pos1))
              (reading sid from2 (Some w) pos2) _ sid w eq_refl eq_refl eq_refl
              (reading_well_formed _ _ _ _)) as (Hc2 & Hmin2 & Hmax2 & Htot2).
  destruct (precipitation_value_folded st (reading sid from1 (Some v) pos1) _ sid v
              eq_refl eq_refl eq_refl (reading_well_formed _ _ _ _))
    as (Hc1 & Hmin1 & Hmax1 & Htot1).
  rewrite Hc2, Hmin2, Hmax2, Htot2, Hc1, Hmin1, Hmax1, Htot1.
  unfold Precipitation.getitem. rewrite Hfresh. cbn [default Precipitation.default_info
    Precipitation.min_precipitation Precipitation.max_precipitation
    Precipitation.total_precipitation_sample Precipitation.precipitation_observations].
  rewrite lower_is_min, higher_is_max. repeat split; lia.
Qed.

(** C4.  Two observations of one station with the values 3 and 7, folded
    into a mapping that does not hold the station yet, give min 3, max 7,
    sum 10 and count 2, in either order of arrival and whatever their
    dates and positions. *)
Theorem values_3_and_7_in_either_order :
  forall st sid from1 from2 pos1 pos2,
    st !! sid = None ->
    let a := reading sid from1 (Some 3) pos1 in
    let b := reading sid from2 (Some 7) pos2 in
    let ab := Precipitation.getitem (Precipitation.process_features [a; b] st) sid in
    let ba := Precipitation.getitem (Precipitation.process_features [b; a] st) sid in
    (Precipitation.min_precipitation ab = Some 3 /\
     Precipitation.max_precipitation ab = Some 7 /\
     Precipitation.total_precipitation_sample ab = 10 /\
     Precipitation.precipitation_observations ab = 2) /\
    (Precipitation.min_precipitation ba = Some 3 /\
     Precipitation.max_precipitation ba = Some 7 /\
     Precipitation.total_precipitation_sample ba = 10 /\
     Precipitation.precipitation_observations ba = 2).
Proof.
  intros st sid from1 from2 pos1 pos2 Hfresh a b ab ba. split.
  - exact (precipitation_two_values st sid from1 from2 pos1 pos2 3 7 Hfresh).
  - exact (precipitation_two_values st sid from2 from1 pos2 pos1 7 3 Hfresh).
Qed.

Lemma values_3_and_7_in_either_order_witness :
  let a := reading "06154" (Some "2020-01-01T00:00:00Z") (Some 3) (Some (55, 12)) in
  let b := reading "06154" (Some "2020-01-02T00:00:00Z") (Some 7) None in
  let ab := Precipitation.getitem (Precipitation.process_features [a; b] ∅) "06154" in
  let ba := Precipitation.getitem (Precipitation.process_features [b; a] ∅) "06154" in
  (Precipitation.min_precipitation ab = Some 3 /\
   Precipitation.max_precipitation ab = Some 7 /\
   Precipitation.total_precipitation_sample ab = 10 /\
   Precipitation.precipitation_observations ab = 2) /\
  (Precipitation.min_precipitation ba = Some 3 /\
   Precipitation.max_precipitation ba = Some 7 /\
   Precipitation.total_precipitation_sample ba = 10 /\
   Precipitation.precipitation_observations ba = 2).
Proof.
  apply (values_3_and_7_in_either_order ∅ "06154"). reflexivity.
Defined.

(** C5.  An observation whose value is null adds one to the observation
    count of its station and leaves the station's min, max and sum as
    they were. *)
Theorem null_value_only_counts :
  forall st f props sid,
    feat_properties f = Some props ->
    prop_stationId props = Some sid ->
    prop_value props = None ->
    well_formed f = true ->
    let before := Precipitation.getitem st sid in
    let after := Precipitation.getitem (Precipitation.process_feature st f) sid in
    Precipitation.precipitation_observations after =
      Precipitation.precipitation_observations before + 1 /\
    Precipitation.min_precipitation after = Precipitation.min_precipitation before /\
    Precipitation.max_precipitation after = Precipitation.max_precipitation before /\
    Precipitation.total_precipitation_sample after =
      Precipitation.total_precipitation_sample before.
Proof.
  intros st f props sid Hp Hs Hv Hwf before after. subst before after.
  destruct (precipitation_process_well_formed st f props sid Hp Hs Hwf)
    as (e' & Hloc & ->).
  rewrite precipitation_getitem_insert.
  apply precipitation_locate_keeps in Hloc as (Hc & _ & _ & Hmin & Hmax & Htot).
  unfold Precipitation.track, Precipitation.track_dates. rewrite Hv.
  destruct (prop_from props) as [d|]; [destruct (bool_decide (d = ""))|];
    simpl; rewrite ?Hc, ?Hmin, ?Hmax, ?Htot; repeat split; reflexivity.
Qed.


Lemma null_value_only_counts_witness :
  let st := Precipitation.process_features [observation "06154" 4] ∅ in
  let f := reading "06154" (Some "2020-01-01T00:00:00Z") None (Some (55, 12)) in
  let before := Precipitation.getitem st "06154" in
  let after := Precipitation.getitem (Precipitation.process_feature st f) "06154" in
  Precipitation.precipitation_observations after =
    Precipitation.precipitation_observations before + 1 /\
  Precipitation.min_precipitation after = Precipitation.min_precipitation before /\
  Precipitation.max_precipitation after = Precipitation.max_precipitation before /\
  Precipitation.total_precipitation_sample after =
    Precipitation.total_precipitation_sample before.
Proof.
  apply (null_value_only_counts _ _
           (Properties (Some "06154") (Some "2020-01-01T00:00:00Z") None) "06154");
    reflexivity.
Defined.

(** ** The yearly collections *)

(** A loop whose body only appends to what [view] sees of the state. *)
Lemma for_each_appends {S A B : Type} (body : S -> A -> option S)
    (view : S -> list B) (added : A -> list B) :
  (forall s a s', body s a = Some s' -> view s' = view s ++ added a) ->
  forall l s s', for_each body l s = Some s' ->
    view s' = view s ++ concat (added <$> l).
Proof.
  intros Hbody l. induction l as [|a l IH]; intros s s' H; simpl in H.
  - injection H as <-. simpl. rewrite app_nil_r. reflexivity.
  - destruct (body s a) as [s1|] eqn:Hs1; [|discriminate].
    rewrite (IH _ _ H), (Hbody _ _ _ Hs1). simpl. rewrite app_assoc. reflexivity.
Qed.

(** A loop none of whose iterations raises runs to its end. *)
Lemma for_each_returns {S A : Type} (body : S -> A -> option S) l :
  (forall s a, a ∈ l -> is_Some (body s a)) ->
  forall s, is_Some (for_each body l s).
Proof.
  induction l as [|a l IH]; intros Hbody s; simpl; [eauto|].
  destruct (Hbody s a) as [s1 ->]; [left|].
  apply IH. intros s' a' Ha'. apply Hbody. right. exact Ha'.
Qed.

Lemma add_feature_appends sid name all_data f all_data' :
  Collection.add_feature sid name all_data f = Some all_data' ->
  Collection.measurement <$> all_data' =
  (Collection.measurement <$> all_data) ++ filter is_Some [value_of f].
Proof.
  unfold Collection.add_feature, value_of.
  destruct (feat_properties f) as [props|]; [|discriminate].
  destruct (prop_value props) as [v|] eqn:Hv; intros [= <-].
  - rewrite fmap_app. reflexivity.
  - rewrite app_nil_r. reflexivity.
Qed.

Lemma concat_filter_singletons {A : Type} (P : A -> Prop) `{!forall x, Decision (P x)}
    (l : list A) :
  concat ((fun x => filter P [x]) <$> l) = filter P l.
Proof.
  induction l as [|x l IH]; [reflexivity|].
  cbn [fmap list_fmap concat]. rewrite IH, (filter_cons P x l), (filter_cons P x []).
  destruct (decide (P x)); reflexivity.
Qed.

Lemma filter_concat_fmap {A B : Type} (P : B -> Prop) `{!forall x, Decision (P x)}
    (g : A -> list B) (l : list A) :
  concat ((fun a => filter P (g a)) <$> l) = filter P (concat (g <$> l)).
Proof.
  induction l as [|a l IH]; [reflexivity|].
  cbn [fmap list_fmap concat]. rewrite IH, filter_app. reflexivity.
Qed.

Lemma concat_fmap_fmap {A B C : Type} (f : B -> C) (g : A -> list B) (l : list A) :
  concat ((fun a => f <$> g a) <$> l) = f <$> concat (g <$> l).
Proof.
  induction l as [|a l IH]; [reflexivity|].
  cbn [fmap list_fmap concat]. rewrite fmap_app. f_equal. exact IH.
Qed.

Lemma collect_values get year stations rows :
  Collection.collect get year stations = Some rows ->
  Collection.measurement <$> rows =
  filter is_Some (value_of <$> fetched get year stations).
Proof.
  intros H. unfold Collection.collect in H.
  apply (for_each_appends _ (fmap Collection.measurement)
           (fun station =>
              filter is_Some
                (value_of <$> concat ((fun month =>
                   Collection.fetch_station_month get (fst station) year month)
                   <$> seqZ 1 12)))) in H.
  - rewrite H, fmap_nil, app_nil_l. unfold fetched.
    rewrite (filter_concat_fmap is_Some
               (fun station => value_of <$> concat ((fun month =>
                   Collection.fetch_station_month get (fst station) year month)
                   <$> seqZ 1 12)) stations).
    f_equal. apply concat_fmap_fmap.
  - intros all_data station all_data' Hs. unfold Collection.collect_station in Hs.
    apply (for_each_appends _ (fmap Collection.measurement)
             (fun month =>
                filter is_Some
                  (value_of <$> Collection.fetch_station_month get (fst station) year month)))
      in Hs.
    + rewrite Hs. f_equal.
      rewrite (filter_concat_fmap is_Some
                 (fun month => value_of <$>
                    Collection.fetch_station_month get (fst station) year month)).
      f_equal. apply concat_fmap_fmap.
    + intros acc month acc' Hm. unfold Collection.collect_month in Hm.
      apply (for_each_appends _ (fmap Collection.measurement)
               (fun f => filter is_Some [value_of f])) in Hm.
      * rewrite Hm. f_equal.
        rewrite <- (concat_filter_singletons is_Some
                      (value_of <$> Collection.fetch_station_month get (fst station) year month)).
        rewrite <- list_fmap_compose. reflexivity.
      * intros acc0 f acc1. apply add_feature_appends.
Qed.

Lemma collect_returns get year stations :
  Forall (fun f => is_Some (feat_properties f)) (fetched get year stations) ->
  is_Some (Collection.collect get year stations).
Proof.
  intros Hall. rewrite Forall_forall in Hall.
  apply for_each_returns. intros all_data station Hstation.
  apply for_each_returns. intros acc month Hmonth.
  apply for_each_returns. intros acc' f Hf.
  assert (f ∈ fetched get year stations) as Hin.
  { unfold fetched. apply list_elem_of_In, in_concat.
    eexists. split.
    - apply list_elem_of_In, list_elem_of_fmap. exists station. split; [reflexivity|exact Hstation].
    - apply in_concat. eexists. split; [|apply list_elem_of_In; exact Hf].
      apply list_elem_of_In, list_elem_of_fmap. exists month. split; [reflexivity|exact Hmonth]. }
  destruct (Hall f Hin) as [props Hprops].
  unfold Collection.add_feature. rewrite Hprops.
  destruct (prop_value props); eauto.
Qed.

Lemma records_have_values get year stations rows :
  Collection.collect get year stations = Some rows ->
  Forall (fun r => Collection.measurement r <> None) rows /\
  Collection.measurement <$> rows =
    filter is_Some (value_of <$> fetched get year stations) /\
  length rows = length (filter is_Some (value_of <$> fetched get year stations)).
Proof.
  intros H. pose proof (collect_values get year stations rows H) as Hvalues.
  split; [|split; [exact Hvalues|]].
  - apply Forall_forall. intros r Hr.
    assert (Collection.measurement r ∈ Collection.measurement <$> rows) as Hm
      by (apply list_elem_of_fmap; eauto).
    rewrite Hvalues in Hm. apply list_elem_of_filter in Hm as [[v Hv] _].
    rewrite Hv. discriminate.
  - rewrite <- Hvalues, length_fmap. reflexivity.
Qed.

(** C10.  Every record of the list that [collect_wind_data] and
    [collect_sunshine_data] return has a value that is not [None]: the
    values of the records are, in order, the non-null values of the
    features received, so that an observation with a null value gives no
    record and is not counted; and the functions return whenever every
    feature received has its properties. *)
Theorem collected_records_have_values :
  forall get year,
    (forall rows,
       Collection.collect_wind_data get year = Some rows ->
       Forall (fun r => Collection.measurement r <> None) rows /\
       Collection.measurement <$> rows =
         filter is_Some (value_of <$> fetched get year Collection.WIND_STATIONS) /\
       length rows =
         length (filter is_Some (value_of <$> fetched get year Collection.WIND_STATIONS))) /\
    (forall rows,
       Collection.collect_sunshine_data get year = Some rows ->
       Forall (fun r => Collection.measurement r <> None) rows /\
       Collection.measurement <$> rows =
         filter is_Some (value_of <$> fetched get year Collection.SUNSHINE_STATIONS) /\
       length rows =
         length (filter is_Some (value_of <$> fetched get year Collection.SUNSHINE_STATIONS))) /\
    (Forall (fun f => is_Some (feat_properties f))
       (fetched get year Collection.WIND_STATIONS) ->
     is_Some (Collection.collect_wind_data get year)) /\
    (Forall (fun f => is_Some (feat_properties f))
       (fetched get year Collection.SUNSHINE_STATIONS) ->
     is_Some (Collection.collect_sunshine_data get year)).
Proof.
  intros get year. repeat split.
  - apply (records_have_values get year Collection.WIND_STATIONS rows H).
  - apply (records_have_values get year Collection.WIND_STATIONS rows H).
  - apply (records_have_values get year Collection.WIND_STATIONS rows H).
  - apply (records_have_values get year Collection.SUNSHINE_STATIONS rows H).
  - apply (records_have_values get year Collection.SUNSHINE_STATIONS rows H).
  - apply (records_have_values get year Collection.SUNSHINE_STATIONS rows H).
  - apply collect_returns.
  - apply collect_returns.
Qed.

Lemma collected_records_have_values_witness :
  let rows := [Collection.Record_ (Some "2020-01-01T00:00:00Z") "06154" "Brandelev"
                 (Some 4)] in
  Collection.collect_wind_data january_06154 2020 = Some rows /\
  Forall (fun r => Collection.measurement r <> None) rows /\
  Collection.measurement <$> rows =
    filter is_Some (value_of <$> fetched january_06154 2020 Collection.WIND_STATIONS) /\
  length rows =
    length (filter is_Some (value_of <$> fetched january_06154 2020 Collection.WIND_STATIONS)).
Proof.
  intros rows.
  assert (Collection.collect_wind_data january_06154 2020 = Some rows) as H
    by (vm_compute; reflexivity).
  split; [exact H|].
  exact (proj1 (collected_records_have_values january_06154 2020) rows H).
Defined.

(** ** The metadata join of wind.py *)

(** The join writes the metadata keys of entries the mapping already
    holds, and nothing else. *)
Lemma wind_join_station_keeps st props :
  Wind.set_meta ∅ <$> Wind.join_station st props = Wind.set_meta ∅ <$> st.
Proof.
  unfold Wind.join_station.
  destruct (bool_decide (props = ∅)); [reflexivity|].
  destruct (dict_get props "stationId" None) as [sid|]; [|reflexivity].
  destruct (st !! sid) as [e|] eqn:He; [|reflexivity].
  rewrite fmap_insert. apply insert_id. rewrite lookup_fmap, He. reflexivity.
Qed.

Lemma wind_join_keeps stations st :
  Wind.set_meta ∅ <$> Wind.join stations st = Wind.set_meta ∅ <$> st.
Proof.
  destruct stations as [|features]; [reflexivity|]. simpl.
  revert st. induction features as [|props features IH]; intros st; [reflexivity|].
  simpl. rewrite IH. apply wind_join_station_keeps.
Qed.

(** A station of the mapping whose details are served takes them. *)
Lemma wind_join_station_matched st props sid e :
  props <> ∅ -> dict_get props "stationId" None = Some sid -> st !! sid = Some e ->
  Wind.join_station st props !! sid =
  Some (Wind.set_meta (Wind.details props (Wind.meta e)) e).
Proof.
  intros Hne Hsid He. unfold Wind.join_station.
  rewrite bool_decide_eq_false_2 by exact Hne.
  rewrite Hsid, He. apply lookup_insert_eq.
Qed.

(** A station whose details are not served keeps its entry. *)
Lemma wind_join_station_unmatched st props sid :
  dict_get props "stationId" None <> Some sid ->
  Wind.join_station st props !! sid = st !! sid.
Proof.
  intros Hne. unfold Wind.join_station.
  destruct (bool_decide (props = ∅)); [reflexivity|].
  destruct (dict_get props "stationId" None) as [sid'|]; [|reflexivity].
  destruct (st !! sid'); [|reflexivity].
  apply lookup_insert_ne. congruence.
Qed.

(** A parameter whose first page is short or empty. *)
Lemma wind_single_page get p st page :
  get p 0 = Features page -> Z.of_nat (length page) < Wind.limit ->
  Wind.parameter_pass get p st =
  Some (Run (Wind.process_features p page st) [0]
          match page with [] => EmptyPage | _ => ShortPage end).
Proof.
  intros Hget Hshort. unfold Wind.parameter_pass, aggregate.
  apply paginate_more_fuel with (n := 1%nat); [|lia].
  simpl. rewrite Hget. destruct page as [|f page]; [reflexivity|].
  apply Z.ltb_lt in Hshort. rewrite Hshort. reflexivity.
Qed.

Lemma one_wind_observation_collected :
  exists log,
    Wind.collect one_wind_observation =
    Some (Wind.process_features Wind.mean_wind_speed
            [reading "06154" (Some "2020-01-01T00:00:00Z") (Some 6) (Some (55, 12))] ∅,
          log).
Proof.
  eexists. unfold Wind.collect. cbn [Wind.passes Wind.wind_parameters].
  rewrite (wind_single_page one_wind_observation Wind.mean_wind_speed ∅
             [reading "06154" (Some "2020-01-01T00:00:00Z") (Some 6) (Some (55, 12))]
             eq_refl eq_refl).
  cbn [store requests left_by].
  rewrite (wind_single_page one_wind_observation Wind.max_wind_speed_3sec _ []
             eq_refl eq_refl).
  rewrite (wind_single_page one_wind_observation Wind.max_wind_speed_10min _ []
             eq_refl eq_refl).
  rewrite (wind_single_page one_wind_observation Wind.mean_wind_dir _ []
             eq_refl eq_refl).
  rewrite (wind_single_page one_wind_observation Wind.mean_wind_dir_min0 _ []
             eq_refl eq_refl).
  reflexivity.
Qed.

(** C8 on the code.  A station found by the aggregation and absent from
    the metadata (here the station request fails, or serves another
    station only) is exported by wind.py with the name, country and
    status [None], not ["Unknown"]: the factory of [station_info] creates
    these keys, so the default of [info.get('name', 'Unknown')] is never
    used.  In sunlight.py, whose factory creates ['name'] only, the same
    station gets the country and status ["Unknown"].  The statistics of
    the station are those of the aggregation in all cases. *)
Theorem unmatched_wind_station_is_not_unknown :
  (exists rows row,
     Wind.get_wind_stations_csv one_wind_observation StationRequestException = Some rows /\
     rows !! "06154" = Some row /\
     Wind.name row = None /\ Wind.country row = None /\ Wind.status row = None /\
     Wind.row_total_wind_observations row = 1) /\
  (exists rows row,
     Wind.get_wind_stations_csv one_wind_observation (StationFeatures [details_06019])
       = Some rows /\
     rows !! "06154" = Some row /\
     Wind.name row = None /\ Wind.country row = None /\ Wind.status row = None /\
     Wind.row_total_wind_observations row = 1) /\
  (exists rows row,
     Wind.get_wind_stations_csv one_wind_observation (StationFeatures [details_06154])
       = Some rows /\
     rows !! "06154" = Some row /\
     Wind.name row = Some "Brandelev" /\ Wind.country row = Some "DNK" /\
     Wind.status row = Some "Active" /\
     Wind.row_total_wind_observations row = 1) /\
  (exists rows row,
     Sunlight.get_sunlight_stations_csv (Features [sunshine_06019]) (Features [])
       StationRequestException = Sunlight.Exported rows /\
     rows !! "06019" = Some row /\
     Sunlight.name row = None /\ Sunlight.country row = Some "Unknown" /\
     Sunlight.status row = Some "Unknown").
Proof.
  destruct one_wind_observation_collected as [log Hcollect].
  unfold Wind.get_wind_stations_csv. rewrite Hcollect.
  repeat split.
  - eexists _, _. split; [reflexivity|]. vm_compute. repeat split.
  - eexists _, _. split; [reflexivity|]. vm_compute. repeat split.
  - eexists _, _. split; [reflexivity|]. vm_compute. repeat split.
  - eexists _, _. split; [vm_compute; reflexivity|]. vm_compute. repeat split.
Qed.

(** ** The shared skeleton *)

Lemma precipitation_is_fold_one st f :
  Precipitation.process_feature st f =
  fold_one Precipitation.default_info Precipitation.locate
    (fun _ => Precipitation.track) id st f.
Proof. reflexivity. Qed.

Lemma wind_is_fold_one p st f :
  Wind.process_feature p st f =
  fold_one Wind.default_info Wind.locate (fun a => Wind.track (fst a)) snd st (p, f).
Proof. reflexivity. Qed.

Lemma precipitation_locate_place sid c e :
  precipitation_place <$> Precipitation.locate sid c e =
  locate_place sid c (precipitation_place e).
Proof.
  destruct e. unfold Precipitation.locate, locate_place, precipitation_place. simpl.
  repeat (case_match; simplify_eq/=); reflexivity.
Qed.

Lemma wind_locate_place sid c e :
  wind_place <$> Wind.locate sid c e = locate_place sid c (wind_place e).
Proof.
  destruct e. unfold Wind.locate, locate_place, wind_place. simpl.
  repeat (case_match; simplify_eq/=); reflexivity.
Qed.

Lemma precipitation_track_place props e :
  precipitation_place (Precipitation.track props e) = precipitation_place e.
Proof.
  destruct e. unfold Precipitation.track, Precipitation.track_dates, Precipitation.track_value.
  repeat (case_match; simplify_eq/=); reflexivity.
Qed.

Lemma wind_track_place p props e :
  wind_place (Wind.track p props e) = wind_place e.
Proof.
  destruct e. unfold Wind.track, Wind.track_dates, Wind.track_speed.
  repeat (case_match; simplify_eq/=); reflexivity.
Qed.

(** ** Where the coordinates of an entry come from *)

Lemma place_step_cases sid pl f :
  coherent pl ->
  coherent (place_step sid pl f) /\
  match place_latitude pl with
  | Some _ => place_step sid pl f = pl
  | None =>
      match position_of f with
      | Some (lat, lon) =>
          place_latitude (place_step sid pl f) = Some lat /\
          place_longitude (place_step sid pl f) = Some lon
      | None => place_latitude (place_step sid pl f) = None
      end
  end.
Proof.
  unfold coherent, place_step, locate_place, position_of.
  destruct pl as [s la lo]. simpl. intros [Hs Hla].
  destruct (coords_of f) as [c|]; [destruct (lat_lon c) as [[lat lon]|]|];
    destruct s, la; simpl; intuition congruence.
Qed.

Lemma place_fold_cases sid fs : forall pl,
  coherent pl ->
  coherent (fold_left (place_step sid) fs pl) /\
  match place_latitude pl with
  | Some _ => fold_left (place_step sid) fs pl = pl
  | None =>
      match head (omap position_of fs) with
      | Some (lat, lon) =>
          place_latitude (fold_left (place_step sid) fs pl) = Some lat /\
          place_longitude (fold_left (place_step sid) fs pl) = Some lon
      | None =>
          place_latitude (fold_left (place_step sid) fs pl) = None /\
          place_longitude (fold_left (place_step sid) fs pl) = None
      end
  end.
Proof.
  induction fs as [|f fs IH]; intros pl Hpl.
  - simpl. split; [exact Hpl|]. destruct (place_latitude pl) eqn:Hla; [reflexivity|].
    split; [reflexivity|]. apply Hpl, Hla.
  - destruct (place_step_cases sid pl f Hpl) as [Hco Hstep].
    destruct (IH (place_step sid pl f) Hco) as [Hco' Hfold].
    cbn [fold_left]. split; [exact Hco'|].
    destruct (place_latitude pl) eqn:Hla.
    + rewrite Hstep in *. rewrite Hla in Hfold. exact Hfold.
    + cbn [omap list_omap]. destruct (position_of f) as [[lat lon]|].
      * destruct Hstep as [Hlat Hlon]. rewrite Hlat in Hfold.
        rewrite Hfold. simpl. auto.
      * rewrite Hstep in Hfold. exact Hfold.
Qed.

Section PlaceFacts.
Context {info A : Type}.
Variable default_info : info.
Variable locate : string -> option (list Z) -> info -> option info.
Variable track : A -> properties -> info -> info.
Variable feature_of : A -> feature.
Variable place_of : info -> place.
Hypothesis place_default : place_of default_info = Place None None None.
Hypothesis place_locate : forall sid c e,
  place_of <$> locate sid c e = locate_place sid c (place_of e).
Hypothesis place_track : forall a props e, place_of (track a props e) = place_of e.

Local Abbreviation step := (fold_one default_info locate track feature_of).
Local Abbreviation entry st sid := (default default_info (st !! sid)).

(** A feature leaves the entries of the other stations alone. *)
Lemma fold_one_other st a sid :
  station_of (feature_of a) <> Some sid -> step st a !! sid = st !! sid.
Proof.
  unfold fold_one, station_of.
  destruct (feat_properties (feature_of a)) as [props|]; [|reflexivity].
  destruct (prop_stationId props) as [sid'|]; [|reflexivity].
  intros Hne. cbn zeta.
  destruct (locate sid' (coords_of (feature_of a)) (default default_info (st !! sid')));
    apply lookup_insert_ne; congruence.
Qed.

Lemma fold_one_place st a sid :
  place_of (entry (step st a) sid) =
  if decide (station_of (feature_of a) = Some sid)
  then place_step sid (place_of (entry st sid)) (feature_of a)
  else place_of (entry st sid).
Proof.
  destruct (decide (station_of (feature_of a) = Some sid)) as [Hs|Hs].
  - unfold station_of in Hs. unfold fold_one.
    destruct (feat_properties (feature_of a)) as [props|]; [|discriminate].
    rewrite Hs. cbn zeta.
    pose proof (place_locate sid (coords_of (feature_of a))
                  (default default_info (st !! sid))) as Hloc.
    unfold place_step. rewrite <- Hloc.
    destruct (locate sid (coords_of (feature_of a)) (default default_info (st !! sid)));
      simpl; rewrite lookup_insert_eq; simpl; [apply place_track|reflexivity].
  - rewrite fold_one_other by exact Hs. reflexivity.
Qed.

Lemma fold_place l : forall st sid,
  place_of (entry (fold_left step l st) sid) =
  fold_left (place_step sid) (of_station sid (feature_of <$> l))
    (place_of (entry st sid)).
Proof.
  induction l as [|a l IH]; intros st sid; [reflexivity|].
  cbn [fold_left]. rewrite IH, fold_one_place.
  unfold of_station. rewrite fmap_cons, filter_cons.
  destruct (decide (station_of (feature_of a) = Some sid)); reflexivity.
Qed.

(** From the empty mapping, the coordinates of a station are those of
    its first feature that carries a position. *)
Lemma fold_coordinates l sid :
  let pl := place_of (entry (fold_left step l ∅) sid) in
  coherent pl /\
  (place_latitude pl, place_longitude pl) =
  match first_position sid (feature_of <$> l) with
  | Some (lat, lon) => (Some lat, Some lon)
  | None => (None, None)
  end.
Proof.
  intros pl. subst pl. rewrite fold_place, lookup_empty. simpl.
  rewrite place_default.
  destruct (place_fold_cases sid (of_station sid (feature_of <$> l))
              (Place None None None)) as [Hco Hfold]; [split; reflexivity|].
  split; [exact Hco|]. simpl in Hfold. unfold first_position.
  destruct (head (omap position_of (of_station sid (feature_of <$> l)))) as [[lat lon]|];
    destruct Hfold as [-> ->]; reflexivity.
Qed.

(** Coordinates that are set stay as they are. *)
Lemma fold_keeps_coordinates l a sid lat :
  let st := fold_left step l ∅ in
  place_latitude (place_of (entry st sid)) = Some lat ->
  place_of (entry (step st a) sid) = place_of (entry st sid).
Proof.
  intros st Hlat. rewrite fold_one_place.
  destruct (decide (station_of (feature_of a) = Some sid)); [|reflexivity].
  destruct (fold_coordinates l sid) as [Hco _].
  destruct (place_step_cases sid (place_of (entry st sid)) (feature_of a) Hco)
    as [_ Hstep].
  fold st in Hstep. rewrite Hlat in Hstep. exact Hstep.
Qed.

End PlaceFacts.

Lemma first_position_app sid fs fs' :
  first_position sid (fs ++ fs') =
  match first_position sid fs with
  | Some p => Some p
  | None => first_position sid fs'
  end.
Proof.
  unfold first_position, of_station. rewrite filter_app, omap_app.
  destruct (omap position_of (filter (fun f => station_of f = Some sid) fs));
    reflexivity.
Qed.

Lemma precipitation_coordinates fs sid :
  let e := Precipitation.getitem (Precipitation.process_features fs ∅) sid in
  (Precipitation.latitude e, Precipitation.longitude e) =
  match first_position sid fs with
  | Some (lat, lon) => (Some lat, Some lon)
  | None => (None, None)
  end.
Proof.
  destruct (fold_coordinates Precipitation.default_info Precipitation.locate
              (fun _ => Precipitation.track) id precipitation_place eq_refl
              precipitation_locate_place (fun _ => precipitation_track_place) fs sid)
    as [_ H].
  rewrite list_fmap_id in H. exact H.
Qed.

Lemma wind_coordinates tagged sid :
  let e := Wind.getitem (wind_fold tagged ∅) sid in
  (Wind.latitude e, Wind.longitude e) =
  match first_position sid (snd <$> tagged) with
  | Some (lat, lon) => (Some lat, Some lon)
  | None => (None, None)
  end.
Proof.
  destruct (fold_coordinates Wind.default_info Wind.locate
              (fun a => Wind.track (fst a)) snd wind_place eq_refl
              wind_locate_place (fun a => wind_track_place (fst a)) tagged sid)
    as [_ H].
  exact H.
Qed.

Lemma precipitation_coordinates_stay fs f sid lat :
  let st := Precipitation.process_features fs ∅ in
  Precipitation.latitude (Precipitation.getitem st sid) = Some lat ->
  let e := Precipitation.getitem st sid in
  let e' := Precipitation.getitem (Precipitation.process_feature st f) sid in
  Precipitation.latitude e' = Precipitation.latitude e /\
  Precipitation.longitude e' = Precipitation.longitude e.
Proof.
  intros st Hlat e e'.
  pose proof (fold_keeps_coordinates Precipitation.default_info Precipitation.locate
                (fun _ => Precipitation.track) id precipitation_place eq_refl
                precipitation_locate_place (fun _ => precipitation_track_place)
                fs f sid lat Hlat) as H.
  injection H as _ H1 H2. split; assumption.
Qed.

Lemma wind_coordinates_stay tagged p f sid lat :
  let st := wind_fold tagged ∅ in
  Wind.latitude (Wind.getitem st sid) = Some lat ->
  let e := Wind.getitem st sid in
  let e' := Wind.getitem (Wind.process_feature p st f) sid in
  Wind.latitude e' = Wind.latitude e /\ Wind.longitude e' = Wind.longitude e.
Proof.
  intros st Hlat e e'.
  pose proof (fold_keeps_coordinates Wind.default_info Wind.locate
                (fun a => Wind.track (fst a)) snd wind_place eq_refl
                wind_locate_place (fun a => wind_track_place (fst a))
                tagged (p, f) sid lat Hlat) as H.
  injection H as _ H1 H2. split; assumption.
Qed.

(** C6.  In precipitation.py and wind.py the coordinates of a station
    are those of its first observation, in processing order, that carries
    a geometry (none while there is no such observation, so a station
    first seen without geometry is backfilled by a later observation);
    once set they stay as they are, whatever the next feature is; and two
    pages of which one holds the geometry of the station and the other
    does not give the same coordinates in both orders. *)
Theorem coordinates_are_set_once :
  (forall fs sid,
     let e := Precipitation.getitem (Precipitation.process_features fs ∅) sid in
     (Precipitation.latitude e, Precipitation.longitude e) =
     match first_position sid fs with
     | Some (lat, lon) => (Some lat, Some lon)
     | None => (None, None)
     end) /\
  (forall tagged sid,
     let e := Wind.getitem (wind_fold tagged ∅) sid in
     (Wind.latitude e, Wind.longitude e) =
     match first_position sid (snd <$> tagged) with
     | Some (lat, lon) => (Some lat, Some lon)
     | None => (None, None)
     end) /\
  (forall fs f sid lat,
     let st := Precipitation.process_features fs ∅ in
     Precipitation.latitude (Precipitation.getitem st sid) = Some lat ->
     Precipitation.latitude (Precipitation.getitem (Precipitation.process_feature st f) sid)
       = Precipitation.latitude (Precipitation.getitem st sid) /\
     Precipitation.longitude (Precipitation.getitem (Precipitation.process_feature st f) sid)
       = Precipitation.longitude (Precipitation.getitem st sid)) /\
  (forall tagged p f sid lat,
     let st := wind_fold tagged ∅ in
     Wind.latitude (Wind.getitem st sid) = Some lat ->
     Wind.latitude (Wind.getitem (Wind.process_feature p st f) sid)
       = Wind.latitude (Wind.getitem st sid) /\
     Wind.longitude (Wind.getitem (Wind.process_feature p st f) sid)
       = Wind.longitude (Wind.getitem st sid)) /\
  (forall sid with_geometry without lat lon,
     first_position sid with_geometry = Some (lat, lon) ->
     first_position sid without = None ->
     let e1 := Precipitation.getitem
                 (Precipitation.process_features (with_geometry ++ without) ∅) sid in
     let e2 := Precipitation.getitem
                 (Precipitation.process_features (without ++ with_geometry) ∅) sid in
     (Precipitation.latitude e1, Precipitation.longitude e1) = (Some lat, Some lon) /\
     (Precipitation.latitude e2, Precipitation.longitude e2) = (Some lat, Some lon)) /\
  (forall sid with_geometry without lat lon,
     first_position sid (snd <$> with_geometry) = Some (lat, lon) ->
     first_position sid (snd <$> without) = None ->
     let e1 := Wind.getitem (wind_fold (with_geometry ++ without) ∅) sid in
     let e2 := Wind.getitem (wind_fold (without ++ with_geometry) ∅) sid in
     (Wind.latitude e1, Wind.longitude e1) = (Some lat, Some lon) /\
     (Wind.latitude e2, Wind.longitude e2) = (Some lat, Some lon)).
Proof.
  split; [exact precipitation_coordinates|].
  split; [exact wind_coordinates|].
  split; [exact precipitation_coordinates_stay|].
  split; [exact wind_coordinates_stay|].
  split.
  - intros sid with_geometry without lat lon Hwith Hwithout e1 e2. subst e1 e2.
    rewrite !precipitation_coordinates, !first_position_app, Hwith, Hwithout.
    split; reflexivity.
  - intros sid with_geometry without lat lon Hwith Hwithout e1 e2. subst e1 e2.
    rewrite !wind_coordinates, !fmap_app, !first_position_app, Hwith, Hwithout.
    split; reflexivity.
Qed.

Lemma coordinates_are_set_once_witness :
  let page1 := [reading "06154" None (Some 1) None] in
  let page2 := [reading "06154" None (Some 2) (Some (55, 12))] in
  let e1 := Precipitation.getitem
              (Precipitation.process_features (page2 ++ page1) ∅) "06154" in
  let e2 := Precipitation.getitem
              (Precipitation.process_features (page1 ++ page2) ∅) "06154" in
  (Precipitation.latitude e1, Precipitation.longitude e1) = (Some 55, Some 12) /\
  (Precipitation.latitude e2, Precipitation.longitude e2) = (Some 55, Some 12).
Proof.
  apply (proj1 (proj2 (proj2 (proj2 (proj2 coordinates_are_set_once))))); reflexivity.
Defined.

(** ** First and last dates *)

(** The order of the date comparisons: [String.ltb] is the strict part of
    the lexicographic order [String.le] on the bytes of the strings. *)
Lemma ltb_le a b : String.ltb a b = true -> String.le a b.
Proof.
  unfold String.ltb, String.le, String.leb.
  destruct (String.compare a b); intros H; try discriminate; exact I.
Qed.

Lemma ltb_false_le a b : String.ltb a b = false -> String.le b a.
Proof.
  unfold String.ltb, String.le, String.leb. rewrite (String.compare_antisym a b).
  destruct (String.compare b a); simpl; intros H; try discriminate; exact I.
Qed.

(** [earliest] keeps a lower bound of what it has seen, [latest] an
    upper bound. *)
Lemma earliest_fold ds : forall acc,
  Forall (fun d => d <> "") ds ->
  (forall a, acc = Some a -> a <> "") ->
  match fold_left (fun x d => earliest d x) ds acc with
  | None => ds = [] /\ acc = None
  | Some m =>
      m <> "" /\ (acc = Some m \/ m ∈ ds) /\
      (forall d, d ∈ ds -> String.le m d) /\
      (forall a, acc = Some a -> String.le m a)
  end.
Proof.
  induction ds as [|d ds IH]; intros acc Hds Hacc.
  - simpl. destruct acc as [a|]; [|auto].
    split; [apply Hacc; reflexivity|]. split; [auto|].
    split; [intros d Hd; inversion Hd|]. intros a' [= ->]. reflexivity.
  - apply Forall_cons in Hds as [Hd Hds]. cbn [fold_left].
    assert (exists m, earliest d acc = Some m /\ m <> "" /\
              (acc = Some m \/ m = d) /\ String.le m d /\
              (forall a, acc = Some a -> String.le m a)) as (m & Hm & Hne & Hin & Hmd & Hma).
    { unfold earliest, falsy. destruct acc as [a|].
      - rewrite bool_decide_eq_false_2 by (apply Hacc; reflexivity). simpl.
        destruct (String.ltb d a) eqn:Hlt.
        + exists d. repeat split; auto. intros a' [= ->]. apply ltb_le, Hlt.
        + exists a. repeat split; auto.
          * apply ltb_false_le, Hlt.
          * intros a' [= ->]. reflexivity.
      - exists d. repeat split; auto. discriminate. }
    specialize (IH (earliest d acc) Hds). rewrite Hm in IH |- *.
    specialize (IH ltac:(intros a [= <-]; exact Hne)).
    destruct (fold_left (fun x d0 => earliest d0 x) ds (Some m)) as [m'|];
      [|destruct IH; discriminate].
    destruct IH as (Hne' & Hin' & Hall & Hle). split; [exact Hne'|].
    assert (String.le m' m) as Hm'm by (apply Hle; reflexivity).
    split; [|split].
    + destruct Hin' as [[= ->]|Hin'].
      * destruct Hin as [Hin| ->]; [left; exact Hin|right; left].
      * right. right. exact Hin'.
    + intros d' [->|Hd']%elem_of_cons; [etransitivity; eassumption|auto].
    + intros a Ha. etransitivity; [exact Hm'm|auto].
Qed.

Lemma latest_fold ds : forall acc,
  Forall (fun d => d <> "") ds ->
  (forall a, acc = Some a -> a <> "") ->
  match fold_left (fun x d => latest d x) ds acc with
  | None => ds = [] /\ acc = None
  | Some m =>
      m <> "" /\ (acc = Some m \/ m ∈ ds) /\
      (forall d, d ∈ ds -> String.le d m) /\
      (forall a, acc = Some a -> String.le a m)
  end.
Proof.
  induction ds as [|d ds IH]; intros acc Hds Hacc.
  - simpl. destruct acc as [a|]; [|auto].
    split; [apply Hacc; reflexivity|]. split; [auto|].
    split; [intros d Hd; inversion Hd|]. intros a' [= ->]. reflexivity.
  - apply Forall_cons in Hds as [Hd Hds]. cbn [fold_left].
    assert (exists m, latest d acc = Some m /\ m <> "" /\
              (acc = Some m \/ m = d) /\ String.le d m /\
              (forall a, acc = Some a -> String.le a m)) as (m & Hm & Hne & Hin & Hmd & Hma).
    { unfold latest, falsy. destruct acc as [a|].
      - rewrite bool_decide_eq_false_2 by (apply Hacc; reflexivity). simpl.
        destruct (String.ltb a d) eqn:Hlt.
        + exists d. repeat split; auto. intros a' [= ->]. apply ltb_le, Hlt.
        + exists a. repeat split; auto.
          * apply ltb_false_le, Hlt.
          * intros a' [= ->]. reflexivity.
      - exists d. repeat split; auto. discriminate. }
    specialize (IH (latest d acc) Hds). rewrite Hm in IH |- *.
    specialize (IH ltac:(intros a [= <-]; exact Hne)).
    destruct (fold_left (fun x d0 => latest d0 x) ds (Some m)) as [m'|];
      [|destruct IH; discriminate].
    destruct IH as (Hne' & Hin' & Hall & Hle). split; [exact Hne'|].
    assert (String.le m m') as Hm'm by (apply Hle; reflexivity).
    split; [|split].
    + destruct Hin' as [[= ->]|Hin'].
      * destruct Hin as [Hin| ->]; [left; exact Hin|right; left].
      * right. right. exact Hin'.
    + intros d' [->|Hd']%elem_of_cons; [etransitivity; eassumption|auto].
    + intros a Ha. etransitivity; [|exact Hm'm]. auto.
Qed.

Lemma seen_date_of f props dates :
  feat_properties f = Some props ->
  seen (prop_from props) dates =
  match date_of f with
  | Some d => (earliest d (fst dates), latest d (snd dates))
  | None => dates
  end.
Proof.
  intros Hp. unfold seen, date_of. rewrite Hp.
  destruct (prop_from props) as [d|]; [|reflexivity].
  destruct (bool_decide (d = "")); reflexivity.
Qed.

Lemma date_of_not_empty f d : date_of f = Some d -> d <> "".
Proof.
  unfold date_of. destruct (feat_properties f) as [props|]; [|discriminate].
  destruct (prop_from props) as [d'|]; [|discriminate].
  destruct (bool_decide (d' = "")) eqn:Hd; [discriminate|].
  intros [= <-]. apply bool_decide_eq_false in Hd. exact Hd.
Qed.

Lemma omap_dates_not_empty fs : Forall (fun d => d <> "") (omap date_of fs).
Proof.
  apply Forall_forall. intros d Hd.
  apply list_elem_of_omap in Hd as (f & _ & Hf). exact (date_of_not_empty f d Hf).
Qed.

(** On well-formed features the placing lines never raise: every
    feature of the station is folded. *)
Lemma locate_place_well_formed sid pl f :
  well_formed f = true -> is_Some (locate_place sid (coords_of f) pl).
Proof.
  unfold well_formed, locate_place, coords_of. intros Hwf.
  destruct pl as [s la lo].
  destruct (feat_coordinates f) as [[|lon [|lat cs]]|]; try discriminate;
    destruct s, la; simpl; eauto.
Qed.

Lemma folded_well_formed sid fs : forall pl,
  Forall (fun f => well_formed f = true) fs ->
  folded sid pl fs = of_station sid fs.
Proof.
  induction fs as [|f fs IH]; intros pl Hwf; [reflexivity|].
  apply Forall_cons in Hwf as [Hf Hwf].
  cbn [folded]. unfold of_station. rewrite filter_cons.
  destruct (decide (station_of f = Some sid)); [|apply IH, Hwf].
  destruct (locate_place_well_formed sid pl f Hf) as [pl' ->].
  f_equal. apply IH, Hwf.
Qed.

Section DateFacts.
Context {info A : Type}.
Variable default_info : info.
Variable locate : string -> option (list Z) -> info -> option info.
Variable track : A -> properties -> info -> info.
Variable feature_of : A -> feature.
Variable place_of : info -> place.
Variable dates : info -> option string * option string.
Hypothesis place_default : place_of default_info = Place None None None.
Hypothesis place_locate : forall sid c e,
  place_of <$> locate sid c e = locate_place sid c (place_of e).
Hypothesis place_track : forall a props e, place_of (track a props e) = place_of e.
Hypothesis dates_default : dates default_info = (None, None).
Hypothesis dates_locate : forall sid c e e',
  locate sid c e = Some e' -> dates e' = dates e.
Hypothesis dates_track : forall a props e,
  dates (track a props e) = seen (prop_from props) (dates e).

Local Abbreviation step := (fold_one default_info locate track feature_of).
Local Abbreviation entry st sid := (default default_info (st !! sid)).
Local Abbreviation note :=
  (fun (ds : option string * option string) d => (earliest d (fst ds), latest d (snd ds))).

(** What a feature of the station does to the place and to the dates
    of its entry. *)
Lemma fold_one_folded st a sid :
  station_of (feature_of a) = Some sid ->
  match locate_place sid (coords_of (feature_of a)) (place_of (entry st sid)) with
  | Some pl' =>
      place_of (entry (step st a) sid) = pl' /\
      dates (entry (step st a) sid) =
      match date_of (feature_of a) with
      | Some d => note (dates (entry st sid)) d
      | None => dates (entry st sid)
      end
  | None => entry (step st a) sid = entry st sid
  end.
Proof.
  intros Hs. unfold station_of in Hs. unfold fold_one.
  destruct (feat_properties (feature_of a)) as [props|] eqn:Hp; [|discriminate].
  rewrite Hs. cbn zeta.
  rewrite <- (place_locate sid (coords_of (feature_of a)) (entry st sid)).
  destruct (locate sid (coords_of (feature_of a)) (entry st sid)) as [e'|] eqn:He';
    simpl; rewrite lookup_insert_eq; simpl; [|reflexivity].
  split; [apply place_track|].
  rewrite dates_track, (dates_locate _ _ _ _ He'). apply seen_date_of, Hp.
Qed.

Lemma fold_dates l : forall st sid,
  dates (entry (fold_left step l st) sid) =
  fold_left note
    (omap date_of (folded sid (place_of (entry st sid)) (feature_of <$> l)))
    (dates (entry st sid)).
Proof.
  induction l as [|a l IH]; intros st sid; [reflexivity|].
  cbn [fold_left]. rewrite IH, fmap_cons. cbn [folded].
  destruct (decide (station_of (feature_of a) = Some sid)) as [Hs|Hs].
  - pose proof (fold_one_folded st a sid Hs) as H.
    destruct (locate_place sid (coords_of (feature_of a)) (place_of (entry st sid)))
      as [pl'|].
    + destruct H as [-> ->]. cbn [omap list_omap].
      destruct (date_of (feature_of a)); reflexivity.
    + rewrite H. reflexivity.
  - rewrite (fold_one_other default_info locate track feature_of) by exact Hs.
    reflexivity.
Qed.

(** From the empty mapping, the first and the last date of a station
    are the least and the greatest of the dates of its folded features. *)
Lemma fold_first_last l sid :
  let ds := folded_dates sid (feature_of <$> l) in
  let e := entry (fold_left step l ∅) sid in
  (ds = [] -> dates e = (None, None)) /\
  (ds <> [] ->
   exists lo hi,
     dates e = (Some lo, Some hi) /\ lo ∈ ds /\ hi ∈ ds /\
     forall d, d ∈ ds -> String.le lo d /\ String.le d hi).
Proof.
  intros ds e. subst e. rewrite (fold_dates l ∅ sid), lookup_empty. simpl.
  rewrite dates_default, place_default. fold (folded_dates sid (feature_of <$> l)).
  fold ds.
  assert (forall a b,
            fold_left (fun x d => (earliest d (fst x), latest d (snd x))) ds (a, b) =
            (fold_left (fun x d => earliest d x) ds a,
             fold_left (fun x d => latest d x) ds b)) as ->.
  { generalize ds. intros l'. induction l' as [|d l' IH]; intros a b; [reflexivity|].
    simpl. apply IH. }
  pose proof (earliest_fold ds None (omap_dates_not_empty _)
                ltac:(discriminate)) as Hlo.
  pose proof (latest_fold ds None (omap_dates_not_empty _)
                ltac:(discriminate)) as Hhi.
  split.
  - intros ->. reflexivity.
  - intros Hne.
    destruct (fold_left (fun x d => earliest d x) ds None) as [lo|];
      [|destruct Hlo; contradiction].
    destruct (fold_left (fun x d => latest d x) ds None) as [hi|];
      [|destruct Hhi; contradiction].
    destruct Hlo as (_ & [Hlo|Hlo] & Hlo_le & _); [discriminate|].
    destruct Hhi as (_ & [Hhi|Hhi] & Hhi_le & _); [discriminate|].
    exists lo, hi. repeat split; auto.
Qed.

End DateFacts.

Lemma wind_locate_total sid f e :
  well_formed f = true -> is_Some (Wind.locate sid (coords_of f) e).
Proof.
  unfold well_formed, coords_of, Wind.locate. intros Hwf.
  destruct (feat_coordinates f) as [[|lon [|lat cs]]|]; try discriminate;
    simpl; repeat case_match; eauto.
Qed.

Lemma precipitation_locate_dates sid c e e' :
  Precipitation.locate sid c e = Some e' -> precipitation_dates e' = precipitation_dates e.
Proof.
  intros H. apply precipitation_locate_keeps in H as (_ & Hf & Hl & _).
  unfold precipitation_dates. rewrite Hf, Hl. reflexivity.
Qed.

Lemma wind_locate_dates sid c e e' :
  Wind.locate sid c e = Some e' -> wind_dates e' = wind_dates e.
Proof.
  unfold Wind.locate. intros H.
  repeat case_match; simplify_eq; reflexivity.
Qed.

Lemma precipitation_track_dates props e :
  precipitation_dates (Precipitation.track props e) =
  seen (prop_from props) (precipitation_dates e).
Proof.
  destruct e. unfold Precipitation.track, Precipitation.track_dates,
    Precipitation.track_value, seen.
  repeat (case_match; simplify_eq/=); reflexivity.
Qed.

Lemma wind_track_dates p props e :
  wind_dates (Wind.track p props e) = seen (prop_from props) (wind_dates e).
Proof.
  destruct e. unfold Wind.track, Wind.track_dates, Wind.track_speed, seen.
  repeat (case_match; simplify_eq/=); reflexivity.
Qed.

(** C9.  For every station, after the features are folded, the first
    date is the least, and the last date the greatest, of the non-empty
    ['from'] strings of the folded features of that station, in the
    lexicographic order of the strings; both are [None] when no folded
    feature of the station has such a string.  The folded features of a
    station are all its features when the geometries, where present, have
    both coordinates. *)
Theorem first_and_last_dates_are_extremes :
  (forall fs sid,
     let ds := folded_dates sid fs in
     let e := Precipitation.getitem (Precipitation.process_features fs ∅) sid in
     (ds = [] ->
      Precipitation.first_precipitation_date e = None /\
      Precipitation.last_precipitation_date e = None) /\
     (ds <> [] ->
      exists lo hi,
        Precipitation.first_precipitation_date e = Some lo /\
        Precipitation.last_precipitation_date e = Some hi /\
        lo ∈ ds /\ hi ∈ ds /\
        forall d, d ∈ ds -> String.le lo d /\ String.le d hi)) /\
  (forall tagged sid,
     let ds := folded_dates sid (snd <$> tagged) in
     let e := Wind.getitem (wind_fold tagged ∅) sid in
     (ds = [] -> Wind.first_wind_date e = None /\ Wind.last_wind_date e = None) /\
     (ds <> [] ->
      exists lo hi,
        Wind.first_wind_date e = Some lo /\ Wind.last_wind_date e = Some hi /\
        lo ∈ ds /\ hi ∈ ds /\
        forall d, d ∈ ds -> String.le lo d /\ String.le d hi)) /\
  (forall fs sid,
     Forall (fun f => well_formed f = true) fs ->
     folded_dates sid fs = dates_of sid fs).
Proof.
  split; [|split].
  - intros fs sid ds e.
    destruct (fold_first_last Precipitation.default_info Precipitation.locate
                (fun _ => Precipitation.track) id precipitation_place
                precipitation_dates eq_refl precipitation_locate_place
                (fun _ => precipitation_track_place) eq_refl
                precipitation_locate_dates
                (fun _ => precipitation_track_dates) fs sid) as [Hnone Hsome].
    rewrite list_fmap_id in Hnone, Hsome. split.
    + intros Hds. injection (Hnone Hds) as H1 H2. split; assumption.
    + intros Hds. destruct (Hsome Hds) as (lo & hi & Hd & Hlo & Hhi & Hall).
      injection Hd as H1 H2. exists lo, hi. auto.
  - intros tagged sid ds e.
    destruct (fold_first_last Wind.default_info Wind.locate
                (fun a => Wind.track (fst a)) snd wind_place wind_dates eq_refl
                wind_locate_place (fun a => wind_track_place (fst a)) eq_refl
                wind_locate_dates
                (fun a => wind_track_dates (fst a)) tagged sid) as [Hnone Hsome].
    split.
    + intros Hds. injection (Hnone Hds) as H1 H2. split; assumption.
    + intros Hds. destruct (Hsome Hds) as (lo & hi & Hd & Hlo & Hhi & Hall).
      injection Hd as H1 H2. exists lo, hi. auto.
  - intros fs sid Hwf. unfold folded_dates, dates_of.
    rewrite (folded_well_formed sid fs _ Hwf). reflexivity.
Qed.

Lemma first_and_last_dates_are_extremes_witness :
  let fs := [reading "06154" (Some "2021-03-01T00:00:00Z") (Some 1) None;
             reading "06154" (Some "2020-12-31T23:00:00Z") None (Some (55, 12));
             reading "06154" None (Some 2) None;
             reading "06019" (Some "1999-01-01T00:00:00Z") (Some 3) None] in
  (let ds := folded_dates "06154" fs in
   let e := Precipitation.getitem (Precipitation.process_features fs ∅) "06154" in
   exists lo hi,
     Precipitation.first_precipitation_date e = Some lo /\
     Precipitation.last_precipitation_date e = Some hi /\
     lo ∈ ds /\ hi ∈ ds /\
     forall d, d ∈ ds -> String.le lo d /\ String.le d hi) /\
  folded_dates "06154" fs = dates_of "06154" fs.
Proof.
  intros fs. split.
  - apply (proj1 first_and_last_dates_are_extremes fs "06154"). discriminate.
  - apply (proj2 (proj2 first_and_last_dates_are_extremes) fs "06154").
    repeat constructor.
Defined.

(** ** The merge policy of wind.py *)

Lemma fold_left_commutes {A B : Type} (f : B -> A -> B) :
  (forall b x y, f (f b x) y = f (f b y) x) ->
  forall l l', l ≡ₚ l' -> forall b, fold_left f l b = fold_left f l' b.
Proof.
  intros Hf l l' Hperm. induction Hperm as [|x l l' _ IH|x y l|l l' l'' _ IH _ IH'];
    intros b; simpl.
  - reflexivity.
  - apply IH.
  - rewrite Hf. reflexivity.
  - rewrite IH. apply IH'.
Qed.

Lemma elem_of_two_swap {A : Type} (x a b : A) : x ∈ [a; b] -> x ∈ [b; a].
Proof.
  intros [->|Hx]%elem_of_cons; [right; left|].
  apply elem_of_cons in Hx as [->|Hx]; [left|inversion Hx].
Qed.

(** The order of two dates, or of two values, does not matter. *)
Lemma earliest_commutes d1 d2 x :
  d1 <> "" -> d2 <> "" ->
  earliest d1 (earliest d2 x) = earliest d2 (earliest d1 x).
Proof.
  intros H1 H2.
  assert (forall y, (forall a, y = Some a -> a <> "") ->
            earliest d1 (earliest d2 y) = earliest d2 (earliest d1 y)) as Hgood.
  { intros y Hy.
    pose proof (earliest_fold [d2; d1] y ltac:(repeat constructor; assumption) Hy) as Ha.
    pose proof (earliest_fold [d1; d2] y ltac:(repeat constructor; assumption) Hy) as Hb.
    cbn [fold_left] in Ha, Hb.
    destruct (earliest d1 (earliest d2 y)) as [m|]; [|destruct Ha; discriminate].
    destruct (earliest d2 (earliest d1 y)) as [m'|]; [|destruct Hb; discriminate].
    destruct Ha as (_ & Hin & Hall & Hacc). destruct Hb as (_ & Hin' & Hall' & Hacc').
    f_equal. apply (anti_symm String.le).
    - destruct Hin' as [Hy'|Hin']; [apply Hacc, Hy'|apply Hall, elem_of_two_swap, Hin'].
    - destruct Hin as [Hy'|Hin]; [apply Hacc', Hy'|apply Hall', elem_of_two_swap, Hin]. }
  destruct x as [a|]; [|apply Hgood; discriminate].
  destruct (decide (a = "")) as [->|Ha]; [|apply Hgood; congruence].
  change (earliest d2 (Some "")) with (earliest d2 None).
  change (earliest d1 (Some "")) with (earliest d1 None).
  apply Hgood. discriminate.
Qed.

Lemma latest_commutes d1 d2 x :
  d1 <> "" -> d2 <> "" ->
  latest d1 (latest d2 x) = latest d2 (latest d1 x).
Proof.
  intros H1 H2.
  assert (forall y, (forall a, y = Some a -> a <> "") ->
            latest d1 (latest d2 y) = latest d2 (latest d1 y)) as Hgood.
  { intros y Hy.
    pose proof (latest_fold [d2; d1] y ltac:(repeat constructor; assumption) Hy) as Ha.
    pose proof (latest_fold [d1; d2] y ltac:(repeat constructor; assumption) Hy) as Hb.
    cbn [fold_left] in Ha, Hb.
    destruct (latest d1 (latest d2 y)) as [m|]; [|destruct Ha; discriminate].
    destruct (latest d2 (latest d1 y)) as [m'|]; [|destruct Hb; discriminate].
    destruct Ha as (_ & Hin & Hall & Hacc). destruct Hb as (_ & Hin' & Hall' & Hacc').
    f_equal. apply (anti_symm String.le).
    - destruct Hin as [Hy'|Hin]; [apply Hacc', Hy'|apply Hall', elem_of_two_swap, Hin].
    - destruct Hin' as [Hy'|Hin']; [apply Hacc, Hy'|apply Hall, elem_of_two_swap, Hin']. }
  destruct x as [a|]; [|apply Hgood; discriminate].
  destruct (decide (a = "")) as [->|Ha]; [|apply Hgood; congruence].
  change (latest d2 (Some "")) with (latest d2 None).
  change (latest d1 (Some "")) with (latest d1 None).
  apply Hgood. discriminate.
Qed.

Lemma lower_commutes v w m : lower v (lower w m) = lower w (lower v m).
Proof.
  unfold lower. destruct m as [x|]; repeat case_match; simplify_eq; f_equal; lia.
Qed.

Lemma higher_commutes v w m : higher v (higher w m) = higher w (higher v m).
Proof.
  unfold higher. destruct m as [x|]; repeat case_match; simplify_eq; f_equal; lia.
Qed.

Lemma seen_commutes f1 f2 ds : seen f1 (seen f2 ds) = seen f2 (seen f1 ds).
Proof.
  unfold seen. destruct f1 as [d1|], f2 as [d2|]; try reflexivity.
  destruct (bool_decide (d1 = "")) eqn:H1, (bool_decide (d2 = "")) eqn:H2;
    try reflexivity.
  apply bool_decide_eq_false in H1, H2. simpl.
  rewrite (earliest_commutes d1 d2), (latest_commutes d1 d2) by assumption.
  reflexivity.
Qed.

(** The rest of the body of wind.py, field by field. *)
Lemma wind_track_fields p props r :
  Wind.track p props r =
  let ds := seen (prop_from props) (Wind.first_wind_date r, Wind.last_wind_date r) in
  let speed := match prop_value props with
               | Some v => if Wind.is_speed p then Some v else None
               | None => None
               end in
  let bump (q : Wind.wind_param) (n : Z) := if bool_decide (p = q) then n + 1 else n in
  Wind.Info (Wind.stationId r) (Wind.latitude r) (Wind.longitude r) (Wind.meta r)
    ({[Wind.param_id p]} ∪ Wind.wind_parameters_seen r)
    (Wind.total_wind_observations r + 1)
    (bump Wind.mean_wind_speed (Wind.mean_wind_speed_obs r))
    (bump Wind.max_wind_speed_3sec (Wind.max_wind_speed_3sec_obs r))
    (bump Wind.max_wind_speed_10min (Wind.max_wind_speed_10min_obs r))
    (bump Wind.mean_wind_dir (Wind.mean_wind_dir_obs r))
    (bump Wind.mean_wind_dir_min0 (Wind.mean_wind_dir_min0_obs r))
    (fst ds) (snd ds)
    (match speed with Some v => higher v (Wind.max_wind_speed_recorded r)
                    | None => Wind.max_wind_speed_recorded r end)
    (match speed with Some v => lower v (Wind.min_wind_speed_recorded r)
                    | None => Wind.min_wind_speed_recorded r end).
Proof.
  unfold Wind.track, Wind.track_speed, Wind.track_dates, seen.
  destruct (prop_from props) as [d|]; [destruct (bool_decide (d = ""))|];
    destruct (prop_value props) as [v|]; try destruct (Wind.is_speed p);
    reflexivity.
Qed.

Lemma wind_track_commutes p1 props1 p2 props2 r :
  Wind.track p1 props1 (Wind.track p2 props2 r) =
  Wind.track p2 props2 (Wind.track p1 props1 r).
Proof.
  rewrite (wind_track_fields p1 props1 (Wind.track p2 props2 r)).
  rewrite (wind_track_fields p2 props2 (Wind.track p1 props1 r)).
  rewrite (wind_track_fields p2 props2 r), (wind_track_fields p1 props1 r).
  cbn zeta.
  cbn [Wind.stationId Wind.latitude Wind.longitude Wind.meta Wind.wind_parameters_seen
       Wind.total_wind_observations Wind.mean_wind_speed_obs
       Wind.max_wind_speed_3sec_obs Wind.max_wind_speed_10min_obs
       Wind.mean_wind_dir_obs Wind.mean_wind_dir_min0_obs Wind.first_wind_date
       Wind.last_wind_date Wind.max_wind_speed_recorded Wind.min_wind_speed_recorded].
  rewrite <- !surjective_pairing.
  rewrite (seen_commutes (prop_from props1) (prop_from props2)).
  f_equal.
  - apply set_eq. intros x. rewrite !elem_of_union. tauto.
  - repeat case_bool_decide; lia.
  - repeat case_bool_decide; lia.
  - repeat case_bool_decide; lia.
  - repeat case_bool_decide; lia.
  - repeat case_bool_decide; lia.
  - repeat case_match; try reflexivity; apply higher_commutes.
  - repeat case_match; try reflexivity; apply lower_commutes.
Qed.

Lemma wind_act_commutes r a b :
  wind_act (wind_act r a) b = wind_act (wind_act r b) a.
Proof.
  unfold wind_act.
  destruct (feat_properties (snd a)), (feat_properties (snd b)); try reflexivity.
  apply wind_track_commutes.
Qed.

(** ** Everything but the position of a station is order-free *)

Lemma wind_rest_locate sid c e e' :
  Wind.locate sid c e = Some e' -> wind_rest e' = wind_rest e.
Proof.
  unfold Wind.locate. intros H.
  repeat case_match; simplify_eq; reflexivity.
Qed.

Lemma wind_rest_track p props e :
  wind_rest (Wind.track p props e) = Wind.track p props (wind_rest e).
Proof.
  rewrite !wind_track_fields. reflexivity.
Qed.

Lemma wind_getitem_insert st sid e : Wind.getitem (<[sid := e]> st) sid = e.
Proof. unfold Wind.getitem. rewrite lookup_insert_eq. reflexivity. Qed.

Lemma wind_process_other p st f sid :
  station_of f <> Some sid -> Wind.process_feature p st f !! sid = st !! sid.
Proof.
  intros Hs.
  apply (fold_one_other Wind.default_info Wind.locate (fun a => Wind.track (fst a)) snd
           st (p, f) sid Hs).
Qed.

Lemma wind_process_rest p st f sid :
  well_formed f = true ->
  wind_rest (Wind.getitem (Wind.process_feature p st f) sid) =
  if decide (station_of f = Some sid)
  then wind_act (wind_rest (Wind.getitem st sid)) (p, f)
  else wind_rest (Wind.getitem st sid).
Proof.
  intros Hwf. destruct (decide (station_of f = Some sid)) as [Hs|Hs].
  - unfold station_of in Hs. unfold Wind.process_feature, wind_act. simpl.
    destruct (feat_properties f) as [props|]; [|discriminate].
    rewrite Hs. cbn zeta.
    destruct (wind_locate_total sid f (Wind.getitem st sid) Hwf) as [e' He'].
    rewrite He', wind_getitem_insert, wind_rest_track, (wind_rest_locate _ _ _ _ He').
    reflexivity.
  - unfold Wind.getitem. rewrite wind_process_other by exact Hs. reflexivity.
Qed.

Lemma wind_fold_rest tagged : forall st sid,
  Forall (fun pf => well_formed (snd pf) = true) tagged ->
  wind_rest (Wind.getitem (wind_fold tagged st) sid) =
  fold_left wind_act (filter (fun pf => station_of (snd pf) = Some sid) tagged)
    (wind_rest (Wind.getitem st sid)).
Proof.
  induction tagged as [|[p f] tagged IH]; intros st sid Hwf; [reflexivity|].
  apply Forall_cons in Hwf as [Hf Hwf]. simpl in Hf.
  unfold wind_fold. cbn [fold_left fst snd]. fold (wind_fold tagged).
  rewrite (IH _ _ Hwf), (wind_process_rest _ _ _ _ Hf), filter_cons. simpl.
  destruct (decide (station_of f = Some sid)); reflexivity.
Qed.

(** A well-formed feature of a station gives its entry a station id. *)
Lemma place_step_station sid pl f :
  well_formed f = true ->
  place_station (place_step sid pl f) = Some (default sid (place_station pl)).
Proof.
  unfold well_formed, place_step, locate_place, coords_of. intros Hwf.
  destruct pl as [s la lo].
  destruct (feat_coordinates f) as [[|lon [|lat cs]]|]; try discriminate;
    destruct s, la; reflexivity.
Qed.

Lemma place_fold_station sid fs : forall pl,
  Forall (fun f => well_formed f = true) fs ->
  place_station (fold_left (place_step sid) fs pl) =
  match fs with
  | [] => place_station pl
  | _ => Some (default sid (place_station pl))
  end.
Proof.
  induction fs as [|f fs IH]; intros pl Hwf; [reflexivity|].
  apply Forall_cons in Hwf as [Hf Hwf]. cbn [fold_left].
  rewrite (IH _ Hwf), (place_step_station sid pl f Hf).
  destruct fs; reflexivity.
Qed.

Lemma wind_fold_station tagged sid :
  Forall (fun pf => well_formed (snd pf) = true) tagged ->
  Wind.stationId (Wind.getitem (wind_fold tagged ∅) sid) =
  match of_station sid (snd <$> tagged) with
  | [] => None
  | _ => Some sid
  end.
Proof.
  intros Hwf.
  pose proof (fold_place Wind.default_info Wind.locate (fun a => Wind.track (fst a)) snd
                wind_place wind_locate_place (fun a => wind_track_place (fst a))
                tagged ∅ sid) as H.
  apply (f_equal place_station) in H. rewrite place_fold_station in H.
  - rewrite lookup_empty in H. exact H.
  - apply Forall_forall. intros f Hf. unfold of_station in Hf.
    apply list_elem_of_filter in Hf as [_ Hf].
    apply list_elem_of_fmap in Hf as (pf & -> & Hpf).
    rewrite Forall_forall in Hwf. apply Hwf, Hpf.
Qed.

(** The stations of the mapping are those it had and those of the
    features. *)
Lemma wind_process_is_Some p st f sid :
  is_Some (Wind.process_feature p st f !! sid) <->
  is_Some (st !! sid) \/ station_of f = Some sid.
Proof.
  destruct (decide (station_of f = Some sid)) as [Hs|Hs].
  - split; [auto|]. intros _. unfold station_of in Hs. unfold Wind.process_feature.
    destruct (feat_properties f) as [props|]; [|discriminate].
    rewrite Hs. cbn zeta.
    destruct (Wind.locate sid (coords_of f) (Wind.getitem st sid));
      rewrite lookup_insert_eq; eauto.
  - rewrite wind_process_other by exact Hs. tauto.
Qed.

Lemma wind_fold_is_Some tagged : forall st sid,
  is_Some (wind_fold tagged st !! sid) <->
  is_Some (st !! sid) \/ exists pf, pf ∈ tagged /\ station_of (snd pf) = Some sid.
Proof.
  induction tagged as [|[p f] tagged IH]; intros st sid.
  - simpl. split; [auto|]. intros [H|(pf & Hpf & _)]; [exact H|inversion Hpf].
  - unfold wind_fold. cbn [fold_left fst snd]. fold (wind_fold tagged).
    rewrite IH, wind_process_is_Some. split.
    + intros [[H|H]|(pf & Hpf & Hs)]; [auto| |].
      * right. exists (p, f). split; [left|exact H].
      * right. exists pf. split; [right; exact Hpf|exact Hs].
    + intros [H|(pf & Hpf & Hs)]; [auto|].
      apply elem_of_cons in Hpf as [->|Hpf]; [auto|].
      right. exists pf. auto.
Qed.

Lemma forget_position_rest e :
  forget_position e = Wind.set_place (Wind.stationId e) None None (wind_rest e).
Proof. reflexivity. Qed.

Lemma wind_info_parts e :
  e = Wind.set_place (Wind.stationId e) (Wind.latitude e) (Wind.longitude e)
        (forget_position e).
Proof. destruct e. reflexivity. Qed.

Lemma same_emptiness {A B : Type} (l l' : list A) (x y : B) :
  l ≡ₚ l' ->
  match l with [] => x | _ => y end = match l' with [] => x | _ => y end.
Proof.
  intros Hperm. apply Permutation_length in Hperm.
  destruct l, l'; simpl in Hperm; try discriminate; reflexivity.
Qed.

(** Two orders of the same well-formed features give entries that
    differ in their coordinates at most. *)
Lemma wind_order_free tagged tagged' sid :
  tagged ≡ₚ tagged' ->
  Forall (fun pf => well_formed (snd pf) = true) tagged ->
  forget_position <$> (wind_fold tagged ∅ !! sid) =
  forget_position <$> (wind_fold tagged' ∅ !! sid).
Proof.
  intros Hperm Hwf.
  assert (Forall (fun pf => well_formed (snd pf) = true) tagged') as Hwf'
    by (rewrite <- Hperm; exact Hwf).
  assert (forget_position (Wind.getitem (wind_fold tagged ∅) sid) =
          forget_position (Wind.getitem (wind_fold tagged' ∅) sid)) as Hentry.
  { rewrite !forget_position_rest. f_equal.
    - rewrite !wind_fold_station by assumption.
      apply same_emptiness. unfold of_station. rewrite Hperm. reflexivity.
    - rewrite !wind_fold_rest by assumption.
      apply (fold_left_commutes wind_act wind_act_commutes).
      rewrite Hperm. reflexivity. }
  pose proof (wind_fold_is_Some tagged ∅ sid) as Hdom.
  pose proof (wind_fold_is_Some tagged' ∅ sid) as Hdom'.
  unfold Wind.getitem in Hentry.
  destruct (wind_fold tagged ∅ !! sid) as [e|] eqn:He;
    destruct (wind_fold tagged' ∅ !! sid) as [e'|] eqn:He'; simpl in *.
  - f_equal. exact Hentry.
  - exfalso. destruct Hdom as [Hdom _].
    destruct (Hdom ltac:(eauto)) as [[x Hx]|(pf & Hpf & Hs)]; [rewrite lookup_empty in Hx; discriminate|].
    destruct Hdom' as [_ Hdom']. destruct Hdom' as [x Hx]; [|discriminate].
    right. exists pf. split; [rewrite <- Hperm; exact Hpf|exact Hs].
  - exfalso. destruct Hdom' as [Hdom' _].
    destruct (Hdom' ltac:(eauto)) as [[x Hx]|(pf & Hpf & Hs)]; [rewrite lookup_empty in Hx; discriminate|].
    destruct Hdom as [_ Hdom]. destruct Hdom as [x Hx]; [|discriminate].
    right. exists pf. split; [rewrite Hperm; exact Hpf|exact Hs].
  - reflexivity.
Qed.

(** Sources are folded as the list of their tagged features. *)
Lemma wind_fold_app tagged tagged' st :
  wind_fold (tagged ++ tagged') st = wind_fold tagged' (wind_fold tagged st).
Proof. unfold wind_fold. apply fold_left_app. Qed.

Lemma wind_features_tagged p fs : forall st,
  Wind.process_features p fs st = wind_fold ((fun f => (p, f)) <$> fs) st.
Proof.
  induction fs as [|f fs IH]; intros st; [reflexivity|].
  unfold Wind.process_features, wind_fold in *. simpl. apply IH.
Qed.

Lemma wind_sources_tagged sources : forall st,
  wind_sources sources st = wind_fold (tagged_features sources) st.
Proof.
  induction sources as [|[p fs] sources IH]; intros st; [reflexivity|].
  unfold wind_sources, tagged_features in *. cbn [fold_left fmap list_fmap concat fst snd].
  rewrite wind_fold_app, <- wind_features_tagged. apply IH.
Qed.

Lemma tagged_features_permutation sources sources' :
  sources ≡ₚ sources' -> tagged_features sources ≡ₚ tagged_features sources'.
Proof.
  unfold tagged_features.
  induction 1 as [|s l l' _ IH|s s' l|l l' l'' _ IH _ IH'];
    cbn [fmap list_fmap concat].
  - reflexivity.
  - rewrite IH. reflexivity.
  - rewrite !app_assoc. apply Permutation_app_tail, Permutation_app_comm.
  - etransitivity; eassumption.
Qed.

Lemma tagged_features_well_formed sources :
  Forall (fun s => Forall (fun f => well_formed f = true) (snd s)) sources ->
  Forall (fun pf => well_formed (snd pf) = true) (tagged_features sources).
Proof.
  unfold tagged_features. induction 1 as [|[p fs] sources Hfs _ IH];
    cbn [fmap list_fmap concat]; [constructor|].
  apply Forall_app. split; [|exact IH].
  apply Forall_fmap. simpl in Hfs. exact Hfs.
Qed.

Lemma tagged_features_app sources sources' :
  tagged_features (sources ++ sources') =
  tagged_features sources ++ tagged_features sources'.
Proof. unfold tagged_features. rewrite fmap_app, concat_app. reflexivity. Qed.

(** ** Every step widens *)

Lemma below_refl m : below m m.
Proof. intros x Hx. exists x. split; [exact Hx|lia]. Qed.

Lemma above_refl m : above m m.
Proof. intros x Hx. exists x. split; [exact Hx|lia]. Qed.

Lemma not_after_refl d : not_after d d.
Proof. intros x Hx Hne. exists x. repeat split; auto. Qed.

Lemma not_before_refl d : not_before d d.
Proof. intros x Hx Hne. exists x. repeat split; auto. Qed.

Lemma widens_refl e : widens e e.
Proof.
  unfold widens. repeat split; try lia; try reflexivity;
    auto using below_refl, above_refl, not_after_refl, not_before_refl.
Qed.

Lemma widens_trans e1 e2 e3 : widens e1 e2 -> widens e2 e3 -> widens e1 e3.
Proof.
  unfold widens.
  intros (H1 & H2 & H3 & H4 & H5 & H6 & H7 & H8 & H9 & H10 & H11)
         (K1 & K2 & K3 & K4 & K5 & K6 & K7 & K8 & K9 & K10 & K11).
  repeat split; try lia.
  - etransitivity; eassumption.
  - intros m Hm. destruct (H8 m Hm) as (m' & Hm' & Hle).
    destruct (K8 m' Hm') as (m'' & Hm'' & Hle'). exists m''. split; [exact Hm''|lia].
  - intros m Hm. destruct (H9 m Hm) as (m' & Hm' & Hle).
    destruct (K9 m' Hm') as (m'' & Hm'' & Hle'). exists m''. split; [exact Hm''|lia].
  - intros d Hd Hne. destruct (H10 d Hd Hne) as (d' & Hd' & Hne' & Hle).
    destruct (K10 d' Hd' Hne') as (d'' & Hd'' & Hne'' & Hle').
    exists d''. repeat split; auto. etransitivity; eassumption.
  - intros d Hd Hne. destruct (H11 d Hd Hne) as (d' & Hd' & Hne' & Hle).
    destruct (K11 d' Hd' Hne') as (d'' & Hd'' & Hne'' & Hle').
    exists d''. repeat split; auto. etransitivity; eassumption.
Qed.

Lemma widens_same_rest e e' : wind_rest e = wind_rest e' -> widens e e'.
Proof.
  destruct e, e'. unfold wind_rest, Wind.set_place. simpl. intros H.
  injection H as -> -> -> -> -> -> -> -> -> -> -> ->.
  unfold widens. simpl. repeat split; try lia; try reflexivity;
    auto using below_refl, above_refl, not_after_refl, not_before_refl.
Qed.

Lemma earliest_not_after from_date first :
  not_after first (fst (seen from_date (first, first))).
Proof.
  unfold seen. intros d -> Hne.
  destruct from_date as [d0|]; [|exists d; auto].
  destruct (bool_decide (d0 = "")) eqn:Hd0; [exists d; auto|].
  apply bool_decide_eq_false in Hd0. simpl. unfold falsy.
  rewrite bool_decide_eq_false_2 by exact Hne. simpl.
  destruct (String.ltb d0 d) eqn:Hlt.
  - exists d0. repeat split; auto. apply ltb_le, Hlt.
  - exists d. auto.
Qed.

Lemma latest_not_before from_date last :
  not_before last (snd (seen from_date (last, last))).
Proof.
  unfold seen. intros d -> Hne.
  destruct from_date as [d0|]; [|exists d; auto].
  destruct (bool_decide (d0 = "")) eqn:Hd0; [exists d; auto|].
  apply bool_decide_eq_false in Hd0. simpl. unfold falsy.
  rewrite bool_decide_eq_false_2 by exact Hne. simpl.
  destruct (String.ltb d d0) eqn:Hlt.
  - exists d0. repeat split; auto. apply ltb_le, Hlt.
  - exists d. auto.
Qed.

Lemma seen_components from_date first last :
  fst (seen from_date (first, last)) = fst (seen from_date (first, first)) /\
  snd (seen from_date (first, last)) = snd (seen from_date (last, last)).
Proof.
  unfold seen. destruct from_date as [d|]; [|auto].
  destruct (bool_decide (d = "")); auto.
Qed.

Lemma wind_track_widens p props r : widens r (Wind.track p props r).
Proof.
  rewrite wind_track_fields. unfold widens. cbn zeta.
  cbn [Wind.wind_parameters_seen Wind.total_wind_observations Wind.mean_wind_speed_obs
       Wind.max_wind_speed_3sec_obs Wind.max_wind_speed_10min_obs
       Wind.mean_wind_dir_obs Wind.mean_wind_dir_min0_obs Wind.first_wind_date
       Wind.last_wind_date Wind.max_wind_speed_recorded Wind.min_wind_speed_recorded].
  destruct (seen_components (prop_from props) (Wind.first_wind_date r)
              (Wind.last_wind_date r)) as [-> ->].
  repeat split; try (case_bool_decide; lia); try lia.
  - apply union_subseteq_r.
  - intros m Hm. rewrite Hm. unfold lower.
    repeat case_match; simplify_eq; eexists; (split; [reflexivity|lia]).
  - intros m Hm. rewrite Hm. unfold higher.
    repeat case_match; simplify_eq; eexists; (split; [reflexivity|lia]).
  - apply earliest_not_after.
  - apply latest_not_before.
Qed.

(** One feature widens the entry of every station. *)
Lemma wind_process_widens p st f sid :
  widens (Wind.getitem st sid) (Wind.getitem (Wind.process_feature p st f) sid).
Proof.
  destruct (decide (station_of f = Some sid)) as [Hs|Hs].
  - unfold station_of in Hs. unfold Wind.process_feature.
    destruct (feat_properties f) as [props|]; [|discriminate].
    rewrite Hs. cbn zeta.
    destruct (Wind.locate sid (coords_of f) (Wind.getitem st sid)) as [e'|] eqn:He';
      rewrite wind_getitem_insert.
    + eapply widens_trans; [|apply wind_track_widens].
      apply widens_same_rest. symmetry. exact (wind_rest_locate _ _ _ _ He').
    + apply widens_refl.
  - unfold Wind.getitem. rewrite wind_process_other by exact Hs. apply widens_refl.
Qed.

Lemma wind_features_widen p fs : forall st sid,
  widens (Wind.getitem st sid) (Wind.getitem (Wind.process_features p fs st) sid).
Proof.
  induction fs as [|f fs IH]; intros st sid; [apply widens_refl|].
  unfold Wind.process_features in *. cbn [fold_left].
  eapply widens_trans; [apply wind_process_widens|apply IH].
Qed.

Lemma wind_sources_app sources sources' st :
  wind_sources (sources ++ sources') st =
  wind_sources sources' (wind_sources sources st).
Proof. unfold wind_sources. apply fold_left_app. Qed.

(** C7, as the code has it.  Take observation sources (pages with their
    parameter) whose features have well-formed geometries, and a mapping
    built by wind.py from earlier such sources.  Whatever the order in
    which the sources are processed, the final mappings have the same
    stations and agree on every field except the latitude and longitude,
    which are those of the first observation of the station, in processing
    order, that carries a geometry; the mappings are equal when that
    first position is the same in both orders.  And every source widens:
    for every station the counters and the parameter flags only grow, the
    minimum speed and the first date only go down, the maximum speed and
    the last date only go up. *)
Theorem wind_merge_is_order_free_up_to_position :
  (forall earlier sources sources',
     sources ≡ₚ sources' ->
     Forall (fun s => Forall (fun f => well_formed f = true) (snd s))
       (earlier ++ sources) ->
     let start := wind_sources earlier ∅ in
     forget_position <$> wind_sources sources start =
       forget_position <$> wind_sources sources' start /\
     ((forall sid,
         first_position sid (snd <$> tagged_features (earlier ++ sources)) =
         first_position sid (snd <$> tagged_features (earlier ++ sources'))) ->
      wind_sources sources start = wind_sources sources' start)) /\
  (forall p fs st sid,
     widens (Wind.getitem st sid) (Wind.getitem (Wind.process_features p fs st) sid)).
Proof.
  split; [|exact wind_features_widen].
  intros earlier sources sources' Hperm Hwf start. subst start.
  rewrite <- !wind_sources_app, !wind_sources_tagged.
  assert (tagged_features (earlier ++ sources) ≡ₚ tagged_features (earlier ++ sources'))
    as Htagged by (apply tagged_features_permutation; rewrite Hperm; reflexivity).
  apply tagged_features_well_formed in Hwf.
  assert (forall sid,
            forget_position <$> (wind_fold (tagged_features (earlier ++ sources)) ∅ !! sid) =
            forget_position <$> (wind_fold (tagged_features (earlier ++ sources')) ∅ !! sid))
    as Hfree by (intros sid; apply wind_order_free; assumption).
  split.
  - apply map_eq. intros sid. rewrite !lookup_fmap. apply Hfree.
  - intros Hfirst. apply map_eq. intros sid. specialize (Hfree sid).
    pose proof (wind_coordinates (tagged_features (earlier ++ sources)) sid) as Hc.
    pose proof (wind_coordinates (tagged_features (earlier ++ sources')) sid) as Hc'.
    cbn zeta in Hc, Hc'. rewrite <- Hfirst, <- Hc in Hc'. unfold Wind.getitem in Hc'.
    destruct (wind_fold (tagged_features (earlier ++ sources)) ∅ !! sid) as [e|];
      destruct (wind_fold (tagged_features (earlier ++ sources')) ∅ !! sid) as [e'|];
      simpl in *; try discriminate; [|reflexivity].
    apply (inj Some) in Hfree. injection Hc' as Hlat Hlon.
    f_equal. rewrite (wind_info_parts e), (wind_info_parts e'), Hfree, Hlat, Hlon.
    f_equal. apply (f_equal Wind.stationId) in Hfree. exact Hfree.
Qed.

Lemma wind_merge_is_order_free_up_to_position_witness :
  let start := wind_sources [] ∅ in
  forget_position <$> wind_sources [speed_page; direction_page] start =
    forget_position <$> wind_sources [direction_page; speed_page] start /\
  ((forall sid,
      first_position sid (snd <$> tagged_features ([] ++ [speed_page; direction_page])) =
      first_position sid (snd <$> tagged_features ([] ++ [direction_page; speed_page]))) ->
   wind_sources [speed_page; direction_page] start =
     wind_sources [direction_page; speed_page] start).
Proof.
  assert (Forall (fun s : Wind.wind_param * list feature =>
                    Forall (fun f => well_formed f = true) (snd s))
            ([] ++ [speed_page; direction_page])) as Hwf
    by (repeat constructor).
  exact (proj1 wind_merge_is_order_free_up_to_position []
           [speed_page; direction_page] [direction_page; speed_page]
           (perm_swap _ _ _) Hwf).
Defined.

(** C7 fails on the code: two pages of one station that carry different
    coordinates leave the coordinates of the page processed first, so the
    two orders give different mappings. *)
Lemma position_depends_on_the_order :
  [speed_page; direction_page] ≡ₚ [direction_page; speed_page] /\
  Wind.latitude <$> (wind_sources [speed_page; direction_page] ∅ !! "06154")
    = Some (Some 55) /\
  Wind.latitude <$> (wind_sources [direction_page; speed_page] ∅ !! "06154")
    = Some (Some 56) /\
  wind_sources [speed_page; direction_page] ∅ <>
    wind_sources [direction_page; speed_page] ∅.
Proof.
  assert (Wind.latitude <$> (wind_sources [speed_page; direction_page] ∅ !! "06154")
            = Some (Some 55)) as H1 by (vm_compute; reflexivity).
  assert (Wind.latitude <$> (wind_sources [direction_page; speed_page] ∅ !! "06154")
            = Some (Some 56)) as H2 by (vm_compute; reflexivity).
  split; [apply perm_swap|]. split; [exact H1|]. split; [exact H2|].
  intros Heq. rewrite Heq, H2 in H1. discriminate.
Qed.

(** Why the geometries have to be well formed: a feature with a single
    coordinate is skipped while its station has no latitude, since
    [coords[1]] raises, and is counted once the station has one, since
    [coords[1]] is not evaluated then. *)
Lemma one_coordinate_counts_depend_on_the_order :
  Wind.total_wind_observations <$>
    (wind_sources [speed_page; (Wind.mean_wind_speed, [one_coordinate])] ∅ !! "06154")
    = Some 2 /\
  Wind.total_wind_observations <$>
    (wind_sources [(Wind.mean_wind_speed, [one_coordinate]); speed_page] ∅ !! "06154")
    = Some 1.
Proof. split; vm_compute; reflexivity. Qed.

(** ** Sanity checks of the embedding *)

(** ['speed' in param_id] holds for the three speed parameters. *)
Lemma speed_parameters :
  Wind.is_speed <$> Wind.wind_parameters = [true; true; true; false; false].
Proof. reflexivity. Qed.

(** With the page size of the script, 300,000, the first page of the
    scenario is already short: one request, and page 2 is never asked
    for. *)
Lemma scenario_at_the_script_page_size :
  Precipitation.get_precipitation_stations_csv two_pages =
  Some (Run (Precipitation.process_features page_1 ∅) [0] ShortPage).
Proof.
  unfold Precipitation.get_precipitation_stations_csv, aggregate.
  apply paginate_more_fuel with (n := 1%nat); [reflexivity|].
  unfold Precipitation.max_offset. lia.
Qed.

(** String comparison is not calendar-aware: of the same instant written
    with two offsets, the later-looking string wins. *)
Lemma dates_compare_as_strings :
  earliest "2020-01-01T01:00:00+02:00" (Some "2020-01-01T00:30:00+00:00")
    = Some "2020-01-01T00:30:00+00:00" /\
  latest "2020-01-01T01:00:00+02:00" (Some "2020-01-01T00:30:00+00:00")
    = Some "2020-01-01T01:00:00+02:00".
Proof. split; reflexivity. Qed.

(** * Further properties of the scripts *)

(** ** Any run of the aggregation loop *)

Section AnyRun.
Context {Store : Type}.
Variable process_page : list feature -> Store -> Store.
Variables limit max_offset : Z.
Variable get : Z -> response.

Local Abbreviation from offset k :=
  ((fun i : nat => offset + Z.of_nat i * limit) <$> seq 0 k).

Lemma from_S offset k : from offset (S k) = offset :: from (offset + limit) k.
Proof.
  change (seq 0 (S k)) with (0%nat :: seq 1 k). rewrite fmap_cons. f_equal.
  - lia.
  - rewrite <- seq_shift, <- list_fmap_compose. apply list_fmap_ext.
    intros _ i _. simpl. lia.
Qed.

Lemma from_1 offset : from offset 1 = [offset].
Proof. rewrite from_S. reflexivity. Qed.

Lemma from_0_last offset : offset + Z.of_nat 0 * limit = offset.
Proof. lia. Qed.

(** A run of the loop from [offset]: what it requested, what it folded
    and why it stopped. *)
Lemma paginate_run n : forall offset st issued r,
  paginate process_page limit max_offset get n offset st issued = Some r ->
  exists k : nat,
    requests r = issued ++ from offset k /\
    store r = fold_left (fun s p => process_page p s)
                (pages_read get (from offset k)) st /\
    match left_by r with
    | CeilingReached =>
        Forall (goes_on limit get) (from offset k) /\
        max_offset <= offset + Z.of_nat k * limit
    | e =>
        exists k' : nat, k = S k' /\
          Forall (goes_on limit get) (from offset k') /\
          offset + Z.of_nat k' * limit < max_offset /\
          stops_with limit get (offset + Z.of_nat k' * limit) e
    end.
Proof.
  induction n as [|n IH]; intros offset st issued r H; [discriminate|].
  cbn [paginate] in H. destruct (offset <? max_offset) eqn:Hlt.
  - apply Z.ltb_lt in Hlt.
    assert (forall e s,
              stops_with limit get offset e -> e <> CeilingReached ->
              s = fold_left (fun s p => process_page p s) (pages_read get [offset]) st ->
              Some (Run s (issued ++ [offset]) e) = Some r ->
              exists k : nat,
                requests r = issued ++ from offset k /\
                store r = fold_left (fun s p => process_page p s)
                            (pages_read get (from offset k)) st /\
                match left_by r with
                | CeilingReached =>
                    Forall (goes_on limit get) (from offset k) /\
                    max_offset <= offset + Z.of_nat k * limit
                | e =>
                    exists k' : nat, k = S k' /\
                      Forall (goes_on limit get) (from offset k') /\
                      offset + Z.of_nat k' * limit < max_offset /\
                      stops_with limit get (offset + Z.of_nat k' * limit) e
                end) as Hstop.
    { intros e s He Hne -> [= <-]. exists 1%nat. rewrite from_1.
      split; [reflexivity|]. split; [reflexivity|]. cbn [left_by].
      destruct e; try contradiction;
        (exists 0%nat; rewrite from_0_last; repeat split; auto; constructor). }
    destruct (get offset) as [|features] eqn:Hget.
    + apply (Hstop TransportError _ Hget) in H; [exact H|discriminate|].
      unfold pages_read. simpl. rewrite Hget. reflexivity.
    + destruct features as [|f features].
      * apply (Hstop EmptyPage _ Hget) in H; [exact H|discriminate|].
        unfold pages_read. simpl. rewrite Hget. reflexivity.
      * destruct (Z.of_nat (length (f :: features)) <? limit) eqn:Hshort.
        -- apply Z.ltb_lt in Hshort.
           apply (Hstop ShortPage) in H; [exact H| |discriminate|].
           ++ exists (f :: features). auto.
           ++ unfold pages_read. simpl. rewrite Hget. reflexivity.
        -- apply Z.ltb_ge in Hshort. apply IH in H as (k & Hreq & Hstore & Hexit).
           assert (goes_on limit get offset) as Hgo
             by (exists (f :: features); auto).
           exists (S k). rewrite from_S. split; [|split].
           ++ rewrite Hreq, <- app_assoc. reflexivity.
           ++ rewrite Hstore. unfold pages_read. simpl. rewrite Hget. reflexivity.
           ++ destruct (left_by r);
                try (destruct Hexit as (k' & -> & Hall & Hk' & Hstop');
                     exists (S k'); rewrite from_S; split; [reflexivity|];
                     split; [constructor; assumption|];
                     replace (offset + Z.of_nat (S k') * limit)
                       with (offset + limit + Z.of_nat k' * limit) by lia; auto).
              destruct Hexit as [Hall Hk]. split; [constructor; assumption|]. lia.
  - apply Z.ltb_ge in Hlt. injection H as <-. exists 0%nat. simpl.
    rewrite app_nil_r. repeat split; [constructor|lia].
Qed.

End AnyRun.

Lemma offsets_NoDup limit k : limit <> 0 -> NoDup (offsets limit k).
Proof.
  intros Hne. unfold offsets. apply NoDup_fmap_2; [|apply NoDup_seq].
  intros i j Hij. nia.
Qed.

Lemma offsets_S_last limit k :
  (fun i : nat => 0 + Z.of_nat i * limit) <$> seq 0 (S k) =
  ((fun i : nat => 0 + Z.of_nat i * limit) <$> seq 0 k) ++ [0 + Z.of_nat k * limit].
Proof. rewrite seq_S, fmap_app. reflexivity. Qed.

(** X1.  Whatever the upstream answers, the offsets requested by the
    aggregation loop are [0], [limit], ..., without a repetition, and the
    mapping returned is the fold, in that order, of the non-empty pages
    served at these offsets: every page read is folded, and folded once,
    the last, short, page included. *)
Theorem every_page_read_is_folded_once :
  forall (Store : Type) (process_page : list feature -> Store -> Store)
         limit max_offset get st r,
    0 < limit ->
    aggregate process_page limit max_offset get st = Some r ->
    (exists k, requests r = offsets limit k) /\
    NoDup (requests r) /\
    store r = fold_left (fun s p => process_page p s)
                (pages_read get (requests r)) st.
Proof.
  intros Store process_page limit max_offset get st r Hpos Hrun.
  apply paginate_run in Hrun as (k & Hreq & Hstore & _).
  rewrite app_nil_l, offsets_from_zero in Hreq.
  rewrite offsets_from_zero in Hstore. rewrite Hreq. split; [eauto|].
  split; [apply offsets_NoDup; lia|exact Hstore].
Qed.

Lemma every_page_read_is_folded_once_witness :
  let r := Run (Precipitation.process_features (page_1 ++ page_2) ∅) [0; 2] ShortPage in
  (exists k, requests r = offsets 2 k) /\
  NoDup (requests r) /\
  store r = fold_left (fun s p => Precipitation.process_features p s)
              (pages_read two_pages (requests r)) ∅.
Proof.
  apply (every_page_read_is_folded_once _ Precipitation.process_features 2 10
           two_pages ∅); [lia|].
  unfold aggregate. apply paginate_more_fuel with (n := 2%nat); [reflexivity|lia].
Defined.

(** X2.  The answer to the last request decides how a run ends.  A run
    left on an empty page, a short page or a transport failure made at
    least one request; every request before the last got a page of at
    least [limit] records, the last one was below the ceiling and got the
    empty page, the short page or the failure.  A run left at the ceiling
    got such full pages for all its requests, and the next offset is at
    or beyond the ceiling. *)
Theorem last_answer_decides_the_exit :
  forall (Store : Type) (process_page : list feature -> Store -> Store)
         limit max_offset get st r,
    aggregate process_page limit max_offset get st = Some r ->
    match left_by r with
    | CeilingReached =>
        Forall (goes_on limit get) (requests r) /\
        max_offset <= Z.of_nat (length (requests r)) * limit
    | e =>
        exists earlier last,
          requests r = earlier ++ [last] /\
          Forall (goes_on limit get) earlier /\
          last < max_offset /\
          stops_with limit get last e
    end.
Proof.
  intros Store process_page limit max_offset get st r Hrun.
  apply paginate_run in Hrun as (k & Hreq & _ & Hexit). rewrite app_nil_l in Hreq.
  destruct (left_by r);
    try (destruct Hexit as (k' & -> & Hall & Hlt & Hstop);
         rewrite offsets_S_last in Hreq; eauto 10).
  destruct Hexit as [Hall Hge]. rewrite Hreq, length_fmap, length_seq.
  split; [exact Hall|lia].
Qed.

Lemma last_answer_decides_the_exit_witness :
  exists earlier last,
    [0; 2] = earlier ++ [last] /\
    Forall (goes_on 2 two_pages) earlier /\
    last < 10 /\
    stops_with 2 two_pages last ShortPage.
Proof.
  apply (last_answer_decides_the_exit _ Precipitation.process_features 2 10
           two_pages ∅
           (Run (Precipitation.process_features (page_1 ++ page_2) ∅) [0; 2] ShortPage)).
  unfold aggregate. apply paginate_more_fuel with (n := 2%nat); [reflexivity|lia].
Defined.

(** ** Any run of [fetch_month_data] *)

Section AnyFetch.
Context {R : Type}.
Variable limit : Z.
Variable get : Z -> Heating.response R.

Local Abbreviation from offset k :=
  ((fun i : nat => offset + Z.of_nat i * limit) <$> seq 0 k).

Lemma fetch_loop_run n : forall offset all_records issued r,
  Heating.fetch_loop limit get n offset all_records issued = Some r ->
  exists k : nat,
    requests r = issued ++ from offset (S k) /\
    store r = all_records ++ concat (records_read get (from offset (S k))) /\
    Forall (fetch_goes_on limit get) (from offset k) /\
    ~ fetch_goes_on limit get (offset + Z.of_nat k * limit) /\
    left_by r <> CeilingReached.
Proof.
  induction n as [|n IH]; intros offset all_records issued r H; [discriminate|].
  cbn [Heating.fetch_loop] in H.
  assert (forall e s,
            ~ fetch_goes_on limit get offset -> e <> CeilingReached ->
            s = all_records ++ concat (records_read get [offset]) ->
            Some (Run s (issued ++ [offset]) e) = Some r ->
            exists k : nat,
              requests r = issued ++ from offset (S k) /\
              store r = all_records ++ concat (records_read get (from offset (S k))) /\
              Forall (fetch_goes_on limit get) (from offset k) /\
              ~ fetch_goes_on limit get (offset + Z.of_nat k * limit) /\
              left_by r <> CeilingReached) as Hstop.
  { intros e s He Hne -> [= <-]. exists 0%nat.
    rewrite (from_1 limit), (from_0_last limit).
    repeat split; auto. }
  destruct (get offset) as [|records] eqn:Hget.
  - apply (Hstop TransportError) in H; [exact H| |discriminate|].
    + intros (page & Hpage & _). congruence.
    + unfold records_read. simpl. rewrite Hget. simpl. rewrite app_nil_r. reflexivity.
  - destruct records as [|x records].
    + apply (Hstop EmptyPage) in H; [exact H| |discriminate|].
      * intros (page & Hpage & Hne & _). congruence.
      * unfold records_read. simpl. rewrite Hget. simpl. rewrite app_nil_r. reflexivity.
    + destruct (Z.of_nat (length (x :: records)) <? limit) eqn:Hshort.
      * apply Z.ltb_lt in Hshort.
        apply (Hstop ShortPage) in H; [exact H| |discriminate|].
        -- intros (page & Hpage & _ & Hfull). rewrite Hget in Hpage.
           injection Hpage as <-. lia.
        -- unfold records_read. simpl. rewrite Hget. simpl. rewrite app_nil_r.
           reflexivity.
      * apply Z.ltb_ge in Hshort.
        apply IH in H as (k & Hreq & Hstore & Hall & Hlast & Hexit).
        assert (fetch_goes_on limit get offset) as Hgo
          by (exists (x :: records); auto).
        exists (S k). rewrite (from_S limit offset (S k)). split; [|split; [|split; [|split]]].
        -- rewrite Hreq, <- app_assoc. reflexivity.
        -- rewrite Hstore. unfold records_read. simpl. rewrite Hget. simpl.
           rewrite <- !app_assoc. reflexivity.
        -- rewrite (from_S limit offset k). constructor; assumption.
        -- replace (offset + Z.of_nat (S k) * limit)
             with (offset + limit + Z.of_nat k * limit) by lia. exact Hlast.
        -- exact Hexit.
Qed.

(** The loop ends at the first offset where the answer does not make it
    go on, if it has the fuel to get there. *)
Lemma fetch_loop_ends k : forall offset all_records issued,
  ~ fetch_goes_on limit get (offset + Z.of_nat k * limit) ->
  exists r, Heating.fetch_loop limit get (S k) offset all_records issued = Some r.
Proof.
  induction k as [|k IH]; intros offset all_records issued Hstop.
  - rewrite (from_0_last limit) in Hstop. cbn [Heating.fetch_loop].
    destruct (get offset) as [|records] eqn:Hget; [eauto|].
    destruct records as [|x records]; [eauto|].
    destruct (Z.of_nat (length (x :: records)) <? limit) eqn:Hshort; [eauto|].
    exfalso. apply Hstop. exists (x :: records). apply Z.ltb_ge in Hshort. auto.
  - remember (S k) as m. cbn [Heating.fetch_loop].
    destruct (get offset) as [|records] eqn:Hget; [eauto|].
    destruct records as [|x records]; [eauto|].
    destruct (Z.of_nat (length (x :: records)) <? limit) eqn:Hshort; [eauto|].
    subst m. apply IH.
    replace (offset + limit + Z.of_nat k * limit)
      with (offset + Z.of_nat (S k) * limit) by lia. exact Hstop.
Qed.

End AnyFetch.

(** X3.  Whatever the upstream answers, a call of [fetch_month_data] that
    returns has requested the offsets [0], [20000], ... up to the first
    answer that is a failure, empty or short, and returns the records of
    the pages read at these offsets, concatenated in that order: no
    record of a page read is dropped or repeated, and the records read
    before a failure are returned. *)
Theorem fetch_month_data_returns_the_pages_read :
  forall (R : Type) (get : Z -> Heating.response R) fuel r,
    Heating.fetch_month_data get fuel = Some r ->
    exists k : nat,
      requests r = offsets Heating.limit (S k) /\
      store r = concat (records_read get (requests r)) /\
      Forall (fetch_goes_on Heating.limit get) (offsets Heating.limit k) /\
      ~ fetch_goes_on Heating.limit get (Z.of_nat k * Heating.limit) /\
      left_by r <> CeilingReached.
Proof.
  intros R get fuel r Hrun. unfold Heating.fetch_month_data in Hrun.
  apply fetch_loop_run in Hrun as (k & Hreq & Hstore & Hall & Hlast & Hexit).
  rewrite app_nil_l in Hreq, Hstore. rewrite offsets_from_zero in Hreq, Hstore, Hall.
  exists k. rewrite Hreq. repeat split; auto.
Qed.

Lemma fetch_month_data_returns_the_pages_read_witness :
  exists k : nat,
    [0] = offsets Heating.limit (S k) /\
    [11; 12] = concat (records_read short_month [0]) /\
    Forall (fetch_goes_on Heating.limit short_month) (offsets Heating.limit k) /\
    ~ fetch_goes_on Heating.limit short_month (Z.of_nat k * Heating.limit) /\
    ShortPage <> CeilingReached.
Proof.
  apply (fetch_month_data_returns_the_pages_read Z short_month 1
           (Run [11; 12] [0] ShortPage)).
  reflexivity.
Defined.

(** X4.  [fetch_month_data] returns exactly when some offset [k * 20000]
    is answered by a failure, an empty page or a page of fewer than 20000
    records: its [while True] has no other way out. *)
Theorem fetch_month_data_returns_iff_a_page_stops :
  forall (R : Type) (get : Z -> Heating.response R),
    (exists fuel r, Heating.fetch_month_data get fuel = Some r) <->
    (exists k : nat, ~ fetch_goes_on Heating.limit get (Z.of_nat k * Heating.limit)).
Proof.
  intros R get. split.
  - intros (fuel & r & Hrun). unfold Heating.fetch_month_data in Hrun.
    apply fetch_loop_run in Hrun as (k & _ & _ & _ & Hlast & _).
    exists k. exact Hlast.
  - intros (k & Hstop). exists (S k).
    apply (fetch_loop_ends Heating.limit get k 0 [] []). exact Hstop.
Qed.

(** ** What the loops fold into an entry *)

Lemma folded_by_features {A : Type} (feature_of : A -> feature) sid l : forall pl,
  feature_of <$> folded_by feature_of sid pl l = folded sid pl (feature_of <$> l).
Proof.
  induction l as [|a l IH]; intros pl; [reflexivity|].
  rewrite fmap_cons. cbn [folded_by folded].
  destruct (decide (station_of (feature_of a) = Some sid)); [|apply IH].
  destruct (locate_place sid (coords_of (feature_of a)) pl); [|apply IH].
  rewrite fmap_cons, IH. reflexivity.
Qed.

Lemma folded_by_id sid l pl : folded_by id sid pl l = folded sid pl l.
Proof.
  rewrite <- (list_fmap_id (folded_by id sid pl l)), folded_by_features, list_fmap_id.
  reflexivity.
Qed.

Section ViewFacts.
Context {info A V : Type}.
Variable default_info : info.
Variable locate : string -> option (list Z) -> info -> option info.
Variable track : A -> properties -> info -> info.
Variable feature_of : A -> feature.
Variable place_of : info -> place.
Variable view : info -> V.
Variable upd : V -> A -> V.
Hypothesis place_locate : forall sid c e,
  place_of <$> locate sid c e = locate_place sid c (place_of e).
Hypothesis place_track : forall a props e, place_of (track a props e) = place_of e.
Hypothesis view_locate : forall sid c e e',
  locate sid c e = Some e' -> view e' = view e.
Hypothesis view_track : forall a props e,
  feat_properties (feature_of a) = Some props ->
  view (track a props e) = upd (view e) a.

Local Abbreviation step := (fold_one default_info locate track feature_of).
Local Abbreviation entry st sid := (default default_info (st !! sid)).

(** What an element of the station does to the place and to the view
    of its entry. *)
Lemma fold_one_view st a sid :
  station_of (feature_of a) = Some sid ->
  match locate_place sid (coords_of (feature_of a)) (place_of (entry st sid)) with
  | Some pl' =>
      place_of (entry (step st a) sid) = pl' /\
      view (entry (step st a) sid) = upd (view (entry st sid)) a
  | None => entry (step st a) sid = entry st sid
  end.
Proof.
  intros Hs. unfold station_of in Hs. unfold fold_one.
  destruct (feat_properties (feature_of a)) as [props|] eqn:Hp; [|discriminate].
  rewrite Hs. cbn zeta.
  rewrite <- (place_locate sid (coords_of (feature_of a)) (entry st sid)).
  destruct (locate sid (coords_of (feature_of a)) (entry st sid)) as [e'|] eqn:He';
    simpl; rewrite lookup_insert_eq; simpl; [|reflexivity].
  split; [apply place_track|].
  rewrite (view_track _ _ _ Hp), (view_locate _ _ _ _ He'). reflexivity.
Qed.

Lemma fold_view l : forall st sid,
  view (entry (fold_left step l st) sid) =
  fold_left upd (folded_by feature_of sid (place_of (entry st sid)) l)
    (view (entry st sid)).
Proof.
  induction l as [|a l IH]; intros st sid; [reflexivity|].
  cbn [fold_left]. rewrite IH. cbn [folded_by].
  destruct (decide (station_of (feature_of a) = Some sid)) as [Hs|Hs].
  - pose proof (fold_one_view st a sid Hs) as H.
    destruct (locate_place sid (coords_of (feature_of a)) (place_of (entry st sid)))
      as [pl'|].
    + destruct H as [-> ->]. reflexivity.
    + rewrite H. reflexivity.
  - rewrite (fold_one_other default_info locate track feature_of) by exact Hs.
    reflexivity.
Qed.

(** A station of which no element is folded keeps its entry. *)
Lemma fold_nothing l : forall st sid,
  folded_by feature_of sid (place_of (entry st sid)) l = [] ->
  entry (fold_left step l st) sid = entry st sid.
Proof.
  induction l as [|a l IH]; intros st sid Hnone; [reflexivity|].
  cbn [fold_left]. cbn [folded_by] in Hnone.
  destruct (decide (station_of (feature_of a) = Some sid)) as [Hs|Hs].
  - pose proof (fold_one_view st a sid Hs) as H.
    destruct (locate_place sid (coords_of (feature_of a)) (place_of (entry st sid)))
      as [pl'|]; [discriminate|].
    rewrite IH by (rewrite H; exact Hnone). exact H.
  - assert (step st a !! sid = st !! sid) as Hsame
      by (apply (fold_one_other default_info locate track feature_of); exact Hs).
    rewrite IH by (rewrite Hsame; exact Hnone). rewrite Hsame. reflexivity.
Qed.

End ViewFacts.

(** ** The statistics of precipitation.py *)

Lemma lower_fold vs : forall acc,
  match fold_left (fun m v => lower v m) vs acc with
  | None => vs = [] /\ acc = None
  | Some lo =>
      (acc = Some lo \/ lo ∈ vs) /\
      (forall v, v ∈ vs -> lo <= v) /\
      (forall a, acc = Some a -> lo <= a)
  end.
Proof.
  induction vs as [|v vs IH]; intros acc.
  - simpl. destruct acc as [a|]; [|auto].
    split; [auto|]. split; [intros v Hv; inversion Hv|]. intros a' [= ->]. lia.
  - cbn [fold_left]. specialize (IH (lower v acc)).
    destruct (fold_left (fun m v0 => lower v0 m) vs (lower v acc)) as [lo|].
    + destruct IH as ([Hin|Hin] & Hle & Hacc).
      * assert (lo <= v /\ (forall a, acc = Some a -> lo <= a) /\
                (acc = Some lo \/ lo = v)) as (Hv & Ha & Hc).
        { unfold lower in Hin. destruct acc as [a|].
          - destruct (Z.ltb_spec v a); injection Hin as <-;
              (split; [lia|split; [intros ? [= ->]; lia|auto]]).
          - injection Hin as <-. split; [lia|]. split; [discriminate|auto]. }
        split; [destruct Hc as [Hc| ->]; [auto|right; left]|].
        split; [|exact Ha].
        intros w Hw. apply elem_of_cons in Hw as [->|Hw]; [exact Hv|auto].
      * assert (lo <= v /\ forall a, acc = Some a -> lo <= a) as [Hv Ha].
        { unfold lower in Hacc. destruct acc as [a|].
          - destruct (Z.ltb_spec v a).
            + specialize (Hacc v eq_refl). split; [lia|intros ? [= ->]; lia].
            + specialize (Hacc a eq_refl). split; [lia|intros ? [= ->]; lia].
          - specialize (Hacc v eq_refl). split; [lia|discriminate]. }
        split; [right; right; exact Hin|]. split; [|exact Ha].
        intros w Hw. apply elem_of_cons in Hw as [->|Hw]; [exact Hv|auto].
    + destruct IH as [_ Hacc]. unfold lower in Hacc.
      destruct acc as [a|]; [destruct (v <? a)|]; discriminate.
Qed.

Lemma higher_fold vs : forall acc,
  match fold_left (fun m v => higher v m) vs acc with
  | None => vs = [] /\ acc = None
  | Some hi =>
      (acc = Some hi \/ hi ∈ vs) /\
      (forall v, v ∈ vs -> v <= hi) /\
      (forall a, acc = Some a -> a <= hi)
  end.
Proof.
  induction vs as [|v vs IH]; intros acc.
  - simpl. destruct acc as [a|]; [|auto].
    split; [auto|]. split; [intros v Hv; inversion Hv|]. intros a' [= ->]. lia.
  - cbn [fold_left]. specialize (IH (higher v acc)).
    destruct (fold_left (fun m v0 => higher v0 m) vs (higher v acc)) as [hi|].
    + destruct IH as ([Hin|Hin] & Hle & Hacc).
      * assert (v <= hi /\ (forall a, acc = Some a -> a <= hi) /\
                (acc = Some hi \/ hi = v)) as (Hv & Ha & Hc).
        { unfold higher in Hin. destruct acc as [a|].
          - destruct (Z.ltb_spec a v); injection Hin as <-;
              (split; [lia|split; [intros ? [= ->]; lia|auto]]).
          - injection Hin as <-. split; [lia|]. split; [discriminate|auto]. }
        split; [destruct Hc as [Hc| ->]; [auto|right; left]|].
        split; [|exact Ha].
        intros w Hw. apply elem_of_cons in Hw as [->|Hw]; [exact Hv|auto].
      * assert (v <= hi /\ forall a, acc = Some a -> a <= hi) as [Hv Ha].
        { unfold higher in Hacc. destruct acc as [a|].
          - destruct (Z.ltb_spec a v).
            + specialize (Hacc v eq_refl). split; [lia|intros ? [= ->]; lia].
            + specialize (Hacc a eq_refl). split; [lia|intros ? [= ->]; lia].
          - specialize (Hacc v eq_refl). split; [lia|discriminate]. }
        split; [right; right; exact Hin|]. split; [|exact Ha].
        intros w Hw. apply elem_of_cons in Hw as [->|Hw]; [exact Hv|auto].
    + destruct IH as [_ Hacc]. unfold higher in Hacc.
      destruct acc as [a|]; [destruct (a <? v)|]; discriminate.
Qed.


Lemma precipitation_track_statistics f props e :
  feat_properties f = Some props ->
  precipitation_statistics (Precipitation.track props e) =
  note_value (precipitation_statistics e) f.
Proof.
  intros Hp. unfold note_value, value_of, precipitation_statistics. rewrite Hp.
  destruct e. unfold Precipitation.track, Precipitation.track_dates,
    Precipitation.track_value.
  repeat (case_match; simplify_eq/=); reflexivity.
Qed.

Lemma precipitation_locate_statistics sid c e e' :
  Precipitation.locate sid c e = Some e' ->
  precipitation_statistics e' = precipitation_statistics e.
Proof.
  intros H. apply precipitation_locate_keeps in H as (Hn & _ & _ & Hlo & Hhi & Ht).
  unfold precipitation_statistics. rewrite Hn, Hlo, Hhi, Ht. reflexivity.
Qed.



(** ** The entries of the mapping *)

Section DomainFacts.
Context {info A : Type}.
Variable default_info : info.
Variable locate : string -> option (list Z) -> info -> option info.
Variable track : A -> properties -> info -> info.
Variable feature_of : A -> feature.

Local Abbreviation step := (fold_one default_info locate track feature_of).

Lemma fold_one_is_Some st a sid :
  is_Some (step st a !! sid) <->
  is_Some (st !! sid) \/ station_of (feature_of a) = Some sid.
Proof.
  destruct (decide (station_of (feature_of a) = Some sid)) as [Hs|Hs].
  - split; [auto|]. intros _. unfold station_of in Hs. unfold fold_one.
    destruct (feat_properties (feature_of a)) as [props|]; [|discriminate].
    rewrite Hs. cbn zeta.
    destruct (locate sid (coords_of (feature_of a)) (default default_info (st !! sid)));
      rewrite lookup_insert_eq; eauto.
  - rewrite (fold_one_other default_info locate track feature_of) by exact Hs. tauto.
Qed.

Lemma fold_is_Some l : forall st sid,
  is_Some (fold_left step l st !! sid) <->
  is_Some (st !! sid) \/ of_station sid (feature_of <$> l) <> [].
Proof.
  induction l as [|a l IH]; intros st sid.
  - simpl. split; [auto|]. intros [H|H]; [exact H|contradiction].
  - cbn [fold_left]. rewrite IH, fold_one_is_Some, fmap_cons.
    unfold of_station. rewrite filter_cons.
    destruct (decide (station_of (feature_of a) = Some sid)) as [Hs|Hs].
    + split; [intros _; right; discriminate|auto].
    + tauto.
Qed.

End DomainFacts.

(** The station id of a place after the features of a station. *)
Lemma place_fold_folded sid fs : forall pl,
  place_station pl = None \/ place_station pl = Some sid ->
  place_station (fold_left (place_step sid) (of_station sid fs) pl) =
  if decide (folded sid pl fs = []) then place_station pl else Some sid.
Proof.
  induction fs as [|f fs IH]; intros pl Hpl; [reflexivity|].
  unfold of_station. rewrite filter_cons. cbn [folded].
  destruct (decide (station_of f = Some sid)) as [Hs|Hs]; [|apply IH, Hpl].
  cbn [fold_left]. unfold place_step at 2.
  destruct (locate_place sid (coords_of f) pl) as [pl'|] eqn:Hloc; simpl.
  - assert (place_station pl' = Some sid) as Hpl'.
    { unfold locate_place in Hloc. destruct pl as [s la lo]. simpl in *.
      destruct Hpl as [-> | ->]; repeat (case_match; simplify_eq/=); reflexivity. }
    fold (of_station sid fs). rewrite IH by (right; exact Hpl').
    rewrite Hpl'. destruct (decide (folded sid pl' fs = [])); reflexivity.
  - apply IH, Hpl.
Qed.

(** X6.  The mapping gets an entry for a station exactly when some
    feature names the station.  The ['stationId'] field of the entry is
    the key of the entry, unless the placing lines raised on every
    feature of the station: the entry then is the blank one of the
    factory, with no station id, and still is in the mapping. *)
Theorem precipitation_entries_are_the_stations_named :
  forall fs sid,
    let st := Precipitation.process_features fs ∅ in
    (is_Some (st !! sid) <-> of_station sid fs <> []) /\
    Precipitation.stationId (Precipitation.getitem st sid) =
      (if decide (folded sid (Place None None None) fs = []) then None else Some sid) /\
    (folded sid (Place None None None) fs = [] ->
     Precipitation.getitem st sid = Precipitation.default_info).
Proof.
  intros fs sid st. subst st. split; [|split].
  - pose proof (fold_is_Some Precipitation.default_info Precipitation.locate
                  (fun _ => Precipitation.track) id fs ∅ sid) as H.
    rewrite list_fmap_id, lookup_empty in H. unfold Precipitation.process_features.
    rewrite H. split; [intros [[? [=]]|H']; exact H'|auto].
  - pose proof (fold_place Precipitation.default_info Precipitation.locate
                  (fun _ => Precipitation.track) id precipitation_place
                  precipitation_locate_place (fun _ => precipitation_track_place)
                  fs ∅ sid) as H.
    rewrite list_fmap_id, lookup_empty in H.
    apply (f_equal place_station) in H.
    rewrite place_fold_folded in H by (left; reflexivity). exact H.
  - intros Hnone.
    pose proof (fold_nothing Precipitation.default_info Precipitation.locate
                  (fun _ => Precipitation.track) id precipitation_place
                  precipitation_statistics note_value
                  precipitation_locate_place (fun _ => precipitation_track_place)
                  precipitation_locate_statistics
                  (fun a props e => precipitation_track_statistics a props e)
                  fs ∅ sid) as H.
    rewrite lookup_empty, folded_by_id in H. exact (H Hnone).
Qed.

(** ** The summary of wind.py *)

Lemma folded_by_station {A : Type} (feature_of : A -> feature) sid l : forall pl a,
  a ∈ folded_by feature_of sid pl l -> station_of (feature_of a) = Some sid.
Proof.
  induction l as [|b l IH]; intros pl a Ha; [inversion Ha|].
  cbn [folded_by] in Ha.
  destruct (decide (station_of (feature_of b) = Some sid)) as [Hs|Hs];
    [|exact (IH _ _ Ha)].
  destruct (locate_place sid (coords_of (feature_of b)) pl); [|exact (IH _ _ Ha)].
  apply elem_of_cons in Ha as [->|Ha]; [exact Hs|exact (IH _ _ Ha)].
Qed.

Lemma folded_by_well_formed {A : Type} (feature_of : A -> feature) sid l : forall pl,
  Forall (fun a => well_formed (feature_of a) = true) l ->
  folded_by feature_of sid pl l =
  filter (fun a => station_of (feature_of a) = Some sid) l.
Proof.
  induction l as [|a l IH]; intros pl Hwf; [reflexivity|].
  apply Forall_cons in Hwf as [Ha Hwf].
  cbn [folded_by]. rewrite filter_cons.
  destruct (decide (station_of (feature_of a) = Some sid)); [|apply IH, Hwf].
  destruct (locate_place_well_formed sid pl (feature_of a) Ha) as [pl' ->].
  f_equal. apply IH, Hwf.
Qed.

Lemma wind_fold_folded tagged sid :
  wind_rest (Wind.getitem (wind_fold tagged ∅) sid) =
  fold_left wind_act (folded_by snd sid (Place None None None) tagged)
    (wind_rest Wind.default_info).
Proof.
  pose proof (fold_view Wind.default_info Wind.locate (fun a => Wind.track (fst a)) snd
                wind_place wind_rest wind_act
                wind_locate_place (fun a => wind_track_place (fst a))
                wind_rest_locate) as H.
  unfold Wind.getitem, wind_fold.
  rewrite (H) by (intros a props e Hp; unfold wind_act; rewrite Hp; apply wind_rest_track).
  rewrite lookup_empty. reflexivity.
Qed.

(** The fields of an entry after the tagged features folded into it. *)
Lemma wind_act_fold sid kept : forall r,
  Forall (fun pf => station_of (snd pf) = Some sid) kept ->
  let r' := fold_left wind_act kept r in
  Wind.total_wind_observations r' =
    Wind.total_wind_observations r + Z.of_nat (length kept) /\
  (forall p, wind_counter p r' =
             wind_counter p r + Z.of_nat (length (filter (fun pf => fst pf = p) kept))) /\
  (forall name, name ∈ Wind.wind_parameters_seen r' <->
                name ∈ Wind.wind_parameters_seen r \/
                exists pf, pf ∈ kept /\ name = Wind.param_id (fst pf)) /\
  Wind.min_wind_speed_recorded r' =
    fold_left (fun m v => lower v m) (omap speed_of kept) (Wind.min_wind_speed_recorded r) /\
  Wind.max_wind_speed_recorded r' =
    fold_left (fun m v => higher v m) (omap speed_of kept) (Wind.max_wind_speed_recorded r).
Proof.
  induction kept as [|[p f] kept IH]; intros r Hst r'.
  - subst r'. simpl. split; [lia|]. split; [intros p; lia|].
    split; [|split; reflexivity].
    intros name. split; [auto|]. intros [H|(pf & Hpf & _)]; [exact H|inversion Hpf].
  - apply Forall_cons in Hst as [Hs Hst]. simpl in Hs.
    subst r'. cbn [fold_left].
    destruct (IH (wind_act r (p, f)) Hst) as (Ht & Hc & Hseen & Hlo & Hhi).
    unfold station_of in Hs.
    destruct (feat_properties f) as [props|] eqn:Hp; [|discriminate].
    assert (wind_act r (p, f) = Wind.track p props r) as Hact
      by (unfold wind_act; simpl; rewrite Hp; reflexivity).
    set (r'' := fold_left wind_act kept (wind_act r (p, f))) in *.
    rewrite Hact, wind_track_fields in Ht, Hc, Hseen, Hlo, Hhi.
    cbn [Wind.total_wind_observations Wind.wind_parameters_seen
         Wind.min_wind_speed_recorded Wind.max_wind_speed_recorded] in Ht, Hseen, Hlo, Hhi.
    split; [rewrite Ht; simpl length; lia|]. split; [|split; [|split]].
    + intros q. rewrite (Hc q), filter_cons. simpl fst.
      destruct q, p; simpl; try (rewrite bool_decide_eq_true_2 by reflexivity);
        try (rewrite bool_decide_eq_false_2 by discriminate);
        try (destruct (decide _) as [?|?]; [discriminate|]);
        try (destruct (decide _) as [?|?]; [|contradiction]);
        simpl length; lia.
    + intros name. rewrite Hseen, elem_of_union, elem_of_singleton. split.
      * intros [[-> |H]|(pf & Hpf & Hname)]; [|auto|].
        -- right. exists (p, f). split; [left|reflexivity].
        -- right. exists pf. split; [right; exact Hpf|exact Hname].
      * intros [H|(pf & Hpf & Hname)]; [auto|].
        apply elem_of_cons in Hpf as [->|Hpf]; [auto|]. right. exists pf. auto.
    + rewrite Hlo. cbn [omap list_omap]. unfold speed_of at 2, value_of. simpl.
      rewrite Hp. destruct (prop_value props) as [v|]; destruct (Wind.is_speed p);
        reflexivity.
    + rewrite Hhi. cbn [omap list_omap]. unfold speed_of at 2, value_of. simpl.
      rewrite Hp. destruct (prop_value props) as [v|]; destruct (Wind.is_speed p);
        reflexivity.
Qed.

Lemma wind_rest_fields e :
  Wind.total_wind_observations (wind_rest e) = Wind.total_wind_observations e /\
  (forall p, wind_counter p (wind_rest e) = wind_counter p e) /\
  Wind.wind_parameters_seen (wind_rest e) = Wind.wind_parameters_seen e /\
  Wind.min_wind_speed_recorded (wind_rest e) = Wind.min_wind_speed_recorded e /\
  Wind.max_wind_speed_recorded (wind_rest e) = Wind.max_wind_speed_recorded e.
Proof. repeat split. Qed.

Lemma wind_fold_summary tagged sid :
  let e := Wind.getitem (wind_fold tagged ∅) sid in
  let kept := folded_by snd sid (Place None None None) tagged in
  Wind.total_wind_observations e = Z.of_nat (length kept) /\
  (forall p, wind_counter p e =
             Z.of_nat (length (filter (fun pf => fst pf = p) kept))) /\
  (forall name, name ∈ Wind.wind_parameters_seen e <->
                exists pf, pf ∈ kept /\ name = Wind.param_id (fst pf)) /\
  Wind.min_wind_speed_recorded e =
    fold_left (fun m v => lower v m) (omap speed_of kept) None /\
  Wind.max_wind_speed_recorded e =
    fold_left (fun m v => higher v m) (omap speed_of kept) None.
Proof.
  intros e kept.
  destruct (wind_rest_fields e) as (Ht & Hc & Hs & Hlo & Hhi).
  rewrite <- Ht, <- Hs, <- Hlo, <- Hhi. subst e.
  rewrite wind_fold_folded. fold kept.
  destruct (wind_act_fold sid kept (wind_rest Wind.default_info)) as (Ht' & Hc' & Hs' & Hlo' & Hhi').
  { apply Forall_forall. intros pf Hpf. exact (folded_by_station snd sid _ _ _ Hpf). }
  split; [rewrite Ht'; simpl; lia|]. split; [|split; [|split]].
  - intros p. rewrite <- (Hc p), wind_fold_folded. fold kept. rewrite (Hc' p).
    destruct p; simpl; lia.
  - intros name. rewrite Hs'. simpl. rewrite elem_of_empty. tauto.
  - exact Hlo'.
  - exact Hhi'.
Qed.

(** X7.  After any list of features, each tagged with the parameter it
    was requested for and folded from the empty mapping, the summary of a
    station is that of the tagged features of the station that the loop
    folded (all of them when no feature has a one-element coordinate
    array): the total is their number, the counter of a parameter the
    number of those tagged with it, the set of parameters the set of
    their tags, and the recorded minimum and maximum the least and the
    greatest of the non-null values tagged with a speed parameter, so
    that the directions never enter them. *)
Theorem wind_summary_of_a_station :
  forall tagged sid,
    let e := Wind.getitem (wind_fold tagged ∅) sid in
    let kept := folded_by snd sid (Place None None None) tagged in
    let speeds := omap speed_of kept in
    (Forall (fun pf => well_formed (snd pf) = true) tagged ->
     kept = filter (fun pf => station_of (snd pf) = Some sid) tagged) /\
    Wind.total_wind_observations e = Z.of_nat (length kept) /\
    (forall p, wind_counter p e =
               Z.of_nat (length (filter (fun pf => fst pf = p) kept))) /\
    (forall name, name ∈ Wind.wind_parameters_seen e <->
                  exists pf, pf ∈ kept /\ name = Wind.param_id (fst pf)) /\
    (speeds = [] ->
     Wind.min_wind_speed_recorded e = None /\
     Wind.max_wind_speed_recorded e = None) /\
    (speeds <> [] ->
     exists lo hi,
       Wind.min_wind_speed_recorded e = Some lo /\
       Wind.max_wind_speed_recorded e = Some hi /\
       lo ∈ speeds /\ hi ∈ speeds /\
       forall v, v ∈ speeds -> lo <= v <= hi).
Proof.
  intros tagged sid e kept speeds.
  split; [intros Hwf; apply (folded_by_well_formed snd), Hwf|].
  destruct (wind_fold_summary tagged sid) as (Ht & Hc & Hs & Hlo & Hhi).
  fold e kept in Ht, Hc, Hs, Hlo, Hhi. fold speeds in Hlo, Hhi.
  split; [exact Ht|]. split; [exact Hc|]. split; [exact Hs|].
  rewrite Hlo, Hhi.
  pose proof (lower_fold speeds None) as Hl. pose proof (higher_fold speeds None) as Hh.
  split.
  - intros ->. split; reflexivity.
  - intros Hne.
    destruct (fold_left (fun m v => lower v m) speeds None) as [lo|];
      [|destruct Hl; contradiction].
    destruct (fold_left (fun m v => higher v m) speeds None) as [hi|];
      [|destruct Hh; contradiction].
    destruct Hl as ([Hl|Hl] & Hl_le & _); [discriminate|].
    destruct Hh as ([Hh|Hh] & Hh_le & _); [discriminate|].
    exists lo, hi. repeat split; auto.
Qed.

(** ** The passes of wind.py and its rows *)

Lemma wind_ceiling : ceil_div Wind.max_offset Wind.limit = 4.
Proof. reflexivity. Qed.

(** Whatever the upstream answers, the passes return: each pass issues
    at most four requests, and the mapping is the fold of what the passes
    read. *)
Lemma wind_passes_run get ps : forall st log0,
  exists log,
    Wind.passes get ps st log0 =
      Some (wind_sources (sources_of get log) st, log0 ++ log) /\
    (fun entry : Wind.wind_param * list Z * exit => fst (fst entry)) <$> log = ps /\
    Forall (fun entry : Wind.wind_param * list Z * exit =>
              exists k : nat, (k <= 4)%nat /\ snd (fst entry) = offsets Wind.limit k) log.
Proof.
  induction ps as [|p ps IH]; intros st log0.
  - exists []. rewrite app_nil_r. repeat split. constructor.
  - cbn [Wind.passes]. unfold Wind.parameter_pass.
    destruct (aggregate_is_bounded (Wind.process_features p) Wind.limit Wind.max_offset
                (get p) eq_refl st) as (r & Hr & Hlen & _).
    rewrite Hr. rewrite wind_ceiling in Hlen.
    apply paginate_run in Hr as (k & Hreq & Hstore & _).
    rewrite app_nil_l, offsets_from_zero in Hreq. rewrite offsets_from_zero in Hstore.
    rewrite wind_pages in Hstore.
    destruct (IH (store r) (log0 ++ [(p, requests r, left_by r)])) as (log & Hrun & Hps & Hk).
    exists ((p, requests r, left_by r) :: log). split; [|split].
    + rewrite Hrun, <- app_assoc. unfold sources_of, wind_sources.
      rewrite fmap_cons. cbn [fold_left fst snd]. rewrite Hstore, Hreq. reflexivity.
    + rewrite fmap_cons, Hps. reflexivity.
    + constructor; [|exact Hk]. exists k. simpl. split; [|exact Hreq].
      rewrite Hreq, offsets_length in Hlen. lia.
Qed.


Lemma param_id_inj p q : Wind.param_id p = Wind.param_id q -> p = q.
Proof. destruct p, q; simpl; intros H; try reflexivity; discriminate. Qed.

Lemma wind_parameters_all p : p ∈ Wind.wind_parameters.
Proof.
  destruct p; unfold Wind.wind_parameters;
    repeat first [apply list_elem_of_here | apply list_elem_of_further].
Qed.

Lemma wind_parameters_NoDup : NoDup Wind.wind_parameters.
Proof. apply (bool_decide_unpack _). reflexivity. Qed.

(** A set of parameter names has as many elements as parameters in it. *)
Lemma size_of_parameters (seen : gset string) :
  (forall name, name ∈ seen -> exists p, name = Wind.param_id p) ->
  size seen = length (filter (fun p => Wind.param_id p ∈ seen) Wind.wind_parameters).
Proof.
  intros Hnames.
  assert (seen = list_to_set (Wind.param_id <$>
            filter (fun p => Wind.param_id p ∈ seen) Wind.wind_parameters)) as Hset.
  { apply set_eq. intros name. rewrite elem_of_list_to_set, list_elem_of_fmap. split.
    - intros Hin. destruct (Hnames name Hin) as [p ->]. exists p. split; [reflexivity|].
      apply list_elem_of_filter. split; [exact Hin|apply wind_parameters_all].
    - intros (p & -> & Hp). apply list_elem_of_filter in Hp as [Hp _]. exact Hp. }
  rewrite Hset at 1. rewrite size_list_to_set, length_fmap; [reflexivity|].
  apply NoDup_fmap_2; [intros p q; apply param_id_inj|].
  apply NoDup_filter, wind_parameters_NoDup.
Qed.

Lemma length_by_parameter (kept : list (Wind.wind_param * feature)) :
  let n p := Z.of_nat (length (filter (fun pf => fst pf = p) kept)) in
  Z.of_nat (length kept) =
  n Wind.mean_wind_speed + n Wind.max_wind_speed_3sec + n Wind.max_wind_speed_10min +
  n Wind.mean_wind_dir + n Wind.mean_wind_dir_min0.
Proof.
  induction kept as [|[p f] kept IH]; [reflexivity|].
  cbv zeta beta in *. rewrite !filter_cons. simpl fst.
  destruct p;
    repeat (destruct (decide _) as [?|?]; [try discriminate|try contradiction]);
    simpl length; lia.
Qed.

Lemma row_flag_seen p e :
  row_flag p (Wind.station_row e) = bool_decide (Wind.param_id p ∈ Wind.wind_parameters_seen e).
Proof. destruct p; reflexivity. Qed.

Lemma row_counter_entry p e : row_counter p (Wind.station_row e) = wind_counter p e.
Proof. destruct p; reflexivity. Qed.

(** The rows of the entries a fold of tagged features gives. *)
Lemma wind_row_consistent tagged sid m :
  let row := Wind.station_row (Wind.set_meta m (Wind.getitem (wind_fold tagged ∅) sid)) in
  Wind.row_total_wind_observations row =
    row_counter Wind.mean_wind_speed row + row_counter Wind.max_wind_speed_3sec row +
    row_counter Wind.max_wind_speed_10min row + row_counter Wind.mean_wind_dir row +
    row_counter Wind.mean_wind_dir_min0 row /\
  (forall p, row_flag p row = bool_decide (0 < row_counter p row)) /\
  Wind.parameter_count row =
    Z.of_nat (length (filter (fun p => row_flag p row = true) Wind.wind_parameters)) /\
  (forall name, name ∈ Wind.wind_parameters_measured row ->
                exists p, name = Wind.param_id p).
Proof.
  intros row. subst row.
  destruct (wind_fold_summary tagged sid) as (Ht & Hc & Hs & _).
  set (e := Wind.getitem (wind_fold tagged ∅) sid) in *.
  set (kept := folded_by snd sid (Place None None None) tagged) in *.
  assert (forall p, row_counter p (Wind.station_row (Wind.set_meta m e)) =
                    Z.of_nat (length (filter (fun pf => fst pf = p) kept))) as Hrc
    by (intros p; rewrite row_counter_entry, <- (Hc p); destruct p; reflexivity).
  assert (forall p, row_flag p (Wind.station_row (Wind.set_meta m e)) =
                    bool_decide (Wind.param_id p ∈ Wind.wind_parameters_seen e)) as Hrf
    by (intros p; rewrite row_flag_seen; reflexivity).
  assert (forall name, name ∈ Wind.wind_parameters_seen e ->
                       exists p, name = Wind.param_id p) as Hnames
    by (intros name Hin; apply Hs in Hin as (pf & _ & ->); eauto).
  split; [|split; [|split]].
  - rewrite !Hrc. cbn [Wind.station_row Wind.row_total_wind_observations
                       Wind.set_meta Wind.total_wind_observations].
    rewrite Ht. apply length_by_parameter.
  - intros p. rewrite Hrf, Hrc. apply bool_decide_ext. rewrite Hs. split.
    + intros (pf & Hpf & Hname). apply param_id_inj in Hname.
      assert (pf ∈ filter (fun pf => fst pf = p) kept) as Hin
        by (apply list_elem_of_filter; split; [symmetry; exact Hname|exact Hpf]).
      destruct (filter (fun pf => fst pf = p) kept); [inversion Hin|simpl; lia].
    + intros Hpos.
      destruct (filter (fun pf => fst pf = p) kept) as [|pf l] eqn:Hf; [simpl in Hpos; lia|].
      assert (pf ∈ filter (fun pf => fst pf = p) kept) as Hin by (rewrite Hf; left).
      apply list_elem_of_filter in Hin as [Hp Hin]. exists pf. split; [exact Hin|].
      rewrite Hp. reflexivity.
  - cbn [Wind.station_row Wind.parameter_count Wind.set_meta Wind.wind_parameters_seen].
    rewrite (size_of_parameters _ Hnames). do 2 f_equal.
    apply list_filter_iff. intros p. rewrite Hrf.
    split; [apply bool_decide_eq_true_2|apply bool_decide_eq_true_1].
  - exact Hnames.
Qed.

(** X9.  Whatever the upstream and the station endpoint answer,
    [get_wind_stations_csv] gets to its rows, and every row is
    consistent: the total of the observations is the sum of the five
    counters, the flag of a parameter is set exactly when its counter is
    positive, [parameter_count] is the number of flags set, and the
    parameters listed are among the five of [wind_parameters]. *)
Theorem wind_rows_are_consistent :
  forall get stations, exists rows,
    Wind.get_wind_stations_csv get stations = Some rows /\
    map_Forall (fun (_ : string) row =>
      Wind.row_total_wind_observations row =
        row_counter Wind.mean_wind_speed row + row_counter Wind.max_wind_speed_3sec row +
        row_counter Wind.max_wind_speed_10min row + row_counter Wind.mean_wind_dir row +
        row_counter Wind.mean_wind_dir_min0 row /\
      (forall p, row_flag p row = bool_decide (0 < row_counter p row)) /\
      Wind.parameter_count row =
        Z.of_nat (length (filter (fun p => row_flag p row = true) Wind.wind_parameters)) /\
      (forall name, name ∈ Wind.wind_parameters_measured row ->
                    exists p, name = Wind.param_id p)) rows.
Proof.
  intros get stations.
  destruct (wind_passes_run get Wind.wind_parameters ∅ []) as (log & Hrun & _).
  unfold Wind.get_wind_stations_csv, Wind.collect. rewrite Hrun.
  eexists. split; [reflexivity|].
  apply map_Forall_lookup. intros sid row Hrow.
  unfold Wind.stations_list in Hrow.
  apply lookup_fmap_Some in Hrow as (e' & <- & He').
  pose proof (wind_join_keeps stations (wind_sources (sources_of get log) ∅)) as Hkeep.
  apply (f_equal (fun m => m !! sid)) in Hkeep. rewrite !lookup_fmap, He' in Hkeep.
  destruct (wind_sources (sources_of get log) ∅ !! sid) as [e|] eqn:He; [|discriminate].
  simpl in Hkeep. apply (inj Some) in Hkeep.
  assert (e' = Wind.set_meta (Wind.meta e') e) as ->.
  { destruct e', e. unfold Wind.set_meta in *. simpl in *.
    injection Hkeep as -> -> -> -> -> -> -> -> -> -> -> -> -> ->. reflexivity. }
  assert (e = Wind.getitem (wind_fold (tagged_features (sources_of get log)) ∅) sid) as ->
    by (unfold Wind.getitem; rewrite <- wind_sources_tagged, He; reflexivity).
  apply wind_row_consistent.
Qed.

(** ** The metadata join, record by record *)

Lemma wind_join_features_unmatched after sid : forall st,
  Forall (fun q => dict_get q "stationId" None <> Some sid) after ->
  fold_left Wind.join_station after st !! sid = st !! sid.
Proof.
  induction after as [|q after IH]; intros st Hall; [reflexivity|].
  apply Forall_cons in Hall as [Hq Hall]. cbn [fold_left].
  rewrite (IH _ Hall). apply wind_join_station_unmatched, Hq.
Qed.

Lemma wind_details_columns props m e :
  let row := Wind.station_row (Wind.set_meta (Wind.details props m) e) in
  Wind.name row = dict_get props "name" (Some "Unknown") /\
  Wind.country row = dict_get props "country" (Some "Unknown") /\
  Wind.status row = dict_get props "status" (Some "Unknown") /\
  Wind.valid_from row = dict_get props "validFrom" None /\
  Wind.valid_to row = dict_get props "validTo" None.
Proof.
  cbn [Wind.station_row Wind.set_meta Wind.meta Wind.name Wind.country Wind.status
       Wind.valid_from Wind.valid_to]. unfold Wind.details.
  repeat split; unfold dict_get at 1;
    repeat (rewrite lookup_insert_ne by discriminate); rewrite lookup_insert_eq;
    reflexivity.
Qed.

(** X10.  The join never adds a station to the mapping and writes the
    metadata only: an entry keeps everything the aggregation gave it.
    When the station endpoint serves several records for a station of the
    mapping, the last of them gives the metadata columns of its row, with
    ['Unknown'] for a name, country or status the record does not carry
    and [None] for one it carries as null. *)
Theorem last_details_of_a_station_win :
  forall before props after st sid e,
    st !! sid = Some e ->
    props <> ∅ ->
    dict_get props "stationId" None = Some sid ->
    Forall (fun q => dict_get q "stationId" None <> Some sid) after ->
    let st' := Wind.join (StationFeatures (before ++ props :: after)) st in
    dom st' = dom st /\
    exists e',
      st' !! sid = Some e' /\
      Wind.set_meta ∅ e' = Wind.set_meta ∅ e /\
      Wind.name (Wind.station_row e') = dict_get props "name" (Some "Unknown") /\
      Wind.country (Wind.station_row e') = dict_get props "country" (Some "Unknown") /\
      Wind.status (Wind.station_row e') = dict_get props "status" (Some "Unknown") /\
      Wind.valid_from (Wind.station_row e') = dict_get props "validFrom" None /\
      Wind.valid_to (Wind.station_row e') = dict_get props "validTo" None.
Proof.
  intros before props after st sid e He Hne Hsid Hafter st'. split.
  - pose proof (wind_join_keeps (StationFeatures (before ++ props :: after)) st) as H.
    apply (f_equal dom) in H. rewrite !dom_fmap_L in H. exact H.
  - subst st'. cbn [Wind.join]. rewrite fold_left_app. cbn [fold_left].
    rewrite (wind_join_features_unmatched after sid _ Hafter).
    pose proof (wind_join_keeps (StationFeatures before) st) as Hkeep.
    cbn [Wind.join] in Hkeep.
    apply (f_equal (fun m => m !! sid)) in Hkeep. rewrite !lookup_fmap, He in Hkeep.
    destruct (fold_left Wind.join_station before st !! sid) as [e1|] eqn:He1;
      [|discriminate].
    simpl in Hkeep. apply (inj Some) in Hkeep.
    rewrite (wind_join_station_matched _ props sid e1 Hne Hsid He1).
    eexists. split; [reflexivity|]. split.
    + rewrite <- Hkeep. reflexivity.
    + apply wind_details_columns.
Qed.

Lemma last_details_of_a_station_win_witness :
  let st := <["06154" := Wind.default_info]> (∅ : gmap string Wind.info) in
  let st' := Wind.join (StationFeatures ([details_06019] ++ details_06154 :: [])) st in
  dom st' = dom st /\
  exists e',
    st' !! "06154" = Some e' /\
    Wind.set_meta ∅ e' = Wind.set_meta ∅ Wind.default_info /\
    Wind.name (Wind.station_row e') = dict_get details_06154 "name" (Some "Unknown") /\
    Wind.country (Wind.station_row e') = dict_get details_06154 "country" (Some "Unknown") /\
    Wind.status (Wind.station_row e') = dict_get details_06154 "status" (Some "Unknown") /\
    Wind.valid_from (Wind.station_row e') = dict_get details_06154 "validFrom" None /\
    Wind.valid_to (Wind.station_row e') = dict_get details_06154 "validTo" None.
Proof.
  apply (last_details_of_a_station_win [details_06019] details_06154 []
           (<["06154" := Wind.default_info]> ∅) "06154" Wind.default_info).
  - apply lookup_insert_eq.
  - intros H. apply (f_equal (fun m => m !! "stationId")) in H.
    unfold details_06154 in H. rewrite lookup_insert_eq, lookup_empty in H. discriminate.
  - unfold dict_get, details_06154. rewrite lookup_insert_eq. reflexivity.
  - constructor.
Defined.

(** ** The two passes of sunlight.py *)

Lemma sunlight_read_station f props coords sid :
  Sunlight.read f = Some (props, coords, sid) ->
  station_of f = Some sid /\ feat_coordinates f = Some coords /\
  feat_properties f = Some props.
Proof.
  unfold Sunlight.read, station_of.
  destruct (feat_properties f) as [p|]; [|discriminate].
  destruct (feat_coordinates f) as [c|]; [|discriminate].
  destruct (prop_stationId p) as [s|] eqn:Hs; [|discriminate].
  intros [= <- <- <-]. auto.
Qed.

Lemma position_of_lat_lon f coords p :
  feat_coordinates f = Some coords -> lat_lon coords = Some p -> position_of f = Some p.
Proof.
  unfold position_of, coords_of. intros -> Hll.
  destruct coords as [|lon cs]; [discriminate|exact Hll].
Qed.


(** What a sunshine feature does to the entries. *)
Lemma sunshine_feature_entry st f st' sid :
  Sunlight.sunshine_feature st f = Some st' ->
  if decide (station_of f = Some sid) then
    exists e',
      st' !! sid = Some e' /\
      Sunlight.stationId e' = Some sid /\
      sunlight_position e' = position_of f /\
      is_Some (sunlight_position e') /\
      Sunlight.measures_sunshine e' = true /\
      Sunlight.measures_radiation e' =
        Sunlight.measures_radiation (Sunlight.getitem st sid) /\
      Sunlight.sunshine_observations e' =
        Sunlight.sunshine_observations (Sunlight.getitem st sid) + 1 /\
      Sunlight.radiation_observations e' =
        Sunlight.radiation_observations (Sunlight.getitem st sid)
  else st' !! sid = st !! sid.
Proof.
  unfold Sunlight.sunshine_feature. intros H.
  destruct (Sunlight.read f) as [[[props coords] sid']|] eqn:Hread; [|discriminate].
  destruct (lat_lon coords) as [[lat lon]|] eqn:Hll; [|discriminate].
  cbn zeta in H. injection H as <-.
  apply sunlight_read_station in Hread as (Hs & Hc & _).
  pose proof (position_of_lat_lon f coords _ Hc Hll) as Hpos.
  destruct (decide (station_of f = Some sid)) as [Heq|Hne].
  - assert (sid' = sid) as -> by congruence.
    eexists. split; [apply lookup_insert_eq|]. rewrite Hpos.
    unfold Sunlight.sunshine_dates.
    destruct (prop_from props) as [d|]; [destruct (bool_decide (d = ""))|];
      simpl; repeat split; eauto.
  - apply lookup_insert_ne. congruence.
Qed.

Lemma sunlight_getitem_Some st sid e :
  st !! sid = Some e -> Sunlight.getitem st sid = e.
Proof. unfold Sunlight.getitem. intros ->. reflexivity. Qed.

Lemma sunlight_getitem_same st st' sid :
  st' !! sid = st !! sid -> Sunlight.getitem st' sid = Sunlight.getitem st sid.
Proof. unfold Sunlight.getitem. intros ->. reflexivity. Qed.

(** The sunshine pass, station by station: the position is that of the
    last feature of the station. *)
Lemma sunshine_pass_entry fs : forall st st' sid,
  for_each Sunlight.sunshine_feature fs st = Some st' ->
  match last (of_station sid fs) with
  | None => st' !! sid = st !! sid
  | Some f =>
      exists e',
        st' !! sid = Some e' /\
        Sunlight.stationId e' = Some sid /\
        sunlight_position e' = position_of f /\
        is_Some (sunlight_position e') /\
        Sunlight.measures_sunshine e' = true /\
        Sunlight.measures_radiation e' =
          Sunlight.measures_radiation (Sunlight.getitem st sid) /\
        Sunlight.sunshine_observations e' =
          Sunlight.sunshine_observations (Sunlight.getitem st sid) +
          Z.of_nat (length (of_station sid fs)) /\
        Sunlight.radiation_observations e' =
          Sunlight.radiation_observations (Sunlight.getitem st sid)
  end.
Proof.
  induction fs as [|f fs IH]; intros st st' sid H.
  - injection H as <-. reflexivity.
  - cbn [for_each] in H.
    destruct (Sunlight.sunshine_feature st f) as [st1|] eqn:Hf; [|discriminate].
    apply (sunshine_feature_entry _ _ _ sid) in Hf.
    specialize (IH st1 st' sid H).
    unfold of_station in *. rewrite filter_cons.
    destruct (decide (station_of f = Some sid)) as [Hs|Hs].
    + destruct Hf as (e1 & He1 & Hid & Hpos & Hsome & Hms & Hmr & Hso & Hro).
      rewrite (sunlight_getitem_Some _ _ _ He1) in IH.
      destruct (filter (fun f => station_of f = Some sid) fs) as [|g l] eqn:Hrest.
      * simpl in IH. simpl. exists e1. rewrite IH.
        repeat split; auto.
      * change (last (f :: g :: l)) with (last (g :: l)).
        destruct (last (g :: l)) as [h|] eqn:Hlast.
        -- destruct IH as (e' & He' & Hid' & Hpos' & Hsome' & Hms' & Hmr' & Hso' & Hro').
           exists e'. repeat split; auto; try congruence.
           rewrite Hso', Hso. simpl length. lia.
        -- apply last_None in Hlast. discriminate.
    + rewrite (sunlight_getitem_same _ _ _ Hf) in IH. rewrite Hf in IH. exact IH.
Qed.

(** What a radiation feature does to the entries: the entry of a
    station the mapping holds keeps its station id and its position. *)
Lemma radiation_feature_entry st f st' sid :
  Sunlight.radiation_feature st f = Some st' ->
  if decide (station_of f = Some sid) then
    exists e',
      st' !! sid = Some e' /\
      Sunlight.measures_radiation e' = true /\
      Sunlight.radiation_observations e' =
        Sunlight.radiation_observations (Sunlight.getitem st sid) + 1 /\
      Sunlight.measures_sunshine e' =
        Sunlight.measures_sunshine (Sunlight.getitem st sid) /\
      Sunlight.sunshine_observations e' =
        Sunlight.sunshine_observations (Sunlight.getitem st sid) /\
      match st !! sid with
      | Some e =>
          Sunlight.stationId e' = Sunlight.stationId e /\
          sunlight_position e' = sunlight_position e
      | None =>
          Sunlight.stationId e' = Some sid /\
          sunlight_position e' = position_of f /\
          is_Some (sunlight_position e')
      end
  else st' !! sid = st !! sid.
Proof.
  unfold Sunlight.radiation_feature. intros H.
  destruct (Sunlight.read f) as [[[props coords] sid']|] eqn:Hread; [|discriminate].
  apply sunlight_read_station in Hread as (Hs & Hc & _).
  destruct (decide (station_of f = Some sid)) as [Heq|Hne].
  - assert (sid' = sid) as -> by congruence.
    unfold Sunlight.getitem. destruct (st !! sid) as [e|] eqn:He.
    + cbn zeta in H. injection H as <-.
      eexists. split; [apply lookup_insert_eq|].
      unfold Sunlight.radiation_dates.
      destruct (prop_from props) as [d|]; [destruct (bool_decide (d = ""))|];
        simpl; repeat split; eauto.
    + destruct (lat_lon coords) as [[lat lon]|] eqn:Hll; [|discriminate].
      cbn zeta in H. injection H as <-.
      pose proof (position_of_lat_lon f coords _ Hc Hll) as Hpos.
      eexists. split; [apply lookup_insert_eq|]. rewrite Hpos.
      unfold Sunlight.radiation_dates.
      destruct (prop_from props) as [d|]; [destruct (bool_decide (d = ""))|];
        simpl; repeat split; eauto.
  - destruct (st !! sid') as [e|].
    + cbn zeta in H. injection H as <-. apply lookup_insert_ne. congruence.
    + destruct (lat_lon coords) as [[lat lon]|]; [|discriminate].
      cbn zeta in H. injection H as <-. apply lookup_insert_ne. congruence.
Qed.

(** The radiation pass, station by station: a station without an entry
    takes the position of its first radiation feature. *)
Lemma radiation_pass_entry rs : forall st st' sid,
  for_each Sunlight.radiation_feature rs st = Some st' ->
  match head (of_station sid rs) with
  | None => st' !! sid = st !! sid
  | Some f =>
      exists e',
        st' !! sid = Some e' /\
        Sunlight.measures_radiation e' = true /\
        Sunlight.radiation_observations e' =
          Sunlight.radiation_observations (Sunlight.getitem st sid) +
          Z.of_nat (length (of_station sid rs)) /\
        Sunlight.measures_sunshine e' =
          Sunlight.measures_sunshine (Sunlight.getitem st sid) /\
        Sunlight.sunshine_observations e' =
          Sunlight.sunshine_observations (Sunlight.getitem st sid) /\
        match st !! sid with
        | Some e =>
            Sunlight.stationId e' = Sunlight.stationId e /\
            sunlight_position e' = sunlight_position e
        | None =>
            Sunlight.stationId e' = Some sid /\
            sunlight_position e' = position_of f /\
            is_Some (sunlight_position e')
        end
  end.
Proof.
  induction rs as [|f rs IH]; intros st st' sid H.
  - injection H as <-. reflexivity.
  - cbn [for_each] in H.
    destruct (Sunlight.radiation_feature st f) as [st1|] eqn:Hf; [|discriminate].
    apply (radiation_feature_entry _ _ _ sid) in Hf.
    specialize (IH st1 st' sid H).
    unfold of_station in *. rewrite filter_cons.
    destruct (decide (station_of f = Some sid)) as [Hs|Hs].
    + destruct Hf as (e1 & He1 & Hmr & Hro & Hms & Hso & Hplace).
      rewrite (sunlight_getitem_Some _ _ _ He1), He1 in IH. cbn [head].
      destruct (filter (fun f => station_of f = Some sid) rs) as [|g l] eqn:Hrest.
      * simpl in IH. exists e1. rewrite IH. simpl length.
        repeat split; auto.
      * cbn [head] in IH.
        destruct IH as (e' & He' & Hmr' & Hro' & Hms' & Hso' & Hid' & Hpos').
        exists e'. split; [exact He'|]. split; [exact Hmr'|].
        split; [rewrite Hro', Hro; simpl length; lia|].
        split; [congruence|]. split; [congruence|].
        destruct (st !! sid) as [e|].
        -- destruct Hplace as [Hid Hpos]. split; congruence.
        -- destruct Hplace as (Hid & Hpos & Hsome).
           split; [congruence|]. split; [congruence|]. rewrite Hpos'. exact Hsome.
    + rewrite (sunlight_getitem_same _ _ _ Hf) in IH. rewrite Hf in IH. exact IH.
Qed.

(** The join of sunlight.py writes the metadata of entries the mapping
    holds, and nothing else. *)
Lemma sunlight_join_station_keeps st props st' :
  Sunlight.join_station st props = Some st' ->
  sunlight_without_meta <$> st' = sunlight_without_meta <$> st.
Proof.
  unfold Sunlight.join_station. intros H.
  destruct (props !! "stationId") as [[sid|]|]; [| |discriminate].
  - destruct (st !! sid) as [e|] eqn:He; injection H as <-; [|reflexivity].
    rewrite fmap_insert. apply insert_id. rewrite lookup_fmap, He. reflexivity.
  - injection H as <-. reflexivity.
Qed.

Lemma sunlight_join_keeps features : forall st st',
  for_each Sunlight.join_station features st = Some st' ->
  sunlight_without_meta <$> st' = sunlight_without_meta <$> st.
Proof.
  induction features as [|props features IH]; intros st st' H.
  - injection H as <-. reflexivity.
  - cbn [for_each] in H.
    destruct (Sunlight.join_station st props) as [st1|] eqn:H1; [|discriminate].
    rewrite (IH _ _ H). apply sunlight_join_station_keeps with props, H1.
Qed.







Lemma sunlight_without_meta_fields e e' :
  sunlight_without_meta e' = sunlight_without_meta e ->
  Sunlight.stationId e' = Sunlight.stationId e /\
  sunlight_position e' = sunlight_position e /\
  Sunlight.measures_sunshine e' = Sunlight.measures_sunshine e /\
  Sunlight.measures_radiation e' = Sunlight.measures_radiation e /\
  Sunlight.sunshine_observations e' = Sunlight.sunshine_observations e /\
  Sunlight.radiation_observations e' = Sunlight.radiation_observations e.
Proof.
  destruct e, e'. unfold sunlight_without_meta, sunlight_position. simpl.
  intros [= -> -> -> -> -> -> -> -> -> -> ->]. repeat split.
Qed.

(** The entries after the two passes. *)
Lemma sunlight_passes_entry fs rs st1 st2 sid :
  for_each Sunlight.sunshine_feature fs ∅ = Some st1 ->
  for_each Sunlight.radiation_feature rs st1 = Some st2 ->
  match st2 !! sid with
  | None => of_station sid fs = [] /\ of_station sid rs = []
  | Some e =>
      Sunlight.stationId e = Some sid /\
      Sunlight.sunshine_observations e = Z.of_nat (length (of_station sid fs)) /\
      Sunlight.radiation_observations e = Z.of_nat (length (of_station sid rs)) /\
      Sunlight.measures_sunshine e = bool_decide (of_station sid fs <> []) /\
      Sunlight.measures_radiation e = bool_decide (of_station sid rs <> []) /\
      is_Some (sunlight_position e) /\
      sunlight_position e =
        match last (of_station sid fs) with
        | Some f => position_of f
        | None => head (of_station sid rs) ≫= position_of
        end
  end.
Proof.
  intros H1 H2.
  apply (sunshine_pass_entry _ _ _ sid) in H1.
  apply (radiation_pass_entry _ _ _ sid) in H2.
  unfold Sunlight.getitem in H1. rewrite lookup_empty in H1. simpl in H1.
  destruct (last (of_station sid fs)) as [f|] eqn:Hlast.
  - assert (of_station sid fs <> []) as Hfs by (intros E; rewrite E in Hlast; discriminate).
    destruct H1 as (e1 & He1 & Hid & Hpos & Hsome & Hms & Hmr & Hso & Hro).
    rewrite (sunlight_getitem_Some _ _ _ He1), He1 in H2.
    destruct (head (of_station sid rs)) as [g|] eqn:Hhead.
    + assert (of_station sid rs <> []) as Hrs by (intros E; rewrite E in Hhead; discriminate).
      destruct H2 as (e2 & -> & Hmr2 & Hro2 & Hms2 & Hso2 & Hid2 & Hpos2).
      rewrite !bool_decide_eq_true_2 by assumption.
      repeat split; try congruence; try lia.
    + apply head_None in Hhead. rewrite H2, Hhead.
      rewrite bool_decide_eq_true_2 by assumption.
      rewrite bool_decide_eq_false_2 by (intros E; apply E; reflexivity).
      repeat split; try congruence; simpl; lia.
  - apply last_None in Hlast. rewrite Hlast.
    destruct (head (of_station sid rs)) as [g|] eqn:Hhead.
    + assert (of_station sid rs <> []) as Hrs by (intros E; rewrite E in Hhead; discriminate).
      destruct H2 as (e2 & -> & Hmr2 & Hro2 & Hms2 & Hso2 & Hplace).
      unfold Sunlight.getitem in Hro2, Hms2, Hso2. rewrite H1 in *.
      destruct Hplace as (Hid2 & Hpos2 & Hsome2). simpl in *.
      rewrite bool_decide_eq_true_2 by assumption.
      rewrite ?bool_decide_eq_false_2 by (intros E; apply E; reflexivity).
      repeat split; try congruence; try lia.
    + apply head_None in Hhead. rewrite H2, H1. auto.
Qed.

(** X12.  The rows sunlight.py exports are those of the stations named
    by a feature of either request.  A row counts the sunshine and the
    radiation features of its station, and is flagged for a parameter
    exactly when it has one of its features.  Its position is that of the
    last sunshine feature of the station (every sunshine feature
    overwrites it), and for a station without one that of its first
    radiation feature; the join changes none of this. *)
Theorem sunlight_rows_of_the_two_passes :
  forall fs rs stations rows,
    Sunlight.get_sunlight_stations_csv (Features fs) (Features rs) stations =
    Sunlight.Exported rows ->
    forall sid,
      match rows !! sid with
      | None => of_station sid fs = [] /\ of_station sid rs = []
      | Some row =>
          Sunlight.station_id row = Some sid /\
          Sunlight.sunshine_observations (Sunlight.summary row) =
            Z.of_nat (length (of_station sid fs)) /\
          Sunlight.radiation_observations (Sunlight.summary row) =
            Z.of_nat (length (of_station sid rs)) /\
          Sunlight.measures_sunshine (Sunlight.summary row) =
            bool_decide (of_station sid fs <> []) /\
          Sunlight.measures_radiation (Sunlight.summary row) =
            bool_decide (of_station sid rs <> []) /\
          is_Some (sunlight_position (Sunlight.summary row)) /\
          sunlight_position (Sunlight.summary row) =
            match last (of_station sid fs) with
            | Some f => position_of f
            | None => head (of_station sid rs) ≫= position_of
            end
      end.
Proof.
  intros fs rs stations rows H sid. unfold Sunlight.get_sunlight_stations_csv in H.
  destruct (for_each Sunlight.sunshine_feature fs ∅) as [st1|] eqn:H1; [|discriminate].
  destruct (for_each Sunlight.radiation_feature rs st1) as [st2|] eqn:H2; [|discriminate].
  pose proof (sunlight_passes_entry fs rs st1 st2 sid H1 H2) as Hentry.
  assert (exists st3, rows = Sunlight.station_row <$> st3 /\
                      sunlight_without_meta <$> st3 = sunlight_without_meta <$> st2)
    as (st3 & -> & Hkeep).
  { destruct stations as [|features].
    - injection H as <-. eauto.
    - destruct (for_each Sunlight.join_station features st2) as [st3|] eqn:H3;
        [|discriminate].
      injection H as <-. exists st3. split; [reflexivity|].
      apply sunlight_join_keeps with features, H3. }
  apply (f_equal (fun m => m !! sid)) in Hkeep. rewrite !lookup_fmap in Hkeep.
  rewrite lookup_fmap.
  destruct (st2 !! sid) as [e|]; destruct (st3 !! sid) as [e'|]; try discriminate;
    simpl in *; [|exact Hentry].
  apply (inj Some) in Hkeep.
  apply sunlight_without_meta_fields in Hkeep as (-> & -> & -> & -> & -> & ->).
  exact Hentry.
Qed.

Lemma sunlight_rows_of_the_two_passes_witness :
  let sid := "06019" in
    match (Sunlight.station_row <$>
             (<["06019" :=
                 Sunlight.Info (Some "06019") (<["name" := None]> ∅) (Some 57) (Some 8)
                   true false 1 0 (Some "2020-06-01T00:00:00Z")
                   (Some "2020-06-01T00:00:00Z") None None]>
                (∅ : gmap string Sunlight.info))) !! sid with
    | None => of_station sid [sunshine_06019] = [] /\ of_station sid [] = []
    | Some row =>
        Sunlight.station_id row = Some sid /\
        Sunlight.sunshine_observations (Sunlight.summary row) =
          Z.of_nat (length (of_station sid [sunshine_06019])) /\
        Sunlight.radiation_observations (Sunlight.summary row) =
          Z.of_nat (length (of_station sid [])) /\
        Sunlight.measures_sunshine (Sunlight.summary row) =
          bool_decide (of_station sid [sunshine_06019] <> []) /\
        Sunlight.measures_radiation (Sunlight.summary row) =
          bool_decide (of_station sid [] <> []) /\
        is_Some (sunlight_position (Sunlight.summary row)) /\
        sunlight_position (Sunlight.summary row) =
          match last (of_station sid [sunshine_06019]) with
          | Some f => position_of f
          | None => head (of_station sid []) ≫= position_of
          end
    end.
Proof.
  exact (sunlight_rows_of_the_two_passes [sunshine_06019] [] StationRequestException
           _ eq_refl "06019").
Defined.

(** ** The yearly collections, record by record *)

(** A loop that runs to its end has met no element on which its body
    raises from every state. *)
Lemma for_each_met {S A : Type} (body : S -> A -> option S) l : forall s s',
  for_each body l s = Some s' ->
  Forall (fun a => exists s0, is_Some (body s0 a)) l.
Proof.
  induction l as [|a l IH]; intros s s' H; [constructor|].
  cbn [for_each] in H. destruct (body s a) as [s1|] eqn:H1; [|discriminate].
  constructor; [eauto|]. exact (IH _ _ H).
Qed.

Lemma collect_met get year stations rows :
  Collection.collect get year stations = Some rows ->
  Forall (fun f => is_Some (feat_properties f)) (fetched get year stations).
Proof.
  intros H. unfold Collection.collect in H. apply for_each_met in H.
  unfold fetched. apply Forall_concat, Forall_fmap.
  eapply Forall_impl; [exact H|]. intros [sid name] (s0 & [s1 Hs]).
  unfold compose. cbn [fst snd] in *.
  unfold Collection.collect_station in Hs. apply for_each_met in Hs.
  apply Forall_concat, Forall_fmap.
  eapply Forall_impl; [exact Hs|]. intros month (s2 & [s3 Hm]).
  unfold compose. cbn [fst snd] in *.
  unfold Collection.collect_month in Hm. apply for_each_met in Hm.
  eapply Forall_impl; [exact Hm|]. intros f (s4 & [s5 Hf]). cbn beta in *.
  unfold Collection.add_feature in Hf.
  destruct (feat_properties f); [eauto|discriminate].
Qed.

(** X13.  A yearly collection returns its list exactly when every
    feature it receives, for any station and month, has its properties:
    [feature["properties"]] is read by subscript outside any handler, so
    one feature without them ends the run with an exception and nothing
    of the year is returned. *)
Theorem collection_returns_iff_features_have_properties :
  forall get year,
    (is_Some (Collection.collect_wind_data get year) <->
     Forall (fun f => is_Some (feat_properties f))
       (fetched get year Collection.WIND_STATIONS)) /\
    (is_Some (Collection.collect_sunshine_data get year) <->
     Forall (fun f => is_Some (feat_properties f))
       (fetched get year Collection.SUNSHINE_STATIONS)).
Proof.
  intros get year. split; split.
  - intros [rows H]. exact (collect_met _ _ _ _ H).
  - apply collect_returns.
  - intros [rows H]. exact (collect_met _ _ _ _ H).
  - apply collect_returns.
Qed.

Lemma concat_omap_singletons {A B : Type} (g : A -> option B) (l : list A) :
  concat ((fun x => omap g [x]) <$> l) = omap g l.
Proof.
  induction l as [|x l IH]; [reflexivity|].
  rewrite fmap_cons. cbn [concat]. rewrite IH. cbn [omap list_omap].
  destruct (g x); reflexivity.
Qed.

Lemma concat_omap_fmap {A B C : Type} (g : B -> option C) (h : A -> list B)
    (l : list A) :
  concat ((fun a => omap g (h a)) <$> l) = omap g (concat (h <$> l)).
Proof.
  induction l as [|a l IH]; [reflexivity|].
  cbn [fmap list_fmap concat]. rewrite IH, omap_app. reflexivity.
Qed.

Lemma add_feature_record sid name all_data f all_data' :
  Collection.add_feature sid name all_data f = Some all_data' ->
  all_data' = all_data ++ omap (record_of sid name) [f].
Proof.
  unfold Collection.add_feature, record_of. cbn [omap list_omap].
  destruct (feat_properties f) as [props|]; [|discriminate].
  destruct (prop_value props) as [v|] eqn:Hv; intros [= <-].
  - reflexivity.
  - rewrite app_nil_r. reflexivity.
Qed.

Lemma collect_records get year stations rows :
  Collection.collect get year stations = Some rows ->
  rows = records_of get year stations.
Proof.
  intros H. unfold Collection.collect in H.
  apply (for_each_appends _ (fun s => s)
           (fun station : string * string =>
              omap (record_of (fst station) (snd station))
                (concat ((fun month =>
                   Collection.fetch_station_month get (fst station) year month)
                   <$> seqZ 1 12)))) in H; [exact H|].
  intros s [sid name] s' Hs. cbn [fst snd].
  unfold Collection.collect_station in Hs.
  apply (for_each_appends _ (fun s => s)
           (fun month => omap (record_of sid name)
                           (Collection.fetch_station_month get sid year month))) in Hs.
  - rewrite Hs, concat_omap_fmap. reflexivity.
  - intros s1 month s1' Hm. cbn [fst snd] in Hm.
    unfold Collection.collect_month in Hm.
    apply (for_each_appends _ (fun s => s) (fun f => omap (record_of sid name) [f])) in Hm.
    + rewrite Hm, concat_omap_singletons. reflexivity.
    + intros s2 f s2'. apply add_feature_record.
Qed.

(** X14.  The list a yearly collection returns holds, in the order of
    the station table, then of the months, then of the features of a
    response, one record for every feature with a value.  A record takes
    its observation time from the feature; its station id and station
    name are those of the table entry the request was made for, whatever
    the feature says of its station. *)
Theorem collected_records_follow_the_station_table :
  forall get year,
    (forall rows,
       Collection.collect_wind_data get year = Some rows ->
       rows = records_of get year Collection.WIND_STATIONS) /\
    (forall rows,
       Collection.collect_sunshine_data get year = Some rows ->
       rows = records_of get year Collection.SUNSHINE_STATIONS).
Proof.
  intros get year. split; intros rows H; exact (collect_records _ _ _ _ H).
Qed.

Lemma collected_records_follow_the_station_table_witness :
  [Collection.Record_ (Some "2020-01-01T00:00:00Z") "06154" "Brandelev" (Some 4)] =
  records_of january_06154 2020 Collection.WIND_STATIONS.
Proof.
  apply (proj1 (collected_records_follow_the_station_table january_06154 2020)).
  vm_compute. reflexivity.
Defined.

(** ** The months of Combined_Heating_Data_2022-2025.py *)

Lemma months_of_year_cases year :
  months_of_year year =
  if year =? 2022
  then [(year, 9); (year, 10); (year, 11); (year, 12)]
  else [(year, 1); (year, 2); (year, 3); (year, 4); (year, 5); (year, 6);
        (year, 7); (year, 8); (year, 9); (year, 10); (year, 11); (year, 12)].
Proof. unfold months_of_year. destruct (year =? 2022); reflexivity. Qed.

Lemma months_of_year_shape year :
  exists l,
    months_of_year year = (year, if year =? 2022 then 9 else 1) :: l /\
    last (months_of_year year) = Some (year, 12) /\
    consecutive (months_of_year year) /\
    Forall (fun ym => fst ym = year /\ 1 <= snd ym <= 12) (months_of_year year).
Proof.
  rewrite months_of_year_cases. destruct (year =? 2022).
  - eexists. split; [reflexivity|]. split; [reflexivity|]. split.
    + simpl. unfold month_after. simpl. repeat split.
    + repeat constructor; simpl; lia.
  - eexists. split; [reflexivity|]. split; [reflexivity|]. split.
    + simpl. unfold month_after. simpl. repeat split.
    + repeat constructor; simpl; lia.
Qed.

Lemma consecutive_app l1 : forall l2,
  consecutive l1 -> consecutive l2 ->
  (forall a b, last l1 = Some a -> head l2 = Some b -> b = month_after a) ->
  consecutive (l1 ++ l2).
Proof.
  induction l1 as [|a [|b l1] IH]; intros l2 H1 H2 Hjoin.
  - exact H2.
  - destruct l2 as [|b l2]; [exact I|]. split; [|exact H2].
    apply Hjoin; reflexivity.
  - destruct H1 as [Hb H1]. split; [exact Hb|].
    apply (IH l2 H1 H2). intros a' b' Ha' Hb'. apply Hjoin; [exact Ha'|exact Hb'].
Qed.

Lemma consecutive_lookup l : forall (i : nat) a b,
  consecutive l -> l !! i = Some a -> l !! S i = Some b -> b = month_after a.
Proof.
  induction l as [|x l IH]; intros i a b Hl Ha Hb.
  - rewrite lookup_nil in Ha. discriminate.
  - destruct l as [|y l].
    + destruct i; simpl in Hb; discriminate Hb.
    + destruct Hl as [Hy Hl]. destruct i as [|i].
      * simpl in Ha, Hb. congruence.
      * exact (IH i a b Hl Ha Hb).
Qed.

Lemma months_unfold start_year end_year :
  Combined.months start_year end_year =
  seqZ start_year (end_year + 1 - start_year) ≫= months_of_year.
Proof. reflexivity. Qed.

(** The months of [n] years from a year that is not before 2022. *)
Lemma months_from (n : nat) : forall start_year,
  2022 <= start_year ->
  let ms := seqZ start_year (Z.of_nat n) ≫= months_of_year in
  consecutive ms /\
  Forall (fun ym => 1 <= snd ym <= 12) ms /\
  (forall b, head ms = Some b ->
             b = (start_year, if start_year =? 2022 then 9 else 1)) /\
  ((0 < n)%nat -> last ms = Some (start_year + Z.of_nat n - 1, 12)) /\
  ((0 < n)%nat -> is_Some (head ms)).
Proof.
  induction n as [|n IH]; intros start_year Hge ms; subst ms.
  - change (seqZ start_year (Z.of_nat 0) ≫= months_of_year) with (@nil (Z * Z)).
    split; [exact I|]. split; [constructor|].
    split; [intros b; discriminate|]. split; intros H; inversion H.
  - rewrite seqZ_cons by lia.
    replace (Z.pred (Z.of_nat (S n))) with (Z.of_nat n) by lia.
    cbn [mbind list_bind].
    destruct (IH (Z.succ start_year) ltac:(lia)) as (Hc & Hall & Hhead & Hlast & Hsome).
    set (rest := seqZ (Z.succ start_year) (Z.of_nat n) ≫= months_of_year) in *.
    destruct (months_of_year_shape start_year) as (l & Hshape & Hl & Hcy & Hally).
    split; [|split; [|split; [|split]]].
    + apply consecutive_app; [exact Hcy|exact Hc|].
      intros a b Ha Hb. rewrite Hl in Ha. injection Ha as <-.
      apply Hhead in Hb. subst b. unfold month_after. simpl.
      assert ((Z.succ start_year =? 2022) = false) as -> by (apply Z.eqb_neq; lia).
      f_equal; lia.
    + apply Forall_app. split; [|exact Hall].
      eapply Forall_impl; [exact Hally|]. intros ym [_ H]. exact H.
    + rewrite Hshape. simpl. intros b [= <-]. reflexivity.
    + intros _. destruct n as [|n].
      * subst rest. simpl. rewrite app_nil_r, Hl. do 2 f_equal; lia.
      * destruct (Hsome ltac:(lia)) as [b Hb].
        destruct rest as [|x rest']; [discriminate|].
        rewrite last_app_cons.
        rewrite (Hlast ltac:(lia)). do 2 f_equal; lia.
    + intros _. rewrite Hshape. simpl. eauto.
Qed.

Lemma month_bounds_tile a b :
  b = month_after a ->
  snd (Combined.month_bounds (fst a) (snd a)) =
  fst (Combined.month_bounds (fst b) (snd b)).
Proof.
  intros ->. unfold Combined.month_bounds, month_after.
  destruct (snd a =? 12); simpl; [reflexivity|].
  destruct (snd a + 1 =? 12); reflexivity.
Qed.

(** X15.  For years that do not start before 2022, the two loops of
    [fetch_all_years_combined] go through every month from the first one
    (September for 2022, January otherwise) to December of the last
    year, once each and in chronological order; and the end of the
    period requested for a month is the start of the period requested
    for the next one, so that the requests leave no gap and do not
    overlap. *)
Theorem months_requested_are_consecutive :
  forall start_year end_year,
    2022 <= start_year <= end_year ->
    let ms := Combined.months start_year end_year in
    head ms = Some (start_year, if start_year =? 2022 then 9 else 1) /\
    last ms = Some (end_year, 12) /\
    Forall (fun ym => 1 <= snd ym <= 12) ms /\
    (forall (i : nat) a b,
       ms !! i = Some a -> ms !! S i = Some b ->
       b = month_after a /\
       snd (Combined.month_bounds (fst a) (snd a)) =
       fst (Combined.month_bounds (fst b) (snd b))).
Proof.
  intros start_year end_year Hyears ms. subst ms. rewrite months_unfold.
  replace (end_year + 1 - start_year)
    with (Z.of_nat (Z.to_nat (end_year + 1 - start_year))) by lia.
  destruct (months_from (Z.to_nat (end_year + 1 - start_year)) start_year ltac:(lia))
    as (Hc & Hall & Hhead & Hlast & Hsome).
  split; [|split; [|split]].
  - destruct (Hsome ltac:(lia)) as [b Hb]. rewrite Hb. f_equal. apply Hhead, Hb.
  - rewrite (Hlast ltac:(lia)). do 2 f_equal; lia.
  - exact Hall.
  - intros i a b Ha Hb.
    pose proof (consecutive_lookup _ i a b Hc Ha Hb) as Hnext.
    split; [exact Hnext|apply month_bounds_tile, Hnext].
Qed.

Lemma months_requested_are_consecutive_witness :
  let ms := Combined.months Combined.START_YEAR Combined.END_YEAR in
  head ms = Some (2022, 9) /\
  last ms = Some (2025, 12) /\
  Forall (fun ym => 1 <= snd ym <= 12) ms /\
  (forall (i : nat) a b,
     ms !! i = Some a -> ms !! S i = Some b ->
     b = month_after a /\
     snd (Combined.month_bounds (fst a) (snd a)) =
     fst (Combined.month_bounds (fst b) (snd b))).
Proof.
  apply (months_requested_are_consecutive 2022 2025). lia.
Defined.

(** ** The files of Combined_Heating_Data_2022-2025.py *)

Section CsvFacts.
Context {V : Type}.
Implicit Types (rec : @Combined.record V) (records : list (@Combined.record V)).

Lemma writerow_fits fieldnames rec :
  dom rec ⊆ list_to_set fieldnames ->
  Combined.writerow fieldnames rec = Some (cells fieldnames rec).
Proof. intros H. unfold Combined.writerow. rewrite decide_True by exact H. reflexivity. Qed.

Lemma writerow_raises fieldnames rec :
  ~ dom rec ⊆ list_to_set fieldnames -> Combined.writerow fieldnames rec = None.
Proof. intros H. unfold Combined.writerow. rewrite decide_False by exact H. reflexivity. Qed.

(** The rows written are those of the records before the first one with
    a key that is no field name. *)
Lemma writerows_run fieldnames records : forall written,
  exists (n : nat) file,
    Forall (fun rec => dom rec ⊆ list_to_set fieldnames) (take n records) /\
    file = Combined.Csv fieldnames (written ++ (cells fieldnames <$> take n records)) /\
    (Combined.writerows fieldnames records written = Combined.Written file /\
     n = length records \/
     Combined.writerows fieldnames records written = Combined.Broken file /\
     exists rec, records !! n = Some rec /\ ~ dom rec ⊆ list_to_set fieldnames).
Proof.
  induction records as [|rec records IH]; intros written.
  - exists 0%nat. eexists. split; [constructor|]. split; [reflexivity|].
    left. simpl. rewrite app_nil_r. auto.
  - cbn [Combined.writerows].
    destruct (decide (dom rec ⊆ list_to_set fieldnames)) as [Hfit|Hbad].
    + rewrite (writerow_fits _ _ Hfit).
      destruct (IH (written ++ [cells fieldnames rec])) as (n & file & Hall & Hfile & Hend).
      exists (S n), file. split; [constructor; assumption|].
      split; [rewrite Hfile, <- app_assoc; reflexivity|].
      destruct Hend as [[Hw ->]|[Hb Hrec]]; [left; auto|right; auto].
    + rewrite (writerow_raises _ _ Hbad).
      exists 0%nat. eexists. split; [constructor|]. split; [reflexivity|].
      right. simpl. rewrite app_nil_r. eauto.
Qed.

Lemma header_of_first (first : @Combined.record V) :
  let keys := merge_sort String.le (elements (dom first)) in
  StronglySorted String.le keys /\ NoDup keys /\
  (forall k, k ∈ keys <-> is_Some (first !! k)) /\
  list_to_set keys = dom first.
Proof.
  intros keys.
  assert (forall k, k ∈ keys <-> k ∈ dom first) as Hkeys.
  { intros k. subst keys. rewrite merge_sort_Permutation. apply elem_of_elements. }
  split; [apply (StronglySorted_merge_sort String.le)|].
  split; [subst keys; rewrite merge_sort_Permutation; apply NoDup_elements|].
  split; [intros k; rewrite Hkeys; apply (elem_of_dom (M:=gmap string))|].
  apply set_eq. intros k. rewrite elem_of_list_to_set. apply Hkeys.
Qed.

Lemma save_to_csv_NoData records :
  Combined.save_to_csv records = Combined.NoData <-> records = [].
Proof.
  split; [|intros ->; reflexivity].
  destruct records as [|first rest]; [reflexivity|]. unfold Combined.save_to_csv.
  destruct (writerows_run (merge_sort String.le (elements (dom first))) (first :: rest) [])
    as (n & file & _ & _ & [[-> _]|[-> _]]); discriminate.
Qed.

End CsvFacts.

(** X16.  [save_to_csv] takes the columns of the file from the first
    record alone: the header is the sorted list of its keys, without a
    repetition.  Every record is written under these columns, with the
    empty cell for a key it lacks, until a record has a key the first one
    lacks: there [writerow] raises, and the file is left with the rows
    of the records before it.  All the records are written exactly when
    none has such a key. *)
Theorem save_to_csv_takes_its_columns_from_the_first_record :
  forall (V : Type) (first : @Combined.record V) (rest : list (@Combined.record V)),
    let records := first :: rest in
    exists (n : nat) file,
      (Combined.save_to_csv records = Combined.Written file /\ n = length records \/
       Combined.save_to_csv records = Combined.Broken file /\
       exists rec, records !! n = Some rec /\ ~ dom rec ⊆ dom first) /\
      StronglySorted String.le (Combined.header file) /\
      NoDup (Combined.header file) /\
      (forall k, k ∈ Combined.header file <-> is_Some (first !! k)) /\
      Forall (fun rec => dom rec ⊆ dom first) (take n records) /\
      Combined.rows file = cells (Combined.header file) <$> take n records.
Proof.
  intros V first rest records. subst records. unfold Combined.save_to_csv.
  destruct (header_of_first first) as (Hsorted & Hnodup & Hkeys & Hset).
  set (keys := merge_sort String.le (elements (dom first))) in *.
  destruct (writerows_run keys (first :: rest) []) as (n & file & Hall & -> & Hend).
  rewrite Hset in Hall, Hend.
  exists n. eexists. split; [exact Hend|]. cbn [Combined.header Combined.rows].
  repeat split; auto; apply Hkeys.
Qed.

Section YearsFacts.
Context {V : Type}.
Variable get : string -> string -> Z -> Heating.response (@Combined.record V).
Variable fuel : nat.

Local Abbreviation has_records :=
  (fun ym : Z * Z => month_records get fuel ym <> []).

Lemma month_step_returned s year month s' :
  Combined.month_step get fuel s year month = Combined.Returned s' ->
  Combined.total_months_processed s' = Combined.total_months_processed s + 1 /\
  Combined.all_combined_records s' =
    Combined.all_combined_records s ++ month_records get fuel (year, month) /\
  Combined.successful_months s' =
    Combined.successful_months s +
    (if decide (month_records get fuel (year, month) = []) then 0 else 1) /\
  Combined.files s' =
    Combined.files s ++ omap (month_file get fuel) [(year, month)] /\
  (month_records get fuel (year, month) <> [] ->
   is_Some (month_file get fuel (year, month))).
Proof.
  unfold Combined.month_step. intros H.
  destruct (Combined.fetch_month_data get fuel year month) as [r|] eqn:Hfetch;
    [|discriminate].
  assert (month_records get fuel (year, month) = store r) as Hrec
    by (unfold month_records; cbn [fst snd]; rewrite Hfetch; reflexivity).
  unfold month_file. cbn [omap list_omap fst snd]. rewrite Hrec. cbn zeta in H.
  destruct (store r) as [|rec records].
  - injection H as <-.
    cbn [Combined.total_months_processed Combined.all_combined_records
         Combined.successful_months Combined.files Combined.save_to_csv].
    rewrite !app_nil_r. rewrite decide_True by reflexivity.
    split; [reflexivity|]. split; [reflexivity|]. split; [lia|].
    split; [reflexivity|]. intros E. exfalso. apply E. reflexivity.
  - destruct (Combined.save_to_csv (rec :: records)) as [|file|file] eqn:Hsave;
      [|injection H as <-|discriminate].
    + apply save_to_csv_NoData in Hsave. discriminate.
    + cbn [Combined.total_months_processed Combined.all_combined_records
           Combined.successful_months Combined.files].
      rewrite decide_False by discriminate.
      split; [reflexivity|]. split; [reflexivity|]. split; [reflexivity|].
      split; [reflexivity|]. eauto.
Qed.

Lemma for_months_returned l : forall s s',
  Combined.for_months get fuel l s = Combined.Returned s' ->
  Combined.total_months_processed s' =
    Combined.total_months_processed s + Z.of_nat (length l) /\
  Combined.all_combined_records s' =
    Combined.all_combined_records s ++ concat (month_records get fuel <$> l) /\
  Combined.successful_months s' =
    Combined.successful_months s + Z.of_nat (length (filter has_records l)) /\
  Combined.files s' = Combined.files s ++ omap (month_file get fuel) l /\
  Forall (fun ym => month_records get fuel ym <> [] ->
                    is_Some (month_file get fuel ym)) l.
Proof.
  induction l as [|[year month] l IH]; intros s s' H.
  - injection H as <-. simpl. rewrite !app_nil_r. repeat split; try lia. constructor.
  - cbn [Combined.for_months] in H.
    destruct (Combined.month_step get fuel s year month) as [s1| |] eqn:H1;
      try discriminate.
    apply month_step_returned in H1 as (Ht1 & Ha1 & Hs1 & Hf1 & Hfile1).
    apply IH in H as (Ht & Ha & Hs & Hf & Hfile).
    rewrite Ht, Ha, Hs, Hf, Ht1, Ha1, Hs1, Hf1.
    rewrite fmap_cons, filter_cons. cbn [concat length].
    split; [lia|]. split; [rewrite <- app_assoc; reflexivity|].
    split; [|split; [|constructor; assumption]].
    + destruct (decide (month_records get fuel (year, month) = [])) as [E|E].
      * rewrite decide_False by (intros E'; apply E'; exact E). lia.
      * rewrite decide_True by exact E. simpl length. lia.
    + rewrite <- app_assoc. f_equal. cbn [omap list_omap].
      destruct (month_file get fuel (year, month)); reflexivity.
Qed.

Lemma concat_nil_filter (l : list (Z * Z)) :
  concat (month_records get fuel <$> l) = [] <-> filter has_records l = [].
Proof.
  induction l as [|ym l IH]; [tauto|].
  rewrite fmap_cons, filter_cons. cbn [concat].
  destruct (decide (month_records get fuel ym <> [])) as [E|E].
  - split; [|discriminate]. intros H. apply app_eq_nil in H as [H _]. contradiction.
  - assert (month_records get fuel ym = []) as ->
      by (destruct (month_records get fuel ym); [reflexivity|exfalso; apply E; discriminate]).
    exact IH.
Qed.

End YearsFacts.

(** X17.  When [fetch_all_years_combined] returns, it has processed the
    forty months from September 2022 to December 2025.  The list it
    returns is the concatenation, month after month, of what
    [fetch_month_data] returned for each of them, a month cut short by a
    failed request included with the records read before the failure.
    [successful_months] counts the months that gave a record, each of
    which has its file, and no other month has one; the list is empty
    exactly when no month gave a record. *)
Theorem combined_records_are_the_months_in_order :
  forall (V : Type)
         (get : string -> string -> Z -> Heating.response (@Combined.record V))
         fuel s,
    Combined.fetch_all_years_combined get fuel = Combined.Returned s ->
    let ms := Combined.months Combined.START_YEAR Combined.END_YEAR in
    Combined.total_months_processed s = 40 /\
    Combined.all_combined_records s = concat (month_records get fuel <$> ms) /\
    Combined.successful_months s =
      Z.of_nat (length (filter (fun ym => month_records get fuel ym <> []) ms)) /\
    Combined.files s = omap (month_file get fuel) ms /\
    Forall (fun ym => month_records get fuel ym <> [] ->
                      is_Some (month_file get fuel ym)) ms /\
    (Combined.all_combined_records s = [] <-> Combined.successful_months s = 0).
Proof.
  intros V get fuel s H ms. unfold Combined.fetch_all_years_combined in H.
  apply for_months_returned in H as (Ht & Ha & Hs & Hf & Hfile).
  cbn [Combined.total_months_processed Combined.all_combined_records
       Combined.successful_months Combined.files app] in Ht, Ha, Hs, Hf.
  fold ms in Ht, Ha, Hs, Hf, Hfile.
  split; [rewrite Ht; reflexivity|]. split; [exact Ha|]. split; [rewrite Hs; lia|].
  split; [exact Hf|]. split; [exact Hfile|].
  rewrite Ha, Hs, (concat_nil_filter get fuel ms).
  destruct (filter (fun ym => month_records get fuel ym <> []) ms); simpl; split;
    intros; try reflexivity; try discriminate; lia.
Qed.

Lemma combined_records_are_the_months_in_order_witness :
  exists s,
    Combined.fetch_all_years_combined one_hour_a_month 1 = Combined.Returned s /\
    let ms := Combined.months Combined.START_YEAR Combined.END_YEAR in
    Combined.total_months_processed s = 40 /\
    Combined.all_combined_records s = concat (month_records one_hour_a_month 1 <$> ms) /\
    Combined.successful_months s =
      Z.of_nat (length (filter (fun ym => month_records one_hour_a_month 1 ym <> []) ms)) /\
    Combined.files s = omap (month_file one_hour_a_month 1) ms /\
    Forall (fun ym => month_records one_hour_a_month 1 ym <> [] ->
                      is_Some (month_file one_hour_a_month 1 ym)) ms /\
    (Combined.all_combined_records s = [] <-> Combined.successful_months s = 0).
Proof.
  destruct (Combined.fetch_all_years_combined one_hour_a_month 1) as [s| |] eqn:H.
  - exists s. split; [reflexivity|].
    exact (combined_records_are_the_months_in_order string one_hour_a_month 1 s H).
  - exfalso. vm_compute in H. discriminate.
  - exfalso. vm_compute in H. discriminate.
Defined.

(** ** The order of arrival in precipitation.py *)







(** ** The dates of sunlight.py *)

Lemma note_date_fold fs : forall dates,
  fold_left note_date fs dates =
  fold_left (fun x d => (earliest d (fst x), latest d (snd x))) (omap date_of fs) dates.
Proof.
  induction fs as [|f fs IH]; intros dates; [reflexivity|].
  cbn [fold_left omap list_omap]. rewrite IH. unfold note_date.
  destruct (date_of f); reflexivity.
Qed.

(** The first and the last of a list of dates noted one after the
    other are its least and its greatest. *)
Lemma noted_dates_extremes ds :
  Forall (fun d => d <> "") ds ->
  let r := fold_left (fun x d => (earliest d (fst x), latest d (snd x))) ds
             (None, None) in
  (ds = [] -> r = (None, None)) /\
  (ds <> [] ->
   exists lo hi,
     r = (Some lo, Some hi) /\ lo ∈ ds /\ hi ∈ ds /\
     forall d, d ∈ ds -> String.le lo d /\ String.le d hi).
Proof.
  intros Hds r. subst r.
  assert (forall a b,
            fold_left (fun x d => (earliest d (fst x), latest d (snd x))) ds (a, b) =
            (fold_left (fun x d => earliest d x) ds a,
             fold_left (fun x d => latest d x) ds b)) as ->.
  { clear Hds. induction ds as [|d ds IH]; intros a b; [reflexivity|].
    simpl. apply IH. }
  pose proof (earliest_fold ds None Hds ltac:(discriminate)) as Hlo.
  pose proof (latest_fold ds None Hds ltac:(discriminate)) as Hhi.
  split.
  - intros ->. reflexivity.
  - intros Hne.
    destruct (fold_left (fun x d => earliest d x) ds None) as [lo|];
      [|destruct Hlo; contradiction].
    destruct (fold_left (fun x d => latest d x) ds None) as [hi|];
      [|destruct Hhi; contradiction].
    destruct Hlo as (_ & [Hlo|Hlo] & Hlo_le & _); [discriminate|].
    destruct Hhi as (_ & [Hhi|Hhi] & Hhi_le & _); [discriminate|].
    exists lo, hi. repeat split; auto.
Qed.

Lemma sunlight_getitem_insert st sid e : Sunlight.getitem (<[sid := e]> st) sid = e.
Proof. unfold Sunlight.getitem. rewrite lookup_insert_eq. reflexivity. Qed.

Lemma sunlight_getitem_insert_ne st sid sid' e :
  sid' <> sid ->
  Sunlight.getitem (<[sid' := e]> st) sid = Sunlight.getitem st sid.
Proof. intros Hne. unfold Sunlight.getitem. rewrite lookup_insert_ne by exact Hne. reflexivity. Qed.

Lemma sunshine_feature_dates st f st' sid :
  Sunlight.sunshine_feature st f = Some st' ->
  sunshine_dates_of (Sunlight.getitem st' sid) =
    (if decide (station_of f = Some sid)
     then note_date (sunshine_dates_of (Sunlight.getitem st sid)) f
     else sunshine_dates_of (Sunlight.getitem st sid)) /\
  radiation_dates_of (Sunlight.getitem st' sid) =
    radiation_dates_of (Sunlight.getitem st sid).
Proof.
  unfold Sunlight.sunshine_feature. intros H.
  destruct (Sunlight.read f) as [[[props coords] sid']|] eqn:Hread; [|discriminate].
  destruct (lat_lon coords) as [[lat lon]|] eqn:Hll; [|discriminate].
  cbn zeta in H. injection H as <-.
  apply sunlight_read_station in Hread as (Hs & _ & Hp).
  destruct (decide (station_of f = Some sid)) as [Heq|Hne].
  - assert (sid' = sid) as -> by congruence.
    rewrite !sunlight_getitem_insert.
    unfold note_date. rewrite <- (seen_date_of f props _ Hp).
    unfold Sunlight.sunshine_dates, seen, sunshine_dates_of, radiation_dates_of.
    destruct (prop_from props) as [d|]; [destruct (bool_decide (d = ""))|];
      split; reflexivity.
  - rewrite !sunlight_getitem_insert_ne by congruence.
    split; reflexivity.
Qed.

Lemma radiation_feature_dates st f st' sid :
  Sunlight.radiation_feature st f = Some st' ->
  radiation_dates_of (Sunlight.getitem st' sid) =
    (if decide (station_of f = Some sid)
     then note_date (radiation_dates_of (Sunlight.getitem st sid)) f
     else radiation_dates_of (Sunlight.getitem st sid)) /\
  sunshine_dates_of (Sunlight.getitem st' sid) =
    sunshine_dates_of (Sunlight.getitem st sid).
Proof.
  unfold Sunlight.radiation_feature. intros H.
  destruct (Sunlight.read f) as [[[props coords] sid']|] eqn:Hread; [|discriminate].
  apply sunlight_read_station in Hread as (Hs & _ & Hp).
  assert (exists e0,
            Sunlight.first_sunshine_date e0 =
              Sunlight.first_sunshine_date (Sunlight.getitem st sid') /\
            Sunlight.last_sunshine_date e0 =
              Sunlight.last_sunshine_date (Sunlight.getitem st sid') /\
            Sunlight.first_radiation_date e0 =
              Sunlight.first_radiation_date (Sunlight.getitem st sid') /\
            Sunlight.last_radiation_date e0 =
              Sunlight.last_radiation_date (Sunlight.getitem st sid') /\
            st' = <[sid' :=
                     let e := Sunlight.radiation_dates (prop_from props)
                       (Sunlight.Info (Sunlight.stationId e0) (Sunlight.meta e0)
                          (Sunlight.latitude e0) (Sunlight.longitude e0)
                          (Sunlight.measures_sunshine e0) true
                          (Sunlight.sunshine_observations e0)
                          (Sunlight.radiation_observations e0)
                          (Sunlight.first_sunshine_date e0)
                          (Sunlight.last_sunshine_date e0)
                          (Sunlight.first_radiation_date e0)
                          (Sunlight.last_radiation_date e0)) in
                     Sunlight.Info (Sunlight.stationId e) (Sunlight.meta e)
                       (Sunlight.latitude e) (Sunlight.longitude e)
                       (Sunlight.measures_sunshine e) (Sunlight.measures_radiation e)
                       (Sunlight.sunshine_observations e)
                       (Sunlight.radiation_observations e + 1)
                       (Sunlight.first_sunshine_date e) (Sunlight.last_sunshine_date e)
                       (Sunlight.first_radiation_date e)
                       (Sunlight.last_radiation_date e)]> st)
    as (e0 & H1 & H2 & H3 & H4 & ->).
  { unfold Sunlight.getitem. destruct (st !! sid') as [e|].
    - cbn zeta in H. injection H as <-. exists e.
      split; [reflexivity|]. split; [reflexivity|]. split; [reflexivity|].
      split; reflexivity.
    - destruct (lat_lon coords) as [[lat lon]|]; [|discriminate].
      cbn zeta in H. injection H as <-.
      exists (Sunlight.Info (Some sid') (Sunlight.meta Sunlight.default_info)
                (Some lat) (Some lon) false false 0 0 None None None None).
      split; [reflexivity|]. split; [reflexivity|]. split; [reflexivity|].
      split; reflexivity. }
  destruct (decide (station_of f = Some sid)) as [Heq|Hne].
  - assert (sid' = sid) as -> by congruence.
    rewrite !sunlight_getitem_insert.
    unfold note_date. rewrite <- (seen_date_of f props _ Hp).
    unfold Sunlight.radiation_dates, seen, sunshine_dates_of, radiation_dates_of.
    destruct (prop_from props) as [d|]; [destruct (bool_decide (d = ""))|];
      cbn; rewrite ?H1, ?H2, ?H3, ?H4; split; reflexivity.
  - rewrite !sunlight_getitem_insert_ne by congruence.
    split; reflexivity.
Qed.

Lemma sunshine_pass_dates fs : forall st st' sid,
  for_each Sunlight.sunshine_feature fs st = Some st' ->
  sunshine_dates_of (Sunlight.getitem st' sid) =
    fold_left note_date (of_station sid fs) (sunshine_dates_of (Sunlight.getitem st sid)) /\
  radiation_dates_of (Sunlight.getitem st' sid) =
    radiation_dates_of (Sunlight.getitem st sid).
Proof.
  induction fs as [|f fs IH]; intros st st' sid H.
  - injection H as <-. split; reflexivity.
  - cbn [for_each] in H.
    destruct (Sunlight.sunshine_feature st f) as [st1|] eqn:Hf; [|discriminate].
    apply (sunshine_feature_dates _ _ _ sid) in Hf as [Hs Hr].
    destruct (IH st1 st' sid H) as [Hs' Hr'].
    rewrite Hs', Hr', Hs, Hr. split; [|reflexivity].
    unfold of_station. rewrite filter_cons.
    destruct (decide (station_of f = Some sid)); reflexivity.
Qed.

Lemma radiation_pass_dates rs : forall st st' sid,
  for_each Sunlight.radiation_feature rs st = Some st' ->
  radiation_dates_of (Sunlight.getitem st' sid) =
    fold_left note_date (of_station sid rs) (radiation_dates_of (Sunlight.getitem st sid)) /\
  sunshine_dates_of (Sunlight.getitem st' sid) =
    sunshine_dates_of (Sunlight.getitem st sid).
Proof.
  induction rs as [|f rs IH]; intros st st' sid H.
  - injection H as <-. split; reflexivity.
  - cbn [for_each] in H.
    destruct (Sunlight.radiation_feature st f) as [st1|] eqn:Hf; [|discriminate].
    apply (radiation_feature_dates _ _ _ sid) in Hf as [Hr Hs].
    destruct (IH st1 st' sid H) as [Hr' Hs'].
    rewrite Hs', Hr', Hs, Hr. split; [|reflexivity].
    unfold of_station. rewrite filter_cons.
    destruct (decide (station_of f = Some sid)); reflexivity.
Qed.

Lemma sunlight_without_meta_dates e e' :
  sunlight_without_meta e' = sunlight_without_meta e ->
  sunshine_dates_of e' = sunshine_dates_of e /\
  radiation_dates_of e' = radiation_dates_of e.
Proof.
  destruct e, e'. unfold sunlight_without_meta, sunshine_dates_of, radiation_dates_of.
  simpl. intros [= -> -> -> -> -> -> -> -> -> -> ->]. split; reflexivity.
Qed.

(** X19.  In a row sunlight.py exports, the first and the last sunshine
    date are the least and the greatest of the non-empty ['from'] strings
    of the sunshine features of the station, and the first and the last
    radiation date those of its radiation features, each pair [None]
    when the station has no such string: the dates of one parameter never
    enter those of the other. *)
Theorem sunlight_dates_are_kept_apart :
  forall fs rs stations rows sid row,
    Sunlight.get_sunlight_stations_csv (Features fs) (Features rs) stations =
    Sunlight.Exported rows ->
    rows !! sid = Some row ->
    let extremes (ds : list string) (dates : option string * option string) :=
      (ds = [] -> dates = (None, None)) /\
      (ds <> [] ->
       exists lo hi,
         dates = (Some lo, Some hi) /\ lo ∈ ds /\ hi ∈ ds /\
         forall d, d ∈ ds -> String.le lo d /\ String.le d hi) in
    extremes (dates_of sid fs) (sunshine_dates_of (Sunlight.summary row)) /\
    extremes (dates_of sid rs) (radiation_dates_of (Sunlight.summary row)).
Proof.
  intros fs rs stations rows sid row H Hrow extremes.
  unfold Sunlight.get_sunlight_stations_csv in H.
  destruct (for_each Sunlight.sunshine_feature fs ∅) as [st1|] eqn:H1; [|discriminate].
  destruct (for_each Sunlight.radiation_feature rs st1) as [st2|] eqn:H2; [|discriminate].
  assert (exists st3, rows = Sunlight.station_row <$> st3 /\
                      sunlight_without_meta <$> st3 = sunlight_without_meta <$> st2)
    as (st3 & -> & Hkeep).
  { destruct stations as [|features].
    - injection H as <-. eauto.
    - destruct (for_each Sunlight.join_station features st2) as [st3|] eqn:H3;
        [|discriminate].
      injection H as <-. exists st3. split; [reflexivity|].
      apply sunlight_join_keeps with features, H3. }
  apply lookup_fmap_Some in Hrow as (e3 & <- & He3).
  apply (f_equal (fun m => m !! sid)) in Hkeep. rewrite !lookup_fmap, He3 in Hkeep.
  destruct (st2 !! sid) as [e2|] eqn:He2; [|discriminate].
  simpl in Hkeep. apply (inj Some) in Hkeep.
  apply sunlight_without_meta_dates in Hkeep as [Hs Hr].
  cbn [Sunlight.station_row Sunlight.summary]. rewrite Hs, Hr.
  destruct (sunshine_pass_dates _ _ _ sid H1) as [Hs1 Hr1].
  destruct (radiation_pass_dates _ _ _ sid H2) as [Hr2 Hs2].
  rewrite (sunlight_getitem_Some _ _ _ He2) in Hr2, Hs2.
  rewrite Hs2, Hs1, Hr2, Hr1.
  unfold Sunlight.getitem. rewrite lookup_empty. cbn [default].
  change (sunshine_dates_of Sunlight.default_info) with (@None string, @None string).
  change (radiation_dates_of Sunlight.default_info) with (@None string, @None string).
  rewrite !note_date_fold. fold (dates_of sid fs). fold (dates_of sid rs).
  split; apply noted_dates_extremes, omap_dates_not_empty.
Qed.

Lemma sunlight_dates_are_kept_apart_witness :
  let row :=
    Sunlight.station_row
      (Sunlight.Info (Some "06019") (<["name" := None]> ∅) (Some 57) (Some 8)
         true false 1 0 (Some "2020-06-01T00:00:00Z")
         (Some "2020-06-01T00:00:00Z") None None) in
  let extremes (ds : list string) (dates : option string * option string) :=
    (ds = [] -> dates = (None, None)) /\
    (ds <> [] ->
     exists lo hi,
       dates = (Some lo, Some hi) /\ lo ∈ ds /\ hi ∈ ds /\
       forall d, d ∈ ds -> String.le lo d /\ String.le d hi) in
  extremes (dates_of "06019" [sunshine_06019])
    (sunshine_dates_of (Sunlight.summary row)) /\
  extremes (dates_of "06019" []) (radiation_dates_of (Sunlight.summary row)).
Proof.
  exact (sunlight_dates_are_kept_apart [sunshine_06019] [] StationRequestException
           _ "06019" _ eq_refl eq_refl).
Defined.
